(** * The real-time engine of clap-host: src/host/engine.cc

    A shallow embedding of [Engine] (state machine, sample buffers, MIDI
    translation and audio callback) and the properties checked against it.

    Conventions of the embedding:
    - a pointer to a calloc'ed block of floats is [option (list float32)],
      [None] being [nullptr]; a float is carried as its 32-bit pattern;
    - the [double] arithmetic of the MIDI time stamps is carried out on exact
      rationals ([Q]); the conversion to [int32_t] truncates toward zero and
      is undefined outside the range of [int32_t]; module [Double] repeats
      the computation on binary64 numbers for concrete time stamps;
    - indexing past the end of a buffer or of a [std::vector] is undefined
      behaviour in C++ and is a [Fault] here; a failed [assert] is a [Fault];
    - a C++ exception thrown by RtMidi, RtAudio or the plugin host is a
      [Throw] answer of the environment the call is made in;
    - every call made on a collaborator (plugin host, RtAudio, RtMidi) is
      appended to the ghost field [_log] of the engine, and so is every block
      the C heap hands out or takes back;
    - [allocateBuffers], [start] and [step] are the runs in which [calloc]
      always has a block; [allocateBuffers_from], [start_from] and
      [step_from] take its answers, block or null pointer, as a parameter. *)

From Stdlib Require Import ZArith QArith Qround Lia List String Floats Uint63.
From stdpp Require Import base list strings.
Import ListNotations.

Local Open Scope Z_scope.

(** ** Machine integers *)

Module Int.

Definition int_min : Z := - 2 ^ 31.
Definition int_max : Z := 2 ^ 31 - 1.
Definition uint_max : Z := 2 ^ 32 - 1.

(** Conversion to [unsigned int]: reduction modulo 2^32. *)
Definition to_uint (x : Z) : Z := x mod 2 ^ 32.

(** Conversion of an in-range value to [int]; out-of-range values wrap as
    on two's-complement machines. *)
Definition to_int (x : Z) : Z := (x + 2 ^ 31) mod 2 ^ 32 - 2 ^ 31.

(** [uint8_t] right shift and mask, as in [midiBuf[0] >> 4] and
    [midiBuf[0] & 0xf]. *)
Definition to_uint8 (x : Z) : Z := Z.land x 255.

(** Truncation of a rational toward zero, the value part of the C++
    conversion from [double] to an integer type. *)
Definition Qtrunc (q : Q) : Z :=
  if Qle_bool 0 q then Qfloor q else Qceiling q.

(** [double] to [int32_t]: defined only when the truncated value fits. *)
Definition double_to_int32 (q : Q) : option Z :=
  let t := Qtrunc q in
  if (int_min <=? t) && (t <=? int_max) then Some t else None.

End Int.

(** ** MIDI constants (enum MidiStatus) *)

Definition MIDI_STATUS_NOTE_OFF : Z := 0x8.
Definition MIDI_STATUS_NOTE_ON : Z := 0x9.
Definition MIDI_STATUS_NOTE_AT : Z := 0xA.
Definition MIDI_STATUS_CC : Z := 0xB.
Definition MIDI_STATUS_PGM_CHANGE : Z := 0xC.
Definition MIDI_STATUS_CHANNEL_AT : Z := 0xD.
Definition MIDI_STATUS_PITCH_BEND : Z := 0xE.

(** ** The sample offset of a MIDI event (audioCallback, lines 184-190)

    [frameCount] is an [unsigned int]; [currentTime], [msgTime] and the
    sample rate are doubles.  They are taken as exact rationals here: the
    machine rounds every operation, so its offset can differ from this one by
    one at the clamp test and at the truncation.  [Double] below computes
    with the machine's numbers. *)

Definition deltaMs (currentTime msgTime : Q) : Q := currentTime - msgTime.

Definition deltaSample (dMs sampleRate : Q) : Q :=
  (dMs * sampleRate) / 1000.

(** [if (deltaSample >= frameCount) deltaSample = frameCount - 1;]
    the subtraction is done on [unsigned int]. *)
Definition clampDeltaSample (frameCount : Z) (ds : Q) : Q :=
  if Qle_bool (inject_Z frameCount) ds
  then inject_Z (Int.to_uint (frameCount - 1))
  else ds.

(** [int32_t sampleOffset = frameCount - deltaSample;] *)
Definition sampleOffset (frameCount : Z) (dMs sampleRate : Q) : option Z :=
  let ds := clampDeltaSample frameCount (deltaSample dMs sampleRate) in
  Int.double_to_int32 (inject_Z frameCount - ds).

(** The same statements on IEEE-754 binary64 numbers, to run the rational
    model against the arithmetic of the machine on concrete time stamps. *)
Module Double.

Definition of_Z (z : Z) : float :=
  if z <? 0 then PrimFloat.opp (PrimFloat.of_uint63 (Uint63.of_Z (- z)))
  else PrimFloat.of_uint63 (Uint63.of_Z z).

(** The integer part of a finite double; [None] for infinities and NaN. *)
Definition trunc (f : float) : option Z :=
  match Prim2SF f with
  | SpecFloat.S754_zero _ => Some 0
  | SpecFloat.S754_finite s m e =>
      let mag := if 0 <=? e then Z.shiftl (Z.pos m) e else Z.shiftr (Z.pos m) (- e) in
      Some (if s then - mag else mag)
  | _ => None
  end.

Definition to_int32 (f : float) : option Z :=
  match trunc f with
  | Some t => if (Int.int_min <=? t) && (t <=? Int.int_max) then Some t else None
  | None => None
  end.

Definition sampleOffset (frameCount : Z) (currentTime msgTime sampleRate : float)
    : option Z :=
  let deltaMs := PrimFloat.sub currentTime msgTime in
  let deltaSample := PrimFloat.div (PrimFloat.mul deltaMs sampleRate) (of_Z 1000) in
  let deltaSample :=
    if PrimFloat.leb (of_Z frameCount) deltaSample
    then of_Z (Int.to_uint (frameCount - 1))
    else deltaSample in
  to_int32 (PrimFloat.sub (of_Z frameCount) deltaSample).

End Double.

(** ** Data model *)

(** enum State of engine.hh *)
Inductive State := kStateStopped | kStateRunning | kStateStopping.

#[global] Instance State_eq_dec : EqDecision State.
Proof. solve_decision. Defined.

(** A float sample, as its IEEE-754 binary32 bit pattern; [calloc] fills
    with the pattern 0. *)
Abbreviation float32 := Z (only parsing).
Abbreviation buffer := (list float32) (only parsing).

(** A message as [RtMidiIn::getMessage] delivers it: the bytes and the
    time stamp it returns. *)
Record MidiMessage := mkMidiMessage {
  msg_time : Q;
  msg_bytes : list Z
}.

(** The part of an [RtMidiIn] the engine observes. *)
Record RtMidiIn := mkRtMidiIn {
  midi_portOpen : bool;
  midi_queue : list MidiMessage
}.

(** The part of an [RtAudio] the engine observes. *)
Record RtAudio := mkRtAudio {
  audio_streamOpen : bool;
  audio_streamRunning : bool
}.

Record DeviceReference := mkDeviceReference {
  _api : string;
  _index : Z
}.

(** The values the engine reads from [Settings]. *)
Record Settings := mkSettings {
  audio_deviceReference : DeviceReference;
  audio_sampleRate : Z;
  audio_bufferSize : Z;
  midi_deviceReference : DeviceReference
}.

(** Calls made on the collaborators, in program order. *)
Inductive Event :=
| HostDeactivate
| HostSetPorts (nin nout : Z)
| HostActivate (sampleRate nframes : Z)
| HostProcessBegin (frameCount : Z)
| HostProcess
| HostNoteOn (sampleOffset channel key velocity : Z)
| HostNoteOff (sampleOffset channel key velocity : Z)
| HostCC (sampleOffset channel cc value : Z)
| HostNoteAt (sampleOffset channel key pressure : Z)
| HostPitchBend (sampleOffset channel value : Z)
| HostIdle
| HostLoad (path : string) (plugin_index : Z)
| HostSetParentWindow
| HostUnload
| AudioNew (api : string)
| AudioOpenStream (deviceId sampleRate bufferSize : Z)
| AudioStartStream
| AudioStopStream
| AudioCloseStream
| AudioDelete
| MidiNew (api : string)
| MidiOpenPort (index : Z)
| MidiIgnoreTypes
| MidiClosePort
| MidiDelete
| Calloc (bytes : Z)
| Free
| Cerr (line : string).

#[global] Instance Event_eq_dec : EqDecision Event.
Proof. solve_decision. Defined.

Definition is_host_call (ev : Event) : bool :=
  match ev with
  | HostDeactivate | HostSetPorts _ _ | HostActivate _ _ | HostProcessBegin _
  | HostProcess | HostNoteOn _ _ _ _ | HostNoteOff _ _ _ _ | HostCC _ _ _ _
  | HostNoteAt _ _ _ _ | HostPitchBend _ _ _ | HostIdle | HostLoad _ _
  | HostSetParentWindow | HostUnload => true
  | _ => false
  end.

(** The members of [Engine] the methods of engine.cc read or write. *)
Record Engine := mkEngine {
  _settings : Settings;
  _state : State;
  _midiIn : option RtMidiIn;
  _audio : option RtAudio;
  _inputs : option buffer * option buffer;
  _outputs : option buffer * option buffer;
  _nframes : Z;
  _steadyTime : Z;
  _sampleRate : Z;
  _log : list Event
}.

Definition set_state (s : State) (e : Engine) : Engine :=
  mkEngine (_settings e) s (_midiIn e) (_audio e) (_inputs e) (_outputs e)
           (_nframes e) (_steadyTime e) (_sampleRate e) (_log e).

Definition set_midiIn (m : option RtMidiIn) (e : Engine) : Engine :=
  mkEngine (_settings e) (_state e) m (_audio e) (_inputs e) (_outputs e)
           (_nframes e) (_steadyTime e) (_sampleRate e) (_log e).

Definition set_audio (a : option RtAudio) (e : Engine) : Engine :=
  mkEngine (_settings e) (_state e) (_midiIn e) a (_inputs e) (_outputs e)
           (_nframes e) (_steadyTime e) (_sampleRate e) (_log e).

Definition set_inputs (b : option buffer * option buffer) (e : Engine) : Engine :=
  mkEngine (_settings e) (_state e) (_midiIn e) (_audio e) b (_outputs e)
           (_nframes e) (_steadyTime e) (_sampleRate e) (_log e).

Definition set_outputs (b : option buffer * option buffer) (e : Engine) : Engine :=
  mkEngine (_settings e) (_state e) (_midiIn e) (_audio e) (_inputs e) b
           (_nframes e) (_steadyTime e) (_sampleRate e) (_log e).

Definition set_nframes (n : Z) (e : Engine) : Engine :=
  mkEngine (_settings e) (_state e) (_midiIn e) (_audio e) (_inputs e)
           (_outputs e) n (_steadyTime e) (_sampleRate e) (_log e).

Definition set_steadyTime (t : Z) (e : Engine) : Engine :=
  mkEngine (_settings e) (_state e) (_midiIn e) (_audio e) (_inputs e)
           (_outputs e) (_nframes e) t (_sampleRate e) (_log e).

Definition emit (ev : Event) (e : Engine) : Engine :=
  mkEngine (_settings e) (_state e) (_midiIn e) (_audio e) (_inputs e)
           (_outputs e) (_nframes e) (_steadyTime e) (_sampleRate e)
           (_log e ++ [ev]).

(** Modelled from the spec: the default member initialisers of engine.hh,
    which is not part of the sources.  The state machine starts in Stopped,
    the four buffer pointers are null, no device is held and the sample
    counter is only ever set at construction; [sampleRate] and [nframes]
    stand for the initial values of [_sampleRate] and [_nframes]. *)
Definition Engine_new (settings : Settings) (sampleRate nframes : Z) : Engine :=
  mkEngine settings kStateStopped None None (None, None) (None, None)
           nframes 0 sampleRate [].

(** ** Faults and exceptions *)

Inductive fault :=
| AssertFailed (what : string)
| OutOfBounds
| UndefinedConversion.

Inductive outcome (A : Type) :=
| Done (a : A)
| Fault (f : fault).
Arguments Done {A} a.
Arguments Fault {A} f.

Definition obind {A B} (x : outcome A) (f : A -> outcome B) : outcome B :=
  match x with
  | Done a => f a
  | Fault ft => Fault ft
  end.

(** What a collaborator answers to a call: it returns or it throws. *)
Inductive result (A : Type) :=
| Ok (a : A)
| Throw.
Arguments Ok {A} a.
Arguments Throw {A}.

(** The body of a [try] block: it runs to its end or leaves by an exception,
    in both cases with the engine as it is at that point. *)
Inductive exc :=
| Normal (e : Engine)
| Thrown (e : Engine).

Definition stmt := Engine -> exc.

Definition pure (f : Engine -> Engine) : stmt := fun e => Normal (f e).

Definition seq (a b : stmt) : stmt :=
  fun e => match a e with
           | Normal e' => b e'
           | Thrown e' => Thrown e'
           end.

Notation "a ;;; b" := (seq a b) (at level 65, right associativity).

(** A call that is logged and then returns or throws. *)
Definition call (ev : Event) (r : result unit) : stmt :=
  fun e => match r with
           | Ok _ => Normal (emit ev e)
           | Throw => Thrown (emit ev e)
           end.

(** [try { body } catch (...) { handler }] *)
Definition try_catch (body : stmt) (handler : Engine -> Engine) (e : Engine) : Engine :=
  match body e with
  | Normal e' => e'
  | Thrown e' => handler e'
  end.

(** ** SampleBufferSet: allocateBuffers and freeBuffers *)

(** [free(p)]: nothing happens for a null pointer. *)
Definition free (p : option buffer) (e : Engine) : Engine :=
  match p with
  | Some _ => emit Free e
  | None => e
  end.

(** [(float * )std::calloc(nmemb, size)] when it returns a block:
    [nmemb * size] zeroed bytes, that is [nmemb * size / 4] floats.  The call
    that returns a null pointer is [calloc_from] below. *)
Definition sizeof_float : Z := 4.

Definition calloc (nmemb size : Z) : buffer :=
  replicate (Z.to_nat (nmemb * size / sizeof_float)) 0.

Definition freeBuffers (e : Engine) : Engine :=
  let e := free (fst (_inputs e)) e in
  let e := free (snd (_inputs e)) e in
  let e := free (fst (_outputs e)) e in
  let e := free (snd (_outputs e)) e in
  let e := set_inputs (None, None) e in
  set_outputs (None, None) e.

(** Lines 46-53, with every [calloc] returning a block. *)
Definition allocateBuffers (bufferSize : Z) (e : Engine) : Engine :=
  let e := freeBuffers e in
  let e := set_inputs (Some (calloc 1 bufferSize), snd (_inputs e))
                      (emit (Calloc bufferSize) e) in
  let e := set_inputs (fst (_inputs e), Some (calloc 1 bufferSize))
                      (emit (Calloc bufferSize) e) in
  let e := set_outputs (Some (calloc 1 bufferSize), snd (_outputs e))
                       (emit (Calloc bufferSize) e) in
  set_outputs (fst (_outputs e), Some (calloc 1 bufferSize))
              (emit (Calloc bufferSize) e).

(** ** Engine::stop *)

(** [_audio.reset()] and [_midiIn.reset()] of a [std::unique_ptr]. *)
Definition audio_reset (e : Engine) : Engine :=
  match _audio e with
  | Some _ => set_audio None (emit AudioDelete e)
  | None => e
  end.

Definition midi_reset (e : Engine) : Engine :=
  match _midiIn e with
  | Some _ => set_midiIn None (emit MidiDelete e)
  | None => e
  end.

(** Lines 123-126: the plugin is deactivated and a running engine is told
    to wind down. *)
Definition stop_request (e : Engine) : Engine :=
  let e := emit HostDeactivate e in
  if decide (_state e = kStateRunning) then set_state kStateStopping e else e.

(** Lines 128-134. *)
Definition stop_audio (e : Engine) : Engine :=
  match _audio e with
  | Some a =>
      let e := if audio_streamOpen a
               then set_audio (Some (mkRtAudio false false))
                      (emit AudioCloseStream (emit AudioStopStream e))
               else e in
      audio_reset e
  | None => e
  end.

(** Lines 136-140. *)
Definition stop_midi (e : Engine) : Engine :=
  match _midiIn e with
  | Some m =>
      let e := if midi_portOpen m
               then set_midiIn (Some (mkRtMidiIn false (midi_queue m)))
                      (emit MidiClosePort e)
               else e in
      midi_reset e
  | None => e
  end.

(** Lines 128-144: devices released, buffers freed, state forced. *)
Definition stop_release (e : Engine) : Engine :=
  set_state kStateStopped (freeBuffers (stop_midi (stop_audio e))).

Definition stop (e : Engine) : Engine := stop_release (stop_request e).

(** ** Engine::start *)

(** What the devices and the plugin host answer during one [start()]. *)
Record StartEnv := mkStartEnv {
  env_midiNew : result unit;        (* RtMidiIn constructor *)
  env_midiOpenPort : result unit;   (* RtMidiIn::openPort *)
  env_audioNew : result unit;       (* RtAudio constructor *)
  env_openStream : Z -> result Z;   (* requested buffer size to negotiated one *)
  env_setPorts : result unit;       (* PluginHost::setPorts *)
  env_activate : result unit;       (* PluginHost::activate *)
  env_startStream : result unit     (* RtAudio::startStream *)
}.

(** [_midiIn = std::make_unique<RtMidiIn>(api)] *)
Definition make_unique_RtMidiIn (r : result unit) (api : string) : stmt :=
  fun e => match r with
           | Ok _ => Normal (set_midiIn (Some (mkRtMidiIn false [])) (emit (MidiNew api) e))
           | Throw => Thrown (emit (MidiNew api) e)
           end.

Definition midi_openPort (r : result unit) (index : Z) : stmt :=
  fun e => match r, _midiIn e with
           | Ok _, Some m =>
               Normal (set_midiIn (Some (mkRtMidiIn true (midi_queue m)))
                                  (emit (MidiOpenPort index) e))
           | _, _ => Thrown (emit (MidiOpenPort index) e)
           end.

(** [if (_midiIn) { ... }] and [if (_audio) { ... }] *)
Definition if_midiIn (body : stmt) : stmt :=
  fun e => match _midiIn e with
           | Some _ => body e
           | None => Normal e
           end.

Definition if_audio (body : stmt) : stmt :=
  fun e => match _audio e with
           | Some _ => body e
           | None => Normal e
           end.

(** The body of the first [try] (lines 74-80). *)
Definition start_midi_steps (env : StartEnv) (deviceRef : DeviceReference) : stmt :=
  pure midi_reset ;;;
  make_unique_RtMidiIn (env_midiNew env) (_api deviceRef) ;;;
  if_midiIn (midi_openPort (env_midiOpenPort env) (_index deviceRef) ;;;
             pure (emit MidiIgnoreTypes)).

Definition start_midi_body (env : StartEnv) : stmt :=
  fun e => start_midi_steps env (midi_deviceReference (_settings e)) e.

(** Lines 73-83. *)
Definition start_midi (env : StartEnv) (e : Engine) : Engine :=
  try_catch (start_midi_body env) midi_reset e.

(** [unsigned int bufferSize = std::min<int>(32, as.bufferSize());] *)
Definition requestedBufferSize (as_bufferSize : Z) : Z :=
  Int.to_uint (Z.min 32 (Int.to_int as_bufferSize)).

(** [_audio = std::make_unique<RtAudio>(api)] *)
Definition make_unique_RtAudio (r : result unit) (api : string) : stmt :=
  fun e => match r with
           | Ok _ => Normal (set_audio (Some (mkRtAudio false false)) (emit (AudioNew api) e))
           | Throw => Thrown (emit (AudioNew api) e)
           end.

(** [_audio->openStream(..., &bufferSize, ...)]: the driver writes the
    negotiated size back through the pointer; [k] is the rest of the block,
    which reads it. *)
Definition openStream (env : StartEnv) (deviceId sampleRate bufferSize : Z)
    (k : Z -> stmt) : stmt :=
  fun e =>
    let e := emit (AudioOpenStream deviceId sampleRate bufferSize) e in
    match env_openStream env bufferSize with
    | Ok negotiated =>
        k (Int.to_uint negotiated) (set_audio (Some (mkRtAudio true false)) e)
    | Throw => Thrown e
    end.

Definition startStream (env : StartEnv) : stmt :=
  fun e => match env_startStream env with
           | Ok _ => Normal (set_audio (Some (mkRtAudio true true)) (emit AudioStartStream e))
           | Throw => Thrown (emit AudioStartStream e)
           end.

(** Lines 109-115, after [openStream] has returned. *)
Definition start_after_open (env : StartEnv) (sampleRate : Z) (negotiated : Z) : stmt :=
  pure (set_nframes negotiated) ;;;
  pure (set_state kStateRunning) ;;;
  call (HostSetPorts 2 2) (env_setPorts env) ;;;
  (fun e => call (HostActivate sampleRate (_nframes e)) (env_activate env) e) ;;;
  startStream env.

(** The body of the second [try] (lines 87-116). *)
Definition start_audio_steps (env : StartEnv) (deviceRef : DeviceReference)
    (sampleRate bufferSize : Z) : stmt :=
  pure (allocateBuffers (32 * 1024)) ;;;
  pure audio_reset ;;;
  make_unique_RtAudio (env_audioNew env) (_api deviceRef) ;;;
  if_audio (openStream env (_index deviceRef) sampleRate bufferSize
              (start_after_open env sampleRate)).

Definition start_audio_body (env : StartEnv) : stmt :=
  fun e =>
    let as_ := _settings e in
    start_audio_steps env (audio_deviceReference as_) (audio_sampleRate as_)
                      (requestedBufferSize (audio_bufferSize as_)) e.

(** Lines 85-119. *)
Definition start_audio (env : StartEnv) (e : Engine) : Engine :=
  try_catch (start_audio_body env) stop e.

Definition start (env : StartEnv) (e : Engine) : outcome Engine :=
  if decide (_state e = kStateStopped)
  then Done (start_audio env (start_midi env e))
  else Fault (AssertFailed "_state == kStateStopped").

(** ** Engine::audioCallback *)

(** [v[i]] on a raw buffer or a [std::vector]: defined inside the bounds. *)
Definition buf_read (l : list Z) (i : nat) : outcome Z :=
  match l !! i with
  | Some x => Done x
  | None => Fault OutOfBounds
  end.

(** [v[i] = x] *)
Definition buf_write (l : list Z) (i : nat) (x : Z) : outcome (list Z) :=
  if decide (i < length l)%nat then Done (<[i:=x]> l) else Fault OutOfBounds.

(** [for (int i = 0; i < count; ++i) body], started at index [i]. *)
Fixpoint for_loop {St : Type} (body : nat -> St -> outcome St) (i count : nat) (s : St)
    : outcome St :=
  match count with
  | O => Done s
  | S count' => obind (body i s) (for_loop body (S i) count')
  end.

(** Lines 166-167. *)
Definition copy_input_body (inb : buffer) (i : nat) (lr : buffer * buffer)
    : outcome (buffer * buffer) :=
  obind (buf_read inb (2 * i)) (fun x =>
  obind (buf_write (fst lr) i x) (fun l =>
  obind (buf_read inb (2 * i + 1)) (fun y =>
  obind (buf_write (snd lr) i y) (fun r =>
  Done (l, r))))).

(** Lines 164-169; [None] is a null [inputBuffer]. *)
Definition copy_input (inb : option buffer) (frameCount : nat) (lr : buffer * buffer)
    : outcome (buffer * buffer) :=
  match inb with
  | Some b => for_loop (copy_input_body b) 0 frameCount lr
  | None => Done lr
  end.

(** Lines 228-229. *)
Definition copy_output_body (l r : buffer) (i : nat) (out : buffer) : outcome buffer :=
  obind (buf_read l i) (fun x =>
  obind (buf_write out (2 * i) x) (fun out =>
  obind (buf_read r i) (fun y =>
  buf_write out (2 * i + 1) y))).

(** Lines 227-230. *)
Definition copy_output (l r : buffer) (frameCount : nat) (out : buffer) : outcome buffer :=
  for_loop (copy_output_body l r) 0 frameCount out.

(** Lines 179-221: one drained message, [midiBuf] non-empty.  A [Cerr]
    entry holds the fixed text of the line; the key, the pressure or the
    type number the code prints after it are left out. *)
Definition translate (frameCount : Z) (currentTime : Q) (msgTime : Q) (midiBuf : list Z)
    (e : Engine) : outcome Engine :=
  obind (buf_read midiBuf 0) (fun status =>
  let eventType := Int.to_uint8 (Z.shiftr status 4) in
  let channel := Int.to_uint8 (Z.land status 0xf) in
  obind (buf_read midiBuf 1) (fun data1 =>
  obind (buf_read midiBuf 2) (fun data2 =>
  match sampleOffset frameCount (deltaMs currentTime msgTime)
                     (inject_Z (_sampleRate e)) with
  | None => Fault UndefinedConversion
  | Some off =>
      if decide (eventType = MIDI_STATUS_NOTE_ON) then
        Done (emit (HostNoteOn off channel data1 data2) e)
      else if decide (eventType = MIDI_STATUS_NOTE_OFF) then
        Done (emit (HostNoteOff off channel data1 data2) e)
      else if decide (eventType = MIDI_STATUS_CC) then
        Done (emit (HostCC off channel data1 data2) e)
      else if decide (eventType = MIDI_STATUS_NOTE_AT) then
        Done (emit (HostNoteAt off channel data1 data2) (emit (Cerr "Note AT") e))
      else if decide (eventType = MIDI_STATUS_CHANNEL_AT) then
        Done (emit (Cerr "Channel after touch") e)
      else if decide (eventType = MIDI_STATUS_PITCH_BEND) then
        Done (emit (HostPitchBend off channel (Z.lor (Z.shiftl data2 7) data1)) e)
      else
        Done (emit (Cerr "unknown event type") e)
  end))).

(** Lines 174-222 for an open port holding the queue [q]: [getMessage] pops
    the oldest message and leaves [midiBuf] empty when there is none.  The
    result carries what is left in the queue. *)
Fixpoint midi_drain (frameCount : Z) (currentTime : Q) (q : list MidiMessage)
    (e : Engine) : outcome (list MidiMessage * Engine) :=
  match q with
  | [] => Done ([], e)
  | m :: q' =>
      match msg_bytes m with
      | [] => Done (q', e)
      | _ :: _ =>
          obind (translate frameCount currentTime (msg_time m) (msg_bytes m) e)
                (midi_drain frameCount currentTime q')
      end
  end.

(** Lines 173-222. *)
Definition process_midi (frameCount : Z) (currentTime : Q) (e : Engine) : outcome Engine :=
  match _midiIn e with
  | Some m =>
      if midi_portOpen m then
        obind (midi_drain frameCount currentTime (midi_queue m) e) (fun r =>
        Done (set_midiIn (Some (mkRtMidiIn true (fst r))) (snd r)))
      else Done e
  | None => Done e
  end.

(** Modelled from the spec: [PluginHost::process] is not part of the
    sources; it reads the input channels and writes the output channels in
    place.  [dsp] gives the samples it writes; written in place, they cannot
    change the size of an output block. *)
Definition dsp := buffer -> buffer -> buffer -> buffer -> buffer * buffer.

Definition write_block (new old : buffer) : buffer :=
  take (length old) new ++ drop (length new) old.

Definition cassert {A} (b : bool) (what : string) (k : outcome A) : outcome A :=
  if b then k else Fault (AssertFailed what).

Definition is_null {A} (p : option A) : bool :=
  match p with Some _ => false | None => true end.

(** Line 224: the plugin host processes the block in place. *)
Definition plugin_process (plugin : dsp) (inL inR outL outR : buffer) (thiz : Engine)
    : Engine :=
  let o := plugin inL inR outL outR in
  set_outputs (Some (write_block (fst o) outL), Some (write_block (snd o) outR))
              (emit HostProcess thiz).

(** Lines 234-243. *)
Definition callback_return (thiz : Engine) (out : buffer) : outcome (Engine * buffer * Z) :=
  match _state thiz with
  | kStateRunning => Done (thiz, out, 0)
  | kStateStopping => Done (set_state kStateStopped thiz, out, 1)
  | kStateStopped => Fault (AssertFailed "unreachable")
  end.

(** Lines 171-243, once the asserts have passed. *)
Definition callback_body (plugin : dsp) (outputBuffer : buffer)
    (inputBuffer : option buffer) (frameCount : Z) (currentTime : Q)
    (inL inR outL outR : buffer) (thiz : Engine) : outcome (Engine * buffer * Z) :=
  (* copy input *)
  obind (copy_input inputBuffer (Z.to_nat frameCount) (inL, inR)) (fun ins =>
  let thiz := set_inputs (Some (fst ins), Some (snd ins)) thiz in
  let thiz := emit (HostProcessBegin frameCount) thiz in
  obind (process_midi frameCount currentTime thiz) (fun thiz =>
  let o := plugin (fst ins) (snd ins) outL outR in
  let thiz := plugin_process plugin (fst ins) (snd ins) outL outR thiz in
  (* copy output *)
  obind (copy_output (write_block (fst o) outL) (write_block (snd o) outR)
                     (Z.to_nat frameCount) outputBuffer) (fun out =>
  let thiz := set_steadyTime (_steadyTime thiz + frameCount) thiz in
  callback_return thiz out))).

(** The values [audioCallback] hands back to the driver: the engine, the
    interleaved output buffer and the return code. *)
Definition audioCallback (plugin : dsp) (outputBuffer : buffer)
    (inputBuffer : option buffer) (frameCount : Z) (currentTime : Q) (thiz : Engine)
    : outcome (Engine * buffer * Z) :=
  match _inputs thiz, _outputs thiz with
  | (Some inL, Some inR), (Some outL, Some outR) =>
      cassert (frameCount =? _nframes thiz) "frameCount == thiz->_nframes"
        (callback_body plugin outputBuffer inputBuffer frameCount currentTime
                       inL inR outL outR thiz)
  | _, _ => Fault (AssertFailed "buffer != nullptr")
  end.

(** ** The remaining methods *)

(** [load] answers whether the plugin could be loaded. *)
Definition loadPlugin (path : string) (plugin_index : Z) (loaded : bool) (e : Engine)
    : Engine * bool :=
  let e := emit (HostLoad path plugin_index) e in
  if loaded then (emit HostSetParentWindow e, true) else (e, false).

Definition unloadPlugin (e : Engine) : Engine :=
  let e := emit HostUnload e in
  let e := free (fst (_inputs e)) e in
  let e := free (snd (_inputs e)) e in
  let e := free (fst (_outputs e)) e in
  let e := free (snd (_outputs e)) e in
  let e := set_inputs (None, None) e in
  set_outputs (None, None) e.

Definition callPluginIdle (e : Engine) : Engine := emit HostIdle e.

(** ** Runs of the engine *)

(** The MIDI device queues a message on an open port. *)
Definition midi_arrive (m : MidiMessage) (e : Engine) : Engine :=
  match _midiIn e with
  | Some mi =>
      if midi_portOpen mi
      then set_midiIn (Some (mkRtMidiIn true (midi_queue mi ++ [m]))) e
      else e
  | None => e
  end.

(** What can happen to an engine between its construction and its
    destruction: calls of its methods by the application, and calls of the
    callback and deliveries of messages by the drivers. *)
Inductive Op :=
| OpStart (env : StartEnv)
| OpStop
| OpCallback (plugin : dsp) (outputBuffer : buffer) (inputBuffer : option buffer)
             (frameCount : Z) (currentTime : Q)
| OpMidiMessage (m : MidiMessage)
| OpLoadPlugin (path : string) (plugin_index : Z) (loaded : bool)
| OpUnloadPlugin
| OpIdle.

Definition step (op : Op) (e : Engine) : outcome Engine :=
  match op with
  | OpStart env => start env e
  | OpStop => Done (stop e)
  | OpCallback plugin out inb frameCount currentTime =>
      obind (audioCallback plugin out inb frameCount currentTime e)
            (fun r => Done (fst (fst r)))
  | OpMidiMessage m => Done (midi_arrive m e)
  | OpLoadPlugin path plugin_index loaded =>
      Done (fst (loadPlugin path plugin_index loaded e))
  | OpUnloadPlugin => Done (unloadPlugin e)
  | OpIdle => Done (callPluginIdle e)
  end.

(** A fault ends the process: nothing runs after it. *)
Fixpoint run (ops : list Op) (e : Engine) : outcome Engine :=
  match ops with
  | [] => Done e
  | op :: ops' => obind (step op e) (run ops')
  end.

(** ** Allocation that can fail

    [std::calloc] returns a null pointer when it cannot hand out a block, and
    [allocateBuffers] stores what it is given without a test (lines 49-52).
    [alloc k] tells whether the [k]-th of the four calls returns a block;
    [allocateBuffers], [start] and [step] above are the case in which all
    four do. *)

Definition calloc_from (gives : bool) (nmemb size : Z) : option buffer :=
  if gives then Some (calloc nmemb size) else None.

(** The log counts the blocks handed out: a call that returns a null
    pointer adds nothing to it. *)
Definition emit_calloc (p : option buffer) (bytes : Z) (e : Engine) : Engine :=
  match p with
  | Some _ => emit (Calloc bytes) e
  | None => e
  end.

Definition allocateBuffers_from (alloc : nat -> bool) (bufferSize : Z) (e : Engine)
    : Engine :=
  let e := freeBuffers e in
  let p := calloc_from (alloc 0%nat) 1 bufferSize in
  let e := set_inputs (p, snd (_inputs e)) (emit_calloc p bufferSize e) in
  let p := calloc_from (alloc 1%nat) 1 bufferSize in
  let e := set_inputs (fst (_inputs e), p) (emit_calloc p bufferSize e) in
  let p := calloc_from (alloc 2%nat) 1 bufferSize in
  let e := set_outputs (p, snd (_outputs e)) (emit_calloc p bufferSize e) in
  let p := calloc_from (alloc 3%nat) 1 bufferSize in
  set_outputs (fst (_outputs e), p) (emit_calloc p bufferSize e).

(** The body of the second [try] (lines 87-116). *)
Definition start_audio_steps_from (alloc : nat -> bool) (env : StartEnv)
    (deviceRef : DeviceReference) (sampleRate bufferSize : Z) : stmt :=
  pure (allocateBuffers_from alloc (32 * 1024)) ;;;
  pure audio_reset ;;;
  make_unique_RtAudio (env_audioNew env) (_api deviceRef) ;;;
  if_audio (openStream env (_index deviceRef) sampleRate bufferSize
              (start_after_open env sampleRate)).

Definition start_audio_body_from (alloc : nat -> bool) (env : StartEnv) : stmt :=
  fun e =>
    let as_ := _settings e in
    start_audio_steps_from alloc env (audio_deviceReference as_) (audio_sampleRate as_)
                           (requestedBufferSize (audio_bufferSize as_)) e.

(** Lines 85-119. *)
Definition start_audio_from (alloc : nat -> bool) (env : StartEnv) (e : Engine) : Engine :=
  try_catch (start_audio_body_from alloc env) stop e.

Definition start_from (alloc : nat -> bool) (env : StartEnv) (e : Engine)
    : outcome Engine :=
  if decide (_state e = kStateStopped)
  then Done (start_audio_from alloc env (start_midi env e))
  else Fault (AssertFailed "_state == kStateStopped").

(** Runs in which the allocations of a [start()] are answered by [alloc];
    every other operation is as in [step]. *)
Inductive HeapOp :=
| OpStartFrom (alloc : nat -> bool) (env : StartEnv)
| OpOf (op : Op).

Definition step_from (op : HeapOp) (e : Engine) : outcome Engine :=
  match op with
  | OpStartFrom alloc env => start_from alloc env e
  | OpOf op => step op e
  end.

Fixpoint run_from (ops : list HeapOp) (e : Engine) : outcome Engine :=
  match ops with
  | [] => Done e
  | op :: ops' => obind (step_from op e) (run_from ops')
  end.

(** ** Predicates, observations and concrete engines of the statements *)

(** *** The sample offset of a MIDI event *)

(** An engine that is running on four 32 KiB blocks with an open MIDI port
    holding the queue [q]. *)
Definition running_engine (nframes sampleRate : Z) (q : list MidiMessage) : Engine :=
  mkEngine (mkSettings (mkDeviceReference "" 0) sampleRate 32 (mkDeviceReference "" 0))
           kStateRunning
           (Some (mkRtMidiIn true q))
           (Some (mkRtAudio true true))
           (Some (calloc 1 (32 * 1024)), Some (calloc 1 (32 * 1024)))
           (Some (calloc 1 (32 * 1024)), Some (calloc 1 (32 * 1024)))
           nframes 0 sampleRate [].

(** *** stop() on a stopped engine *)

Definition buffers_null (e : Engine) : Prop :=
  _inputs e = (None, None) /\ _outputs e = (None, None).

(** A stopped engine at rest: no device is held and no block is owned.
    This is how the constructor and [stop()] leave the engine. *)
Definition idle_stopped (e : Engine) : Prop :=
  _state e = kStateStopped /\ _audio e = None /\ _midiIn e = None /\ buffers_null e.

Definition settings0 : Settings :=
  mkSettings (mkDeviceReference "alsa" 0) 48000 256 (mkDeviceReference "alsa" 0).

Definition engine0 : Engine := Engine_new settings0 48000 0.

(** *** Observations kept by statements *)

(** The engine a [try] body leaves behind, however it ends. *)
Definition after (x : exc) : Engine :=
  match x with
  | Normal e => e
  | Thrown e => e
  end.

(** [s] does not change the observation [f], whether it returns or throws. *)
Definition keeps {X : Type} (f : Engine -> X) (s : stmt) : Prop :=
  forall e, f (after (s e)) = f e.

(** The buffer sizes asked of the audio driver, oldest first. *)
Definition requested_size (ev : Event) : option Z :=
  match ev with
  | AudioOpenStream _ _ bufferSize => Some bufferSize
  | _ => None
  end.

Definition requested_sizes (l : list Event) : list Z := omap requested_size l.

(** The blocks the log says are live: one more per [calloc], one less per
    [free] of a block. *)
Definition heap_delta (ev : Event) : Z :=
  match ev with
  | Calloc _ => 1
  | Free => -1
  | _ => 0
  end.

Definition live_blocks (l : list Event) : Z :=
  foldr (fun ev n => heap_delta ev + n) 0 l.

Definition owns (p : option buffer) : Z :=
  match p with Some _ => 1 | None => 0 end.

(** The blocks the engine holds a pointer to. *)
Definition owned (e : Engine) : Z :=
  owns (fst (_inputs e)) + owns (snd (_inputs e))
  + owns (fst (_outputs e)) + owns (snd (_outputs e)).

(** Live blocks the engine holds no pointer to: leaked when positive. *)
Definition leaked (e : Engine) : Z := live_blocks (_log e) - owned e.

(** The parts of the engine that only the callback and the constructor
    write. *)
Definition clock (e : Engine) : Settings * Z * Z :=
  (_settings e, _steadyTime e, _sampleRate e).

(** What [start()] and [stop()] leave alone, apart from the opening of the
    stream: settings, sample counter, sample rate, requested sizes and blocks
    without an owner. *)
Definition kept (e : Engine) : Settings * Z * Z * list Z * Z :=
  (clock e, requested_sizes (_log e), leaked e).

(** The engine as [openStream] finds it: blocks allocated, a fresh RtAudio. *)
Definition start_before_open (e : Engine) : Engine :=
  set_audio (Some (mkRtAudio false false))
    (emit (AudioNew (_api (audio_deviceReference (_settings e))))
       (audio_reset (allocateBuffers (32 * 1024) e))).

(** *** The buffer size requested from the driver *)

(** A driver that accepts every request and reports the size [negotiated]. *)
Definition env_ok (negotiated : Z) : StartEnv :=
  mkStartEnv (Ok tt) (Ok tt) (Ok tt) (fun _ => Ok negotiated) (Ok tt) (Ok tt) (Ok tt).

(** *** The two sections of start() *)

(** Everything but the MIDI handle and the log. *)
Definition core (e : Engine)
    : Settings * State * option RtAudio * (option buffer * option buffer)
      * (option buffer * option buffer) * Z * Z * Z :=
  (_settings e, _state e, _audio e, _inputs e, _outputs e, _nframes e,
   _steadyTime e, _sampleRate e).

(** Some call of the MIDI section throws. *)
Definition midi_throws (env : StartEnv) : Prop :=
  env_midiNew env = Throw \/ env_midiOpenPort env = Throw.

(** Some call of the audio section throws; [bufferSize] is the size asked
    of [openStream]. *)
Definition audio_throws (env : StartEnv) (bufferSize : Z) : Prop :=
  env_audioNew env = Throw
  \/ env_openStream env bufferSize = Throw
  \/ env_setPorts env = Throw
  \/ env_activate env = Throw
  \/ env_startStream env = Throw.

(** No call of the audio section throws and the driver reports [negotiated]. *)
Definition audio_ok (env : StartEnv) (bufferSize negotiated : Z) : Prop :=
  env_audioNew env = Ok tt
  /\ env_openStream env bufferSize = Ok negotiated
  /\ env_setPorts env = Ok tt
  /\ env_activate env = Ok tt
  /\ env_startStream env = Ok tt.

(** The blocks [start()] allocates: 32 KiB each, 8192 samples. *)
Definition block : buffer := calloc 1 (32 * 1024).

(** The engine a successful audio section leaves. *)
Definition started (env : StartEnv) (negotiated : Z) (e : Engine) : Engine :=
  let as_ := _settings e in
  set_audio (Some (mkRtAudio true true))
    (emit AudioStartStream
       (emit (HostActivate (audio_sampleRate as_) (Int.to_uint negotiated))
          (emit (HostSetPorts 2 2)
             (set_state kStateRunning
                (set_nframes (Int.to_uint negotiated)
                   (set_audio (Some (mkRtAudio true false))
                      (emit (AudioOpenStream (_index (audio_deviceReference as_))
                               (audio_sampleRate as_)
                               (requestedBufferSize (audio_bufferSize as_)))
                         (start_before_open e)))))))).

(** *** A throw in the audio section of start() *)

(** An audio device whose [openStream] throws. *)
Definition env_open_throws : StartEnv :=
  mkStartEnv (Ok tt) (Ok tt) (Ok tt) (fun _ => Throw) (Ok tt) (Ok tt) (Ok tt).

(** A MIDI port that cannot be opened, with a working audio device that
    reports 64 frames. *)
Definition env_midi_port_throws : StartEnv :=
  mkStartEnv (Ok tt) Throw (Ok tt) (fun _ => Ok 64) (Ok tt) (Ok tt) (Ok tt).

(** *** The callback, step by step *)

(** What a callback that returns has done, statement by statement. *)
Inductive callback_trace (plugin : dsp) (outputBuffer : buffer)
    (inputBuffer : option buffer) (frameCount : Z) (currentTime : Q)
    (thiz thiz' : Engine) (out : buffer) (code : Z) : Prop :=
| CallbackTrace (inL inR outL outR : buffer) (ins : buffer * buffer) (em : Engine) :
    _inputs thiz = (Some inL, Some inR) ->
    _outputs thiz = (Some outL, Some outR) ->
    frameCount = _nframes thiz ->
    copy_input inputBuffer (Z.to_nat frameCount) (inL, inR) = Done ins ->
    process_midi frameCount currentTime
      (emit (HostProcessBegin frameCount)
         (set_inputs (Some (fst ins), Some (snd ins)) thiz)) = Done em ->
    copy_output
      (write_block (fst (plugin (fst ins) (snd ins) outL outR)) outL)
      (write_block (snd (plugin (fst ins) (snd ins) outL outR)) outR)
      (Z.to_nat frameCount) outputBuffer = Done out ->
    callback_return
      (set_steadyTime (_steadyTime thiz + frameCount)
         (plugin_process plugin (fst ins) (snd ins) outL outR em))
      out = Done (thiz', out, code) ->
    callback_trace plugin outputBuffer inputBuffer frameCount currentTime
                   thiz thiz' out code.

(** *** The return code of the callback *)

(** The arguments of one invocation of the callback, with the plugin's
    processing for that block. *)
Record CallbackArgs := mkCallbackArgs {
  cb_plugin : dsp;
  cb_outputBuffer : buffer;
  cb_inputBuffer : option buffer;
  cb_frameCount : Z;
  cb_currentTime : Q
}.

Definition invoke (a : CallbackArgs) (e : Engine) : outcome (Engine * buffer * Z) :=
  audioCallback (cb_plugin a) (cb_outputBuffer a) (cb_inputBuffer a)
                (cb_frameCount a) (cb_currentTime a) e.

(** The return codes of successive callbacks, up to the first fault. *)
Fixpoint callbacks (l : list CallbackArgs) (e : Engine) : list Z :=
  match l with
  | [] => []
  | a :: l' =>
      match invoke a e with
      | Done r => snd r :: callbacks l' (fst (fst r))
      | Fault _ => []
      end
  end.

(** A plugin that copies its input channels to its output channels. *)
Definition plugin_thru : dsp := fun inL inR _ _ => (inL, inR).

(** The engine after a successful [start()] on a driver that negotiates
    blocks of 4 frames. *)
Definition engine_running : Engine :=
  start_audio (env_ok 4) (start_midi (env_ok 4) engine0).

Definition args0 : CallbackArgs :=
  mkCallbackArgs plugin_thru (replicate 8 0) None 4 0.

(** *** The sample counter *)

(** The frames an operation adds to the sample counter. *)
Definition op_frames (op : Op) : Z :=
  match op with
  | OpCallback _ _ _ frameCount _ => frameCount
  | _ => 0
  end.

Definition is_callback (op : Op) : bool :=
  match op with
  | OpCallback _ _ _ _ _ => true
  | _ => false
  end.

Fixpoint total_frames (ops : list Op) : Z :=
  match ops with
  | [] => 0
  | op :: ops' => op_frames op + total_frames ops'
  end.

Fixpoint callback_count (ops : list Op) : nat :=
  match ops with
  | [] => O
  | op :: ops' => ((if is_callback op then 1 else 0) + callback_count ops')%nat
  end.

(** Every callback of the run is given [F] frames. *)
Definition frames_all (F : Z) (ops : list Op) : Prop :=
  forall op, In op ops -> is_callback op = true -> op_frames op = F.

(** Two start/stop cycles with three callbacks of 4 frames. *)
Definition callback0 : Op := OpCallback plugin_thru (replicate 8 0) None 4 0.

Definition cycles : list Op :=
  [OpStart (env_ok 4); callback0; callback0; OpStop; OpIdle;
   OpStart (env_ok 4); callback0; OpStop].

Definition after_cycles : Engine :=
  match run cycles engine0 with
  | Done e => e
  | Fault _ => engine0
  end.

(** *** The copy loops *)

(** The input channels after [j] iterations of the input loop. *)
Definition deinterleaved (inb L R : buffer) (j : nat) (lr : buffer * buffer) : Prop :=
  length (fst lr) = length L /\ length (snd lr) = length R
  /\ (forall k, (k < j)%nat ->
        fst lr !! k = inb !! (2 * k)%nat /\ snd lr !! k = inb !! (2 * k + 1)%nat)
  /\ (forall k, (j <= k)%nat -> fst lr !! k = L !! k /\ snd lr !! k = R !! k).

(** The output buffer after [j] iterations of the output loop. *)
Definition interleaved (l r out : buffer) (j : nat) (out' : buffer) : Prop :=
  length out' = length out
  /\ (forall k, (k < j)%nat ->
        out' !! (2 * k)%nat = l !! k /\ out' !! (2 * k + 1)%nat = r !! k)
  /\ (forall m, (2 * j <= m)%nat -> out' !! m = out !! m).

(** *** What a callback copies *)

(** The messages an open MIDI port holds for the next callback. *)
Definition midi_pending (e : Engine) : list MidiMessage :=
  match _midiIn e with
  | Some m => if midi_portOpen m then midi_queue m else []
  | None => []
  end.

(** What is copied in and out by a callback of [n] frames that turns the
    input channels [inL], [inR] into [inL'], [inR'], leaves the output
    channels as [outL'], [outR'] and the driver's buffer as [out']. *)
Definition copied (inputBuffer : option buffer) (n : nat)
    (inL inR inL' inR' outL' outR' out out' : buffer) : Prop :=
  match inputBuffer with
  | Some b =>
      (forall i, (i < n)%nat ->
         inL' !! i = b !! (2 * i)%nat /\ inR' !! i = b !! (2 * i + 1)%nat)
      /\ (forall i, (n <= i)%nat -> inL' !! i = inL !! i /\ inR' !! i = inR !! i)
  | None => inL' = inL /\ inR' = inR
  end
  /\ (forall i, (i < n)%nat ->
        out' !! (2 * i)%nat = outL' !! i /\ out' !! (2 * i + 1)%nat = outR' !! i)
  /\ (forall m, (2 * n <= m)%nat -> out' !! m = out !! m)
  /\ length out' = length out
  /\ length inL' = length inL /\ length inR' = length inR.


(** The output buffer a callback hands back, if it returns. *)
Definition returned_buffer (o : outcome (Engine * list Z * Z)) : option (list Z) :=
  match o with
  | Done r => Some (snd (fst r))
  | Fault _ => None
  end.

(** *** The sample buffers while the engine is not stopped *)

(** The four pointers are non-null and each block holds 8192 samples: the
    32 KiB that [start()] allocates. *)
Definition has_blocks (e : Engine) : Prop :=
  exists inL inR outL outR,
    _inputs e = (Some inL, Some inR)
    /\ _outputs e = (Some outL, Some outR)
    /\ Z.of_nat (length inL) = 8192 /\ Z.of_nat (length inR) = 8192
    /\ Z.of_nat (length outL) = 8192 /\ Z.of_nat (length outR) = 8192.

Definition buffers_inv (e : Engine) : Prop :=
  _state e <> kStateStopped -> has_blocks e.

Definition is_unload (op : Op) : bool :=
  match op with
  | OpUnloadPlugin => true
  | _ => false
  end.

(** The operations that call [free]: [start()] (through [allocateBuffers]
    and, on failure, [stop()]), [stop()] and [unloadPlugin()]. *)
Definition frees (op : Op) : bool :=
  match op with
  | OpStart _ | OpStop | OpUnloadPlugin => true
  | _ => false
  end.

(** A driver that negotiates blocks of 16384 frames. *)
Definition engine_big : Engine :=
  start_audio (env_ok 16384) (start_midi (env_ok 16384) engine0).

(** *** The bytes the translator reads *)

(** A 2-byte program change on channel 0. *)
Definition program_change : MidiMessage := mkMidiMessage 0 [0xC0; 5].

(** A 1-byte real-time message (timing clock). *)
Definition timing_clock : MidiMessage := mkMidiMessage 0 [0xF8].

(** *** Further observations of the log and of the MIDI queue *)

(** The calls made on the plugin host, in order. *)
Definition host_calls (l : list Event) : list Event := List.filter is_host_call l.

(** What the translator can add to the log for one message: a per-event
    call on the plugin host or a line on standard error. *)
Definition is_midi_event (ev : Event) : bool :=
  match ev with
  | HostNoteOn _ _ _ _ | HostNoteOff _ _ _ _ | HostCC _ _ _ _
  | HostNoteAt _ _ _ _ | HostPitchBend _ _ _ | Cerr _ => true
  | _ => false
  end.

(** The engine with an open MIDI port holding the queue [q]. *)
Definition with_queue (q : list MidiMessage) (e : Engine) : Engine :=
  set_midiIn (Some (mkRtMidiIn true q)) e.

(** A queued message the translator dispatches: at least three bytes and a
    sample offset that fits [int32_t]. *)
Definition midi_dispatchable (frameCount : Z) (currentTime : Q) (sampleRate : Z)
    (m : MidiMessage) : Prop :=
  (3 <= length (msg_bytes m))%nat
  /\ is_Some (sampleOffset frameCount (deltaMs currentTime (msg_time m))
                           (inject_Z sampleRate)).

(** The calls [stop()] makes on the audio device and on the MIDI port. *)
Definition stop_audio_events (a : option RtAudio) : list Event :=
  match a with
  | Some a =>
      (if audio_streamOpen a then [AudioStopStream; AudioCloseStream] else [])
      ++ [AudioDelete]
  | None => []
  end.

Definition stop_midi_events (m : option RtMidiIn) : list Event :=
  match m with
  | Some m => (if midi_portOpen m then [MidiClosePort] else []) ++ [MidiDelete]
  | None => []
  end.

(** One [free] per block the engine owns. *)
Definition free_events (e : Engine) : list Event :=
  replicate (Z.to_nat (owned e)) Free.

(** Engine::~Engine (lines 39-44); [std::clog] writes to standard error. *)
Definition Engine_destroy (e : Engine) : Engine :=
  let e := emit (Cerr "     ####### STOPING ENGINE #########") e in
  let e := stop e in
  let e := unloadPlugin e in
  emit (Cerr "     ####### ENGINE STOPPED #########") e.

(** The log of [e'] is the log of [e] followed by translator events, with
    at most [n] calls on the plugin host among them. *)
Definition midi_logged (n : nat) (e e' : Engine) : Prop :=
  exists l,
    _log e' = _log e ++ l
    /\ Forall (fun ev => is_midi_event ev = true) l
    /\ (length (host_calls l) <= n)%nat.

(** The calls a successful [start()] makes on an engine at rest, in order;
    [negotiated] is the block size the driver wrote back. *)
Definition start_calls (settings : Settings) (negotiated : Z) : list Event :=
  [MidiNew (_api (midi_deviceReference settings));
   MidiOpenPort (_index (midi_deviceReference settings));
   MidiIgnoreTypes;
   Calloc (32 * 1024); Calloc (32 * 1024); Calloc (32 * 1024); Calloc (32 * 1024);
   AudioNew (_api (audio_deviceReference settings));
   AudioOpenStream (_index (audio_deviceReference settings)) (audio_sampleRate settings)
                   (requestedBufferSize (audio_bufferSize settings));
   HostSetPorts 2 2;
   HostActivate (audio_sampleRate settings) negotiated;
   AudioStartStream].

(** What one callback of [args0] returns on [engine_running]. *)
Definition after_callback0 : Engine * list Z * Z :=
  match invoke args0 engine_running with
  | Done r => r
  | Fault _ => (engine_running, [], 0)
  end.

(** Settings with a negative buffer size, and a fresh engine on them. *)
Definition settings_negative : Settings :=
  mkSettings (mkDeviceReference "alsa" 0) 48000 (-1) (mkDeviceReference "alsa" 0).

Definition engine_negative : Engine := Engine_new settings_negative 48000 0.

(** *** Allocation that can fail *)

(** Every one of the four calls of [calloc] returns a block. *)
Definition all_blocks (alloc : nat -> bool) : Prop :=
  alloc 0%nat = true /\ alloc 1%nat = true /\ alloc 2%nat = true /\ alloc 3%nat = true.

Definition allocated (op : HeapOp) : Prop :=
  match op with
  | OpStartFrom alloc _ => all_blocks alloc
  | OpOf _ => True
  end.

Definition is_unload_from (op : HeapOp) : bool :=
  match op with
  | OpStartFrom _ _ => false
  | OpOf op => is_unload op
  end.

Definition frees_from (op : HeapOp) : bool :=
  match op with
  | OpStartFrom _ _ => true
  | OpOf op => frees op
  end.

(** The operation with the answers of the allocator left out. *)
Definition forget (op : HeapOp) : Op :=
  match op with
  | OpStartFrom _ env => OpStart env
  | OpOf op => op
  end.

(** The four pointers [allocateBuffers(bufferSize)] stores: each is what its
    call of [calloc] returned. *)
Definition stored_inputs (alloc : nat -> bool) (bufferSize : Z)
    : option buffer * option buffer :=
  (calloc_from (alloc 0%nat) 1 bufferSize, calloc_from (alloc 1%nat) 1 bufferSize).

Definition stored_outputs (alloc : nat -> bool) (bufferSize : Z)
    : option buffer * option buffer :=
  (calloc_from (alloc 2%nat) 1 bufferSize, calloc_from (alloc 3%nat) 1 bufferSize).

(** One log entry per block handed out. *)
Definition calloc_events (alloc : nat -> bool) (bytes : Z) : list Event :=
  (if alloc 0%nat then [Calloc bytes] else [])
  ++ (if alloc 1%nat then [Calloc bytes] else [])
  ++ (if alloc 2%nat then [Calloc bytes] else [])
  ++ (if alloc 3%nat then [Calloc bytes] else []).

(** The engine as [openStream] finds it. *)
Definition start_before_open_from (alloc : nat -> bool) (e : Engine) : Engine :=
  set_audio (Some (mkRtAudio false false))
    (emit (AudioNew (_api (audio_deviceReference (_settings e))))
       (audio_reset (allocateBuffers_from alloc (32 * 1024) e))).

(** The engine a successful audio section leaves. *)
Definition started_from (alloc : nat -> bool) (env : StartEnv) (negotiated : Z)
    (e : Engine) : Engine :=
  let as_ := _settings e in
  set_audio (Some (mkRtAudio true true))
    (emit AudioStartStream
       (emit (HostActivate (audio_sampleRate as_) (Int.to_uint negotiated))
          (emit (HostSetPorts 2 2)
             (set_state kStateRunning
                (set_nframes (Int.to_uint negotiated)
                   (set_audio (Some (mkRtAudio true false))
                      (emit (AudioOpenStream (_index (audio_deviceReference as_))
                               (audio_sampleRate as_)
                               (requestedBufferSize (audio_bufferSize as_)))
                         (start_before_open_from alloc e)))))))).

(** [stop()] up to its last statement (lines 123-142): everything but
    [_state = kStateStopped]. *)
Definition stop_before_last (e : Engine) : Engine :=
  freeBuffers (stop_midi (stop_audio (stop_request e))).

(** An allocator that always has a block, and one whose second call returns
    a null pointer. *)
Definition alloc_all : nat -> bool := fun _ => true.

Definition alloc_second_fails : nat -> bool := fun k => negb (Nat.eqb k 1).

Definition start_stop_start : list HeapOp :=
  [OpStartFrom alloc_all (env_ok 4); OpOf callback0; OpOf OpStop;
   OpStartFrom alloc_all (env_ok 4); OpOf callback0].

Definition after_start_stop_start : Engine :=
  match run_from start_stop_start engine0 with
  | Done e => e
  | Fault _ => engine0
  end.

(** [start()] on a fresh engine when the second [calloc] returns a null
    pointer. *)
Definition engine_short : Engine :=
  start_audio_from alloc_second_fails (env_ok 4) (start_midi (env_ok 4) engine0).

(** *** stop() and the stream *)

(** The driver can call the callback: an RtAudio object exists and its
    stream runs. *)
Definition stream_running (e : Engine) : Prop :=
  exists a, _audio e = Some a /\ audio_streamRunning a = true.

(** [start()], [stop()] with no callback in between, and [start()] again. *)
Definition engine_started_again : Engine :=
  start_audio (env_ok 4) (start_midi (env_ok 4) (stop engine_running)).

(** *** Time stamps on binary64 *)

(** A time stamp 5/3 ms after a callback at time 0, and two ages of a
    message: a block of 256 frames at 48 kHz lasts 16/3 ms. *)
Definition stamp_ahead : float :=
  PrimFloat.div (Double.of_Z 7505999378950826) (Double.of_Z (2 ^ 52)).

Definition age_block : float := PrimFloat.div (Double.of_Z 16) (Double.of_Z 3).

Definition age_under_block : float := PrimFloat.div (Double.of_Z 533) (Double.of_Z 100).

(** * Properties *)

(** ** Rational truncation *)

Lemma Qtrunc_nonneg (q : Q) : (0 <= q)%Q -> Int.Qtrunc q = Qfloor q.
Proof.
  intros H. unfold Int.Qtrunc.
  destruct (Qle_bool 0 q) eqn:E; [reflexivity|].
  apply Qle_bool_iff in H. congruence.
Qed.

Lemma Qtrunc_comp (p q : Q) : (p == q)%Q -> Int.Qtrunc p = Int.Qtrunc q.
Proof.
  intros H. unfold Int.Qtrunc.
  rewrite (Qleb_comp 0%Q 0%Q (Qeq_refl 0%Q) p q H).
  rewrite (Qfloor_comp p q H), (Qceiling_comp p q H). reflexivity.
Qed.

Lemma Qtrunc_inject_Z (n : Z) : Int.Qtrunc (inject_Z n) = n.
Proof.
  unfold Int.Qtrunc. rewrite Qfloor_Z, Qceiling_Z.
  destruct (Qle_bool 0 (inject_Z n)); reflexivity.
Qed.

Lemma Qtrunc_between (q : Q) (n : Z) :
  (0 <= q)%Q -> (q <= inject_Z n)%Q -> 0 <= Int.Qtrunc q <= n.
Proof.
  intros H0 Hn. rewrite Qtrunc_nonneg by exact H0. split.
  - change 0 with (Qfloor 0%Q). apply Qfloor_resp_le. exact H0.
  - rewrite <- (Qfloor_Z n). apply Qfloor_resp_le. exact Hn.
Qed.

Lemma deltaSample_nonneg (dMs sr : Q) :
  (0 <= dMs)%Q -> (0 <= sr)%Q -> (0 <= deltaSample dMs sr)%Q.
Proof.
  intros Hd Hs. unfold deltaSample, Qdiv.
  apply Qmult_le_0_compat.
  - apply Qmult_le_0_compat; assumption.
  - apply Qinv_le_0_compat. discriminate.
Qed.

Lemma deltaSample_zero (dMs sr : Q) : (dMs == 0)%Q -> (deltaSample dMs sr == 0)%Q.
Proof.
  intros H. unfold deltaSample. rewrite H. unfold Qdiv.
  rewrite Qmult_0_l. apply Qmult_0_l.
Qed.

Lemma double_to_int32_in_range (q : Q) :
  Int.int_min <= Int.Qtrunc q <= Int.int_max ->
  Int.double_to_int32 q = Some (Int.Qtrunc q).
Proof.
  intros [Hl Hu]. unfold Int.double_to_int32.
  apply Z.leb_le in Hl. apply Z.leb_le in Hu. cbv zeta.
  rewrite Hl, Hu. reflexivity.
Qed.

Lemma to_uint_small (x : Z) : 0 <= x <= Int.uint_max -> Int.to_uint x = x.
Proof.
  unfold Int.to_uint, Int.uint_max. intros H. apply Z.mod_small. lia.
Qed.

(** The late branch: [deltaSample] is replaced by [frameCount - 1]. *)
Lemma sampleOffset_late (frameCount : Z) (dMs sr : Q) :
  1 <= frameCount <= Int.int_max ->
  (inject_Z frameCount <= deltaSample dMs sr)%Q ->
  sampleOffset frameCount dMs sr = Some 1.
Proof.
  intros Hfc Hlate. unfold sampleOffset, clampDeltaSample.
  apply Qle_bool_iff in Hlate. rewrite Hlate.
  rewrite to_uint_small by (unfold Int.uint_max, Int.int_max in *; lia).
  assert (E : (inject_Z frameCount - inject_Z (frameCount - 1) == inject_Z 1)%Q).
  { unfold Z.sub. rewrite inject_Z_plus, inject_Z_opp. ring. }
  unfold Int.double_to_int32. rewrite (Qtrunc_comp _ _ E), Qtrunc_inject_Z.
  reflexivity.
Qed.

(** The other branch: the offset is the truncated distance to the end of
    the block. *)
Lemma sampleOffset_early (frameCount : Z) (dMs sr : Q) :
  0 <= frameCount <= Int.int_max ->
  (0 <= deltaSample dMs sr)%Q ->
  (deltaSample dMs sr < inject_Z frameCount)%Q ->
  sampleOffset frameCount dMs sr
    = Some (Int.Qtrunc (inject_Z frameCount - deltaSample dMs sr))
  /\ 0 <= Int.Qtrunc (inject_Z frameCount - deltaSample dMs sr) <= frameCount.
Proof.
  intros Hfc H0 Hlt. unfold sampleOffset, clampDeltaSample.
  destruct (Qle_bool (inject_Z frameCount) (deltaSample dMs sr)) eqn:E.
  { apply Qle_bool_iff in E. exfalso. exact (Qlt_not_le _ _ Hlt E). }
  assert (B : 0 <= Int.Qtrunc (inject_Z frameCount - deltaSample dMs sr) <= frameCount).
  { apply Qtrunc_between.
    - apply Qlt_le_weak in Hlt. rewrite <- (Qplus_opp_r (deltaSample dMs sr)).
      apply Qplus_le_compat; [exact Hlt | apply Qle_refl].
    - rewrite <- (Qplus_0_r (inject_Z frameCount)) at 2.
      apply Qplus_le_compat; [apply Qle_refl|].
      apply (Qopp_le_compat 0%Q). exact H0. }
  split; [|exact B].
  apply double_to_int32_in_range.
  unfold Int.int_min, Int.int_max in *. lia.
Qed.

(** ** C1: the sample offset of a MIDI event *)

(** C1, as amended: for a message with deltaMs >= 0 the sample offset handed
    to the plugin host is defined and lies in [0, frameCount]; when
    deltaSample reaches frameCount it is deltaSample that is clamped (to
    frameCount - 1), which puts the event at offset 1; a message with
    deltaMs = 0 is placed at offset frameCount, with no clamp. *)
Theorem sampleOffset_range (frameCount : Z) (dMs sr : Q) :
  1 <= frameCount <= Int.int_max ->
  (0 <= dMs)%Q ->
  (0 <= sr)%Q ->
  exists off,
    sampleOffset frameCount dMs sr = Some off
    /\ 0 <= off <= frameCount
    /\ ((inject_Z frameCount <= deltaSample dMs sr)%Q -> off = 1)
    /\ ((dMs == 0)%Q -> off = frameCount).
Proof.
  intros Hfc Hd Hs.
  pose proof (deltaSample_nonneg dMs sr Hd Hs) as H0.
  destruct (Qlt_le_dec (deltaSample dMs sr) (inject_Z frameCount)) as [Hlt | Hle].
  - destruct (sampleOffset_early frameCount dMs sr) as [E B]; [lia | exact H0 | exact Hlt |].
    exists (Int.Qtrunc (inject_Z frameCount - deltaSample dMs sr)).
    split; [exact E|]. split; [exact B|]. split.
    + intros Hle. exfalso. exact (Qlt_not_le _ _ Hlt Hle).
    + intros Hz. rewrite <- (Qtrunc_inject_Z frameCount) at 2.
      apply Qtrunc_comp. rewrite (deltaSample_zero dMs sr Hz). ring.
  - exists 1. split; [apply sampleOffset_late; assumption|].
    split; [lia|]. split; [reflexivity|].
    intros Hz. exfalso.
    rewrite (deltaSample_zero dMs sr Hz) in Hle.
    change 0%Q with (inject_Z 0) in Hle. rewrite <- Zle_Qle in Hle. lia.
Qed.

Lemma sampleOffset_range_witness :
  (1 <= 256 <= Int.int_max) /\ (0 <= 0)%Q /\ (0 <= 48000)%Q /\
  exists off,
    sampleOffset 256 0 48000 = Some off
    /\ 0 <= off <= 256
    /\ ((inject_Z 256 <= deltaSample 0 48000)%Q -> off = 1)
    /\ ((0 == 0)%Q -> off = 256).
Proof.
  assert (H1 : 1 <= 256 <= Int.int_max) by (unfold Int.int_max; lia).
  assert (H2 : (0 <= 0)%Q) by (unfold Qle; simpl; lia).
  assert (H3 : (0 <= 48000)%Q) by (unfold Qle; simpl; lia).
  split; [exact H1|]. split; [exact H2|]. split; [exact H3|].
  exact (sampleOffset_range 256 0 48000 H1 H2 H3).
Defined.

(** The scenario of the specification, run on the code: a NoteOn on channel
    1 (status 0x91, key 60, velocity 100) whose time stamp is the callback's
    current time, in a block of 256 frames, reaches the plugin host at
    sample offset 256, which is outside [0, 255]. *)
Lemma sampleOffset_not_clamped :
  sampleOffset 256 (deltaMs 10 10) 48000 = Some 256
  /\ process_midi 256 10 (running_engine 256 48000 [mkMidiMessage 10 [0x91; 60; 100]])
     = Done (emit (HostNoteOn 256 1 60 100) (running_engine 256 48000 []))
  /\ ~ (0 <= 256 <= 256 - 1).
Proof.
  split; [vm_compute; reflexivity|]. split; [vm_compute; reflexivity|]. lia.
Qed.

(** The same two time stamps on binary64 numbers. *)
Example sampleOffset_double_not_clamped :
  Double.sampleOffset 256 (Double.of_Z 10) (Double.of_Z 10) (Double.of_Z 48000)
  = Some 256
  /\ Double.sampleOffset 256 (Double.of_Z 16) (Double.of_Z 10) (Double.of_Z 48000)
     = Some 1.
Proof. split; vm_compute; reflexivity. Qed.

(** A message whose deltaSample (288) exceeds the block lands at offset 1,
    not at the end of the block. *)
Example sampleOffset_late_example :
  sampleOffset 256 (deltaMs 16 10) 48000 = Some 1.
Proof. vm_compute. reflexivity. Qed.

(** ** Frame lemmas: what each method leaves alone *)

Lemma free_fields (p : option buffer) (e : Engine) :
  _settings (free p e) = _settings e /\ _state (free p e) = _state e
  /\ _midiIn (free p e) = _midiIn e /\ _audio (free p e) = _audio e
  /\ _inputs (free p e) = _inputs e /\ _outputs (free p e) = _outputs e
  /\ _nframes (free p e) = _nframes e /\ _steadyTime (free p e) = _steadyTime e
  /\ _sampleRate (free p e) = _sampleRate e.
Proof. destruct p; repeat split; reflexivity. Qed.

Lemma freeBuffers_fields (e : Engine) :
  _settings (freeBuffers e) = _settings e /\ _state (freeBuffers e) = _state e
  /\ _midiIn (freeBuffers e) = _midiIn e /\ _audio (freeBuffers e) = _audio e
  /\ _inputs (freeBuffers e) = (None, None) /\ _outputs (freeBuffers e) = (None, None)
  /\ _nframes (freeBuffers e) = _nframes e /\ _steadyTime (freeBuffers e) = _steadyTime e
  /\ _sampleRate (freeBuffers e) = _sampleRate e.
Proof.
  destruct e as [sets st m a [[inL|] [inR|]] [[outL|] [outR|]] nf t sr lg];
    repeat split; reflexivity.
Qed.

Lemma freeBuffers_null_log (e : Engine) :
  _inputs e = (None, None) -> _outputs e = (None, None) ->
  freeBuffers e = e.
Proof.
  destruct e as [sets st m a i o nf t sr lg]. simpl. intros -> ->. reflexivity.
Qed.

Lemma stop_audio_fields (e : Engine) :
  _settings (stop_audio e) = _settings e /\ _state (stop_audio e) = _state e
  /\ _midiIn (stop_audio e) = _midiIn e /\ _audio (stop_audio e) = None
  /\ _inputs (stop_audio e) = _inputs e /\ _outputs (stop_audio e) = _outputs e
  /\ _nframes (stop_audio e) = _nframes e /\ _steadyTime (stop_audio e) = _steadyTime e
  /\ _sampleRate (stop_audio e) = _sampleRate e.
Proof.
  destruct e as [sets st m [[[] arun]|] i o nf t sr lg]; repeat split; reflexivity.
Qed.

Lemma stop_midi_fields (e : Engine) :
  _settings (stop_midi e) = _settings e /\ _state (stop_midi e) = _state e
  /\ _midiIn (stop_midi e) = None /\ _audio (stop_midi e) = _audio e
  /\ _inputs (stop_midi e) = _inputs e /\ _outputs (stop_midi e) = _outputs e
  /\ _nframes (stop_midi e) = _nframes e /\ _steadyTime (stop_midi e) = _steadyTime e
  /\ _sampleRate (stop_midi e) = _sampleRate e.
Proof.
  destruct e as [sets st [[[] mq]|] a i o nf t sr lg]; repeat split; reflexivity.
Qed.

Lemma stop_request_fields (e : Engine) :
  _settings (stop_request e) = _settings e
  /\ _state (stop_request e)
     = (if decide (_state e = kStateRunning) then kStateStopping else _state e)
  /\ _midiIn (stop_request e) = _midiIn e /\ _audio (stop_request e) = _audio e
  /\ _inputs (stop_request e) = _inputs e /\ _outputs (stop_request e) = _outputs e
  /\ _nframes (stop_request e) = _nframes e
  /\ _steadyTime (stop_request e) = _steadyTime e
  /\ _sampleRate (stop_request e) = _sampleRate e.
Proof.
  destruct e as [sets [] m a i o nf t sr lg]; repeat split; reflexivity.
Qed.

Lemma stop_release_fields (e : Engine) :
  _settings (stop_release e) = _settings e /\ _state (stop_release e) = kStateStopped
  /\ _midiIn (stop_release e) = None /\ _audio (stop_release e) = None
  /\ _inputs (stop_release e) = (None, None) /\ _outputs (stop_release e) = (None, None)
  /\ _nframes (stop_release e) = _nframes e
  /\ _steadyTime (stop_release e) = _steadyTime e
  /\ _sampleRate (stop_release e) = _sampleRate e.
Proof.
  unfold stop_release.
  pose proof (stop_audio_fields e) as (A1 & A2 & A3 & A4 & A5 & A6 & A7 & A8 & A9).
  pose proof (stop_midi_fields (stop_audio e)) as (M1 & M2 & M3 & M4 & M5 & M6 & M7 & M8 & M9).
  pose proof (freeBuffers_fields (stop_midi (stop_audio e)))
    as (F1 & F2 & F3 & F4 & F5 & F6 & F7 & F8 & F9).
  cbn [_settings _state _midiIn _audio _inputs _outputs _nframes _steadyTime
       _sampleRate set_state].
  repeat split; congruence.
Qed.

Lemma stop_fields (e : Engine) :
  _settings (stop e) = _settings e /\ _state (stop e) = kStateStopped
  /\ _midiIn (stop e) = None /\ _audio (stop e) = None
  /\ _inputs (stop e) = (None, None) /\ _outputs (stop e) = (None, None)
  /\ _nframes (stop e) = _nframes e /\ _steadyTime (stop e) = _steadyTime e
  /\ _sampleRate (stop e) = _sampleRate e.
Proof.
  unfold stop.
  pose proof (stop_request_fields e) as (A1 & A2 & A3 & A4 & A5 & A6 & A7 & A8 & A9).
  pose proof (stop_release_fields (stop_request e))
    as (M1 & M2 & M3 & M4 & M5 & M6 & M7 & M8 & M9).
  repeat split; congruence.
Qed.

(** ** C2: stop() on a stopped engine *)

Lemma stop_idle_stopped (e : Engine) : idle_stopped (stop e).
Proof.
  pose proof (stop_fields e) as (_ & S & M & A & I & O & _).
  unfold idle_stopped, buffers_null. auto.
Qed.

Lemma stop_of_idle (e : Engine) : idle_stopped e -> stop e = emit HostDeactivate e.
Proof.
  intros (Hs & Ha & Hm & Hi & Ho).
  destruct e as [sets st m a i o nf t sr lg].
  simpl in Hs, Ha, Hm, Hi, Ho. subst. reflexivity.
Qed.

(** C2, as amended: on a stopped engine at rest, [stop()] changes neither
    the state, nor the device handles, nor the buffer pointers, and frees
    nothing; its one observable effect is a redundant [deactivate()] on the
    plugin host.  Every engine is at rest after [stop()], so a second
    [stop()] only repeats that call. *)
Theorem stop_on_stopped (e : Engine) :
  idle_stopped e ->
  stop e = emit HostDeactivate e
  /\ idle_stopped (stop e)
  /\ stop (stop e) = emit HostDeactivate (stop e).
Proof.
  intros H. split; [exact (stop_of_idle e H)|].
  split; [apply stop_idle_stopped|].
  apply stop_of_idle, stop_idle_stopped.
Qed.

Lemma engine0_idle : idle_stopped engine0.
Proof. unfold idle_stopped, buffers_null. simpl. auto. Qed.

Lemma stop_on_stopped_witness :
  idle_stopped engine0
  /\ stop engine0 = emit HostDeactivate engine0
  /\ idle_stopped (stop engine0)
  /\ stop (stop engine0) = emit HostDeactivate (stop engine0).
Proof.
  assert (H : idle_stopped engine0).
  { unfold idle_stopped, buffers_null. simpl. auto. }
  split; [exact H|]. exact (stop_on_stopped engine0 H).
Defined.

(** [stop()] on a freshly constructed engine, which is stopped, calls
    [deactivate()] on the plugin host: the call is in the log afterwards
    and was not there before. *)
Lemma stop_on_stopped_calls_host :
  _state engine0 = kStateStopped
  /\ _log engine0 = []
  /\ _log (stop engine0) = [HostDeactivate]
  /\ is_host_call HostDeactivate = true
  /\ _log (stop engine0) <> _log engine0.
Proof.
  split; [reflexivity|]. split; [reflexivity|]. split; [reflexivity|].
  split; [reflexivity|]. vm_compute. discriminate.
Qed.

(** ** Observations kept by statements *)

Section Keeps.
Context {X : Type} (f : Engine -> X).

Lemma keeps_pure (g : Engine -> Engine) :
  (forall e, f (g e) = f e) -> keeps f (pure g).
Proof. intros H e. apply H. Qed.

Lemma keeps_seq (a b : stmt) : keeps f a -> keeps f b -> keeps f (a ;;; b).
Proof.
  intros Ha Hb e. unfold seq. specialize (Ha e).
  destruct (a e) as [e1|e1]; simpl in *.
  - rewrite Hb. exact Ha.
  - exact Ha.
Qed.

Lemma keeps_call (ev : Event) (r : result unit) :
  (forall e, f (emit ev e) = f e) -> keeps f (call ev r).
Proof. intros H e. unfold call. destruct r; simpl; apply H. Qed.

Lemma keeps_try_catch (body : stmt) (handler : Engine -> Engine) :
  keeps f body -> (forall e, f (handler e) = f e) ->
  forall e, f (try_catch body handler e) = f e.
Proof.
  intros Hb Hh e. unfold try_catch. specialize (Hb e).
  destruct (body e) as [e1|e1]; simpl in *.
  - exact Hb.
  - rewrite Hh. exact Hb.
Qed.
End Keeps.

Lemma live_blocks_app (l1 l2 : list Event) :
  live_blocks (l1 ++ l2) = live_blocks l1 + live_blocks l2.
Proof.
  unfold live_blocks. induction l1 as [|ev l1 IH]; simpl; [reflexivity|].
  rewrite IH. lia.
Qed.

Lemma live_blocks_emit (ev : Event) (e : Engine) :
  live_blocks (_log (emit ev e)) = live_blocks (_log e) + heap_delta ev.
Proof. simpl. rewrite live_blocks_app. simpl. lia. Qed.

Lemma requested_sizes_emit (ev : Event) (e : Engine) :
  requested_sizes (_log (emit ev e))
  = requested_sizes (_log e) ++ match requested_size ev with Some b => [b] | None => [] end.
Proof.
  unfold requested_sizes. simpl. rewrite omap_app. simpl.
  destruct (requested_size ev); reflexivity.
Qed.

Lemma kept_emit (ev : Event) (e : Engine) :
  requested_size ev = None -> heap_delta ev = 0 -> kept (emit ev e) = kept e.
Proof.
  intros Hr Hh. unfold kept, leaked.
  rewrite requested_sizes_emit, live_blocks_emit, Hr, Hh, app_nil_r, Z.add_0_r.
  reflexivity.
Qed.

Lemma leaked_freeBuffers (e : Engine) : leaked (freeBuffers e) = leaked e.
Proof.
  destruct e as [sets st m a [[inL|] [inR|]] [[outL|] [outR|]] nf t sr lg];
    unfold leaked, owned, freeBuffers; simpl;
    rewrite ?live_blocks_app; simpl; lia.
Qed.

Lemma requested_sizes_freeBuffers (e : Engine) :
  requested_sizes (_log (freeBuffers e)) = requested_sizes (_log e).
Proof.
  destruct e as [sets st m a [[inL|] [inR|]] [[outL|] [outR|]] nf t sr lg];
    unfold freeBuffers, requested_sizes; simpl;
    rewrite ?omap_app; simpl; rewrite ?app_nil_r; reflexivity.
Qed.

Lemma kept_freeBuffers (e : Engine) : kept (freeBuffers e) = kept e.
Proof.
  unfold kept, clock.
  pose proof (freeBuffers_fields e) as (F1 & _ & _ & _ & _ & _ & _ & F8 & F9).
  rewrite leaked_freeBuffers, requested_sizes_freeBuffers, F1, F8, F9.
  reflexivity.
Qed.

Lemma kept_allocateBuffers (bufferSize : Z) (e : Engine) :
  kept (allocateBuffers bufferSize e) = kept e.
Proof.
  rewrite <- (kept_freeBuffers e). unfold allocateBuffers.
  pose proof (freeBuffers_fields e) as (_ & _ & _ & _ & I & O & _).
  destruct (freeBuffers e) as [sets st m a i o nf t sr lg].
  simpl in I, O. subst i o.
  unfold kept, clock, leaked, owned, requested_sizes. simpl.
  rewrite !live_blocks_app, !omap_app. simpl. rewrite !app_nil_r.
  f_equal. lia.
Qed.

Lemma kept_audio_reset (e : Engine) : kept (audio_reset e) = kept e.
Proof.
  unfold audio_reset. destruct (_audio e); [|reflexivity].
  exact (kept_emit AudioDelete e eq_refl eq_refl).
Qed.

Lemma kept_midi_reset (e : Engine) : kept (midi_reset e) = kept e.
Proof.
  unfold midi_reset. destruct (_midiIn e); [|reflexivity].
  exact (kept_emit MidiDelete e eq_refl eq_refl).
Qed.

Lemma kept_stop_request (e : Engine) : kept (stop_request e) = kept e.
Proof.
  unfold stop_request. destruct (decide _);
    exact (kept_emit HostDeactivate e eq_refl eq_refl).
Qed.

Lemma kept_stop_audio (e : Engine) : kept (stop_audio e) = kept e.
Proof.
  unfold stop_audio. destruct (_audio e) as [[[] r]|] eqn:E; [| |reflexivity].
  - rewrite kept_audio_reset.
    change (kept (emit AudioCloseStream (emit AudioStopStream e)) = kept e).
    rewrite !kept_emit; reflexivity.
  - apply kept_audio_reset.
Qed.

Lemma kept_stop_midi (e : Engine) : kept (stop_midi e) = kept e.
Proof.
  unfold stop_midi. destruct (_midiIn e) as [[[] q]|] eqn:E; [| |reflexivity].
  - rewrite kept_midi_reset.
    change (kept (emit MidiClosePort e) = kept e).
    rewrite !kept_emit; reflexivity.
  - apply kept_midi_reset.
Qed.

Lemma kept_stop_release (e : Engine) : kept (stop_release e) = kept e.
Proof.
  unfold stop_release.
  change (kept (freeBuffers (stop_midi (stop_audio e))) = kept e).
  rewrite kept_freeBuffers, kept_stop_midi, kept_stop_audio. reflexivity.
Qed.

Lemma kept_stop (e : Engine) : kept (stop e) = kept e.
Proof. unfold stop. rewrite kept_stop_release. apply kept_stop_request. Qed.

Lemma keeps_make_unique_RtMidiIn (r : result unit) (api : string) :
  keeps kept (make_unique_RtMidiIn r api).
Proof.
  intros e. unfold make_unique_RtMidiIn.
  destruct r; exact (kept_emit (MidiNew api) e eq_refl eq_refl).
Qed.

Lemma keeps_midi_openPort (r : result unit) (index : Z) :
  keeps kept (midi_openPort r index).
Proof.
  intros e. unfold midi_openPort.
  destruct r, (_midiIn e); exact (kept_emit (MidiOpenPort index) e eq_refl eq_refl).
Qed.

Lemma keeps_if_midiIn {X} (f : Engine -> X) (body : stmt) :
  keeps f body -> keeps f (if_midiIn body).
Proof.
  intros H e. unfold if_midiIn. destruct (_midiIn e); [apply H | reflexivity].
Qed.

Lemma keeps_if_audio {X} (f : Engine -> X) (body : stmt) :
  keeps f body -> keeps f (if_audio body).
Proof.
  intros H e. unfold if_audio. destruct (_audio e); [apply H | reflexivity].
Qed.

Lemma keeps_start_midi_body (env : StartEnv) : keeps kept (start_midi_body env).
Proof.
  intros e. unfold start_midi_body.
  generalize (midi_deviceReference (_settings e)). intros d. revert e.
  apply keeps_seq; [apply keeps_pure, kept_midi_reset|].
  apply keeps_seq; [apply keeps_make_unique_RtMidiIn|].
  apply keeps_if_midiIn.
  apply keeps_seq; [apply keeps_midi_openPort|].
  apply keeps_pure. intros e. apply kept_emit; reflexivity.
Qed.

Lemma kept_start_midi (env : StartEnv) (e : Engine) : kept (start_midi env e) = kept e.
Proof.
  apply keeps_try_catch; [apply keeps_start_midi_body | apply kept_midi_reset].
Qed.

Lemma keeps_make_unique_RtAudio (r : result unit) (api : string) :
  keeps kept (make_unique_RtAudio r api).
Proof.
  intros e. unfold make_unique_RtAudio.
  destruct r; exact (kept_emit (AudioNew api) e eq_refl eq_refl).
Qed.

Lemma keeps_startStream (env : StartEnv) : keeps kept (startStream env).
Proof.
  intros e. unfold startStream.
  destruct (env_startStream env); exact (kept_emit AudioStartStream e eq_refl eq_refl).
Qed.

Lemma keeps_start_after_open (env : StartEnv) (sampleRate negotiated : Z) :
  keeps kept (start_after_open env sampleRate negotiated).
Proof.
  unfold start_after_open.
  apply keeps_seq; [apply keeps_pure; reflexivity|].
  apply keeps_seq; [apply keeps_pure; reflexivity|].
  apply keeps_seq; [apply keeps_call; intros e; apply kept_emit; reflexivity|].
  apply keeps_seq; [|apply keeps_startStream].
  intros e. apply (keeps_call kept). intros e'. apply kept_emit; reflexivity.
Qed.

Lemma start_audio_body_ok (env : StartEnv) (e : Engine) :
  env_audioNew env = Ok tt ->
  start_audio_body env e
  = openStream env (_index (audio_deviceReference (_settings e)))
      (audio_sampleRate (_settings e))
      (requestedBufferSize (audio_bufferSize (_settings e)))
      (start_after_open env (audio_sampleRate (_settings e)))
      (start_before_open e).
Proof.
  intros H. unfold start_audio_body, start_audio_steps, seq, pure, make_unique_RtAudio.
  rewrite H. reflexivity.
Qed.

Lemma start_audio_body_throw (env : StartEnv) (e : Engine) :
  env_audioNew env = Throw ->
  start_audio_body env e
  = Thrown (emit (AudioNew (_api (audio_deviceReference (_settings e))))
              (audio_reset (allocateBuffers (32 * 1024) e))).
Proof.
  intros H. unfold start_audio_body, start_audio_steps, seq, pure, make_unique_RtAudio.
  rewrite H. reflexivity.
Qed.

Lemma kept_parts (a b : Engine) :
  kept a = kept b ->
  clock a = clock b
  /\ requested_sizes (_log a) = requested_sizes (_log b)
  /\ leaked a = leaked b.
Proof.
  unfold kept. intros H.
  split; [exact (f_equal (fun x => fst (fst x)) H)|].
  split; [exact (f_equal (fun x => snd (fst x)) H) | exact (f_equal snd H)].
Qed.

Lemma clock_parts (a b : Engine) :
  clock a = clock b ->
  _settings a = _settings b /\ _steadyTime a = _steadyTime b
  /\ _sampleRate a = _sampleRate b.
Proof.
  unfold clock. intros H.
  split; [exact (f_equal (fun x => fst (fst x)) H)|].
  split; [exact (f_equal (fun x => snd (fst x)) H) | exact (f_equal snd H)].
Qed.

Lemma kept_set_audio (a : option RtAudio) (e : Engine) : kept (set_audio a e) = kept e.
Proof. reflexivity. Qed.

Lemma kept_emit_open (deviceId sampleRate bufferSize : Z) (e : Engine) :
  kept (emit (AudioOpenStream deviceId sampleRate bufferSize) e)
  = (clock e, requested_sizes (_log e) ++ [bufferSize], leaked e).
Proof.
  unfold kept, leaked. rewrite requested_sizes_emit, live_blocks_emit.
  cbn [requested_size heap_delta]. rewrite Z.add_0_r. reflexivity.
Qed.

Lemma kept_start_before_open (e : Engine) : kept (start_before_open e) = kept e.
Proof.
  unfold start_before_open. rewrite kept_set_audio.
  rewrite kept_emit by reflexivity.
  rewrite kept_audio_reset. apply kept_allocateBuffers.
Qed.

Lemma kept_try_end (handler : Engine -> Engine) (x : exc) :
  (forall e, kept (handler e) = kept e) ->
  kept (match x with Normal e' => e' | Thrown e' => handler e' end) = kept (after x).
Proof. intros H. destruct x; unfold after; [reflexivity | apply H]. Qed.

Lemma kept_openStream (env : StartEnv) (deviceId sampleRate bufferSize : Z)
    (k : Z -> stmt) (e : Engine) :
  (forall n, keeps kept (k n)) ->
  kept (after (openStream env deviceId sampleRate bufferSize k e))
  = (clock e, requested_sizes (_log e) ++ [bufferSize], leaked e).
Proof.
  intros Hk. unfold openStream.
  destruct (env_openStream env bufferSize) as [n|].
  - rewrite Hk, kept_set_audio. apply kept_emit_open.
  - unfold after. apply kept_emit_open.
Qed.

(** What [start()]'s audio section leaves alone and what it asks of the
    driver: one request, of [requestedBufferSize], once the RtAudio object
    exists. *)
Lemma kept_start_audio (env : StartEnv) (e : Engine) :
  kept (start_audio env e)
  = match env_audioNew env with
    | Ok _ => (clock e,
               requested_sizes (_log e)
                 ++ [requestedBufferSize (audio_bufferSize (_settings e))],
               leaked e)
    | Throw => kept e
    end.
Proof.
  unfold start_audio, try_catch. rewrite (kept_try_end stop _ kept_stop).
  destruct (env_audioNew env) as [[]|] eqn:E.
  - rewrite (start_audio_body_ok env e E).
    rewrite kept_openStream by (intros n; apply keeps_start_after_open).
    destruct (kept_parts _ _ (kept_start_before_open e)) as (Kc & Ks & Kl).
    rewrite Kc, Ks, Kl. reflexivity.
  - rewrite (start_audio_body_throw env e E). unfold after.
    rewrite kept_emit by reflexivity.
    rewrite kept_audio_reset. apply kept_allocateBuffers.
Qed.

(** ** C3: the buffer size requested from the driver *)

Lemma requestedBufferSize_min (r : Z) :
  0 <= r <= Int.int_max -> requestedBufferSize r = Z.min 32 r.
Proof.
  intros H. unfold requestedBufferSize, Int.to_int, Int.to_uint, Int.int_max in *.
  rewrite (Z.mod_small (r + 2 ^ 31)) by lia.
  replace (r + 2 ^ 31 - 2 ^ 31) with r by lia.
  apply Z.mod_small. lia.
Qed.

(** C3, as amended: once the RtAudio object exists, [start()] asks the
    driver for exactly one buffer size, [min(32, requested)] computed on
    [int] and converted to [unsigned int]: the smaller of the constant 32 and
    the requested size for every requested size in [0, INT_MAX], whatever the
    driver reports. *)
Theorem start_requests_min_32 (env : StartEnv) (e : Engine) :
  _state e = kStateStopped ->
  env_audioNew env = Ok tt ->
  0 <= audio_bufferSize (_settings e) <= Int.int_max ->
  exists e',
    start env e = Done e'
    /\ requested_sizes (_log e')
       = requested_sizes (_log e) ++ [Z.min 32 (audio_bufferSize (_settings e))].
Proof.
  intros Hs Ha Hr. unfold start. rewrite Hs.
  destruct (decide (kStateStopped = kStateStopped)) as [_|N]; [|congruence].
  eexists. split; [reflexivity|].
  pose proof (kept_start_audio env (start_midi env e)) as K.
  rewrite Ha in K.
  pose proof (f_equal (fun x => snd (fst x)) K) as Ks. cbv beta in Ks.
  unfold kept in Ks. cbn [fst snd] in Ks.
  destruct (kept_parts _ _ (kept_start_midi env e)) as (Mc & Ms & _).
  destruct (clock_parts _ _ Mc) as (Mset & _).
  rewrite Ks, Ms, Mset, requestedBufferSize_min by exact Hr. reflexivity.
Qed.

Lemma start_requests_min_32_witness :
  _state engine0 = kStateStopped
  /\ env_audioNew (env_ok 512) = Ok tt
  /\ 0 <= audio_bufferSize (_settings engine0) <= Int.int_max
  /\ exists e',
       start (env_ok 512) engine0 = Done e'
       /\ requested_sizes (_log e')
          = requested_sizes (_log engine0) ++ [Z.min 32 (audio_bufferSize (_settings engine0))].
Proof.
  assert (H3 : 0 <= audio_bufferSize (_settings engine0) <= Int.int_max).
  { unfold Int.int_max. simpl. lia. }
  split; [reflexivity|]. split; [reflexivity|]. split; [exact H3|].
  exact (start_requests_min_32 (env_ok 512) engine0 eq_refl eq_refl H3).
Defined.

(** With 256 frames requested in the settings and a driver that reports
    512, [start()] asks the driver for 32 frames, which is neither of the
    two, so not the smaller of them. *)
Lemma start_request_ignores_driver :
  audio_bufferSize (_settings engine0) = 256
  /\ env_openStream (env_ok 512) 32 = Ok 512
  /\ (exists e', start (env_ok 512) engine0 = Done e'
                 /\ requested_sizes (_log e') = [32] /\ _nframes e' = 512)
  /\ Z.min 512 256 <> 32.
Proof.
  split; [reflexivity|]. split; [reflexivity|]. split.
  - eexists. split; [reflexivity|]. split; vm_compute; reflexivity.
  - vm_compute. discriminate.
Qed.

(** ** The two sections of start() *)

Lemma core_midi_reset (e : Engine) : core (midi_reset e) = core e.
Proof. unfold midi_reset. destruct (_midiIn e); reflexivity. Qed.

Lemma keeps_core_start_midi_body (env : StartEnv) : keeps core (start_midi_body env).
Proof.
  intros e. unfold start_midi_body.
  generalize (midi_deviceReference (_settings e)). intros d. revert e.
  apply keeps_seq; [apply keeps_pure, core_midi_reset|].
  apply keeps_seq.
  { intros e. unfold make_unique_RtMidiIn. destruct (env_midiNew env); reflexivity. }
  apply keeps_if_midiIn.
  apply keeps_seq; [|apply keeps_pure; reflexivity].
  intros e. unfold midi_openPort.
  destruct (env_midiOpenPort env), (_midiIn e); reflexivity.
Qed.

Lemma core_start_midi (env : StartEnv) (e : Engine) : core (start_midi env e) = core e.
Proof.
  apply keeps_try_catch; [apply keeps_core_start_midi_body | apply core_midi_reset].
Qed.

Lemma midiIn_start_midi_throws (env : StartEnv) (e : Engine) :
  midi_throws env -> _midiIn (start_midi env e) = None.
Proof.
  unfold midi_throws, start_midi, try_catch, start_midi_body, start_midi_steps,
    seq, pure, make_unique_RtMidiIn, if_midiIn, midi_openPort, midi_reset.
  intros H. destruct e as [sets st [m|] a i o nf t sr lg];
    destruct (env_midiNew env) as [[]|], (env_midiOpenPort env) as [[]|];
    simpl; try reflexivity; destruct H as [H|H]; discriminate H.
Qed.

Lemma midiIn_start_midi_ok (env : StartEnv) (e : Engine) :
  env_midiNew env = Ok tt -> env_midiOpenPort env = Ok tt ->
  _midiIn (start_midi env e) = Some (mkRtMidiIn true []).
Proof.
  unfold start_midi, try_catch, start_midi_body, start_midi_steps,
    seq, pure, make_unique_RtMidiIn, if_midiIn, midi_openPort, midi_reset.
  intros -> ->. destruct e as [sets st [m|] a i o nf t sr lg]; reflexivity.
Qed.

Lemma allocateBuffers_fields (bufferSize : Z) (e : Engine) :
  _settings (allocateBuffers bufferSize e) = _settings e
  /\ _state (allocateBuffers bufferSize e) = _state e
  /\ _midiIn (allocateBuffers bufferSize e) = _midiIn e
  /\ _audio (allocateBuffers bufferSize e) = _audio e
  /\ _inputs (allocateBuffers bufferSize e)
     = (Some (calloc 1 bufferSize), Some (calloc 1 bufferSize))
  /\ _outputs (allocateBuffers bufferSize e)
     = (Some (calloc 1 bufferSize), Some (calloc 1 bufferSize))
  /\ _nframes (allocateBuffers bufferSize e) = _nframes e
  /\ _steadyTime (allocateBuffers bufferSize e) = _steadyTime e
  /\ _sampleRate (allocateBuffers bufferSize e) = _sampleRate e.
Proof.
  destruct e as [sets st m a [[inL|] [inR|]] [[outL|] [outR|]] nf t sr lg];
    repeat split; reflexivity.
Qed.

Lemma audio_reset_fields (e : Engine) :
  _settings (audio_reset e) = _settings e /\ _state (audio_reset e) = _state e
  /\ _midiIn (audio_reset e) = _midiIn e /\ _audio (audio_reset e) = None
  /\ _inputs (audio_reset e) = _inputs e /\ _outputs (audio_reset e) = _outputs e
  /\ _nframes (audio_reset e) = _nframes e
  /\ _steadyTime (audio_reset e) = _steadyTime e
  /\ _sampleRate (audio_reset e) = _sampleRate e.
Proof.
  destruct e as [sets st m [a|] i o nf t sr lg]; repeat split; reflexivity.
Qed.

Lemma emit_fields (ev : Event) (e : Engine) :
  _settings (emit ev e) = _settings e /\ _state (emit ev e) = _state e
  /\ _midiIn (emit ev e) = _midiIn e /\ _audio (emit ev e) = _audio e
  /\ _inputs (emit ev e) = _inputs e /\ _outputs (emit ev e) = _outputs e
  /\ _nframes (emit ev e) = _nframes e /\ _steadyTime (emit ev e) = _steadyTime e
  /\ _sampleRate (emit ev e) = _sampleRate e.
Proof. repeat split; reflexivity. Qed.

Lemma start_before_open_fields (e : Engine) :
  _settings (start_before_open e) = _settings e
  /\ _state (start_before_open e) = _state e
  /\ _midiIn (start_before_open e) = _midiIn e
  /\ _audio (start_before_open e) = Some (mkRtAudio false false)
  /\ _inputs (start_before_open e) = (Some block, Some block)
  /\ _outputs (start_before_open e) = (Some block, Some block)
  /\ _nframes (start_before_open e) = _nframes e
  /\ _steadyTime (start_before_open e) = _steadyTime e
  /\ _sampleRate (start_before_open e) = _sampleRate e.
Proof.
  unfold start_before_open. fold block.
  pose proof (allocateBuffers_fields (32 * 1024) e)
    as (A1 & A2 & A3 & A4 & A5 & A6 & A7 & A8 & A9).
  fold block in A5, A6. revert A1 A2 A3 A4 A5 A6 A7 A8 A9.
  generalize (allocateBuffers (32 * 1024) e). intros y A1 A2 A3 A4 A5 A6 A7 A8 A9.
  pose proof (audio_reset_fields y) as (R1 & R2 & R3 & R4 & R5 & R6 & R7 & R8 & R9).
  revert R1 R2 R3 R4 R5 R6 R7 R8 R9.
  generalize (audio_reset y). intros x R1 R2 R3 R4 R5 R6 R7 R8 R9.
  generalize (AudioNew (_api (audio_deviceReference (_settings e)))). intros ev.
  cbn [_settings _state _midiIn _audio _inputs _outputs _nframes _steadyTime
       _sampleRate set_audio emit].
  rewrite R1, R2, R3, R5, R6, R7, R8, R9, A1, A2, A3, A5, A6, A7, A8, A9.
  repeat split; reflexivity.
Qed.

Lemma start_audio_ok (env : StartEnv) (e : Engine) (negotiated : Z) :
  audio_ok env (requestedBufferSize (audio_bufferSize (_settings e))) negotiated ->
  start_audio env e = started env negotiated e.
Proof.
  intros (Ha & Ho & Hp & Hc & Hs).
  unfold start_audio, try_catch. rewrite (start_audio_body_ok env e Ha).
  unfold openStream. rewrite Ho. unfold started. cbv zeta.
  generalize (start_before_open e). intros x.
  unfold start_after_open, seq, pure, call, startStream. rewrite Hp, Hc, Hs.
  reflexivity.
Qed.

Lemma started_fields (env : StartEnv) (negotiated : Z) (e : Engine) :
  _settings (started env negotiated e) = _settings e
  /\ _state (started env negotiated e) = kStateRunning
  /\ _midiIn (started env negotiated e) = _midiIn e
  /\ _audio (started env negotiated e) = Some (mkRtAudio true true)
  /\ _inputs (started env negotiated e) = (Some block, Some block)
  /\ _outputs (started env negotiated e) = (Some block, Some block)
  /\ _nframes (started env negotiated e) = Int.to_uint negotiated
  /\ _steadyTime (started env negotiated e) = _steadyTime e
  /\ _sampleRate (started env negotiated e) = _sampleRate e.
Proof.
  pose proof (start_before_open_fields e)
    as (A1 & A2 & A3 & A4 & A5 & A6 & A7 & A8 & A9).
  unfold started. cbv zeta.
  revert A1 A2 A3 A4 A5 A6 A7 A8 A9.
  generalize (start_before_open e). intros x A1 A2 A3 A4 A5 A6 A7 A8 A9.
  cbn [_settings _state _midiIn _audio _inputs _outputs _nframes _steadyTime
       _sampleRate set_audio set_state set_nframes emit].
  repeat split; assumption.
Qed.

(** A throw anywhere in the audio section ends in the handler: [stop()]. *)
Lemma start_audio_throws (env : StartEnv) (e : Engine) :
  audio_throws env (requestedBufferSize (audio_bufferSize (_settings e))) ->
  exists e1, start_audio env e = stop e1.
Proof.
  intros H. unfold start_audio, try_catch.
  destruct (env_audioNew env) as [[]|] eqn:Ha.
  2:{ rewrite (start_audio_body_throw env e Ha). eexists. reflexivity. }
  rewrite (start_audio_body_ok env e Ha). unfold openStream.
  generalize (start_before_open e). intros x.
  destruct (env_openStream env _) as [n|] eqn:Ho.
  2:{ eexists. reflexivity. }
  unfold start_after_open, seq, pure, call, startStream.
  destruct (env_setPorts env) as [[]|] eqn:Hp.
  2:{ eexists. reflexivity. }
  destruct (env_activate env) as [[]|] eqn:Hc.
  2:{ eexists. reflexivity. }
  destruct (env_startStream env) as [[]|] eqn:Hs.
  2:{ eexists. reflexivity. }
  exfalso. unfold audio_throws in H. destruct H as [H|[H|[H|[H|H]]]]; congruence.
Qed.

Lemma start_stopped (env : StartEnv) (e : Engine) :
  _state e = kStateStopped ->
  start env e = Done (start_audio env (start_midi env e)).
Proof.
  intros H. unfold start. destruct (decide (_state e = kStateStopped)); congruence.
Qed.

Lemma settings_start_midi (env : StartEnv) (e : Engine) :
  _settings (start_midi env e) = _settings e.
Proof.
  exact (f_equal (fun x => fst (fst (fst (fst (fst (fst (fst x)))))))
                 (core_start_midi env e)).
Qed.

Lemma clock_leaked_start_audio (env : StartEnv) (e : Engine) :
  clock (start_audio env e) = clock e /\ leaked (start_audio env e) = leaked e.
Proof.
  pose proof (kept_start_audio env e) as K.
  destruct (env_audioNew env).
  - split; [exact (f_equal (fun x => fst (fst x)) K) | exact (f_equal snd K)].
  - destruct (kept_parts _ _ K) as (Kc & _ & Kl). split; assumption.
Qed.

Lemma clock_leaked_start (env : StartEnv) (e : Engine) :
  clock (start_audio env (start_midi env e)) = clock e
  /\ leaked (start_audio env (start_midi env e)) = leaked e.
Proof.
  destruct (clock_leaked_start_audio env (start_midi env e)) as [C L].
  destruct (kept_parts _ _ (kept_start_midi env e)) as (Mc & _ & Ml).
  split; congruence.
Qed.

Lemma idle_owned (e : Engine) : idle_stopped e -> owned e = 0.
Proof.
  intros (_ & _ & _ & I & O). unfold owned. rewrite I, O. reflexivity.
Qed.

(** ** C4: a throw in the audio section of start() *)

(** C4, as amended: if a call of the audio section of [start()] throws
    (the RtAudio constructor, [openStream], [setPorts], [activate] or
    [startStream]), [start()] ends in [stop()]: the state is Stopped, both
    device handles are released, the four buffer pointers are null and every
    block the engine owned or allocated has been freed; settings, sample
    counter and sample rate are as before the call.  A throw in the MIDI
    section is caught there and does not unwind. *)
Theorem start_audio_failure_unwinds (env : StartEnv) (e : Engine) :
  _state e = kStateStopped ->
  audio_throws env (requestedBufferSize (audio_bufferSize (_settings e))) ->
  exists e' e1,
    start env e = Done e'
    /\ e' = stop e1
    /\ idle_stopped e'
    /\ live_blocks (_log e') = live_blocks (_log e) - owned e
    /\ clock e' = clock e.
Proof.
  intros Hs Ht. rewrite (start_stopped env e Hs).
  rewrite <- (settings_start_midi env e) in Ht.
  destruct (start_audio_throws env (start_midi env e) Ht) as [e1 E].
  exists (start_audio env (start_midi env e)), e1.
  split; [reflexivity|]. split; [exact E|].
  assert (I : idle_stopped (start_audio env (start_midi env e))).
  { rewrite E. apply stop_idle_stopped. }
  split; [exact I|].
  destruct (clock_leaked_start env e) as [C L].
  split; [|exact C].
  unfold leaked in L. rewrite (idle_owned _ I) in L. lia.
Qed.

Lemma start_audio_failure_unwinds_witness :
  _state engine0 = kStateStopped
  /\ audio_throws env_open_throws
       (requestedBufferSize (audio_bufferSize (_settings engine0)))
  /\ exists e' e1,
       start env_open_throws engine0 = Done e'
       /\ e' = stop e1
       /\ idle_stopped e'
       /\ live_blocks (_log e') = live_blocks (_log engine0) - owned engine0
       /\ clock e' = clock engine0.
Proof.
  assert (H : audio_throws env_open_throws
                (requestedBufferSize (audio_bufferSize (_settings engine0)))).
  { right. left. reflexivity. }
  split; [reflexivity|]. split; [exact H|].
  exact (start_audio_failure_unwinds env_open_throws engine0 eq_refl H).
Defined.

(** A step of [start()] throws ([openPort]) and [start()] does not unwind:
    [stop()] is not called (no [deactivate] in the log), the engine is
    Running and owns its four blocks. *)
Lemma start_midi_throw_does_not_unwind :
  env_midiOpenPort env_midi_port_throws = Throw
  /\ exists e',
       start env_midi_port_throws engine0 = Done e'
       /\ _state e' = kStateRunning
       /\ _inputs e' = (Some block, Some block)
       /\ _outputs e' = (Some block, Some block)
       /\ _log e' = [MidiNew "alsa"; MidiOpenPort 0; MidiDelete;
                     Calloc 32768; Calloc 32768; Calloc 32768; Calloc 32768;
                     AudioNew "alsa"; AudioOpenStream 0 48000 32;
                     HostSetPorts 2 2; HostActivate 48000 64; AudioStartStream].
Proof.
  split; [reflexivity|]. eexists. split; [reflexivity|].
  repeat split; vm_compute; reflexivity.
Qed.

(** ** C9: a failure of the MIDI device during start() *)

(** C9: when a call of the MIDI section throws (the RtMidiIn constructor,
    which resolves the API, or [openPort]), the exception is caught, the
    MIDI handle is reset to null, nothing else of the engine changes, and
    [start()] goes on with the audio section; with a working audio device
    the engine ends Running without MIDI input. *)
Theorem midi_failure_not_fatal (env : StartEnv) (e : Engine) :
  _state e = kStateStopped ->
  midi_throws env ->
  exists em,
    start env e = Done (start_audio env em)
    /\ _midiIn em = None
    /\ core em = core e
    /\ forall negotiated,
         audio_ok env (requestedBufferSize (audio_bufferSize (_settings e))) negotiated ->
         _state (start_audio env em) = kStateRunning
         /\ _midiIn (start_audio env em) = None
         /\ _audio (start_audio env em) = Some (mkRtAudio true true)
         /\ _inputs (start_audio env em) = (Some block, Some block)
         /\ _outputs (start_audio env em) = (Some block, Some block)
         /\ _nframes (start_audio env em) = Int.to_uint negotiated.
Proof.
  intros Hs Hm. exists (start_midi env e).
  split; [exact (start_stopped env e Hs)|].
  split; [exact (midiIn_start_midi_throws env e Hm)|].
  split; [exact (core_start_midi env e)|].
  intros n Hok. rewrite <- (settings_start_midi env e) in Hok.
  rewrite (start_audio_ok env _ n Hok).
  pose proof (started_fields env n (start_midi env e))
    as (_ & S & M & A & I & O & N & _).
  rewrite (midiIn_start_midi_throws env e Hm) in M.
  repeat split; assumption.
Qed.

Lemma midi_failure_not_fatal_witness :
  _state engine0 = kStateStopped
  /\ midi_throws env_midi_port_throws
  /\ exists em,
       start env_midi_port_throws engine0 = Done (start_audio env_midi_port_throws em)
       /\ _midiIn em = None
       /\ core em = core engine0
       /\ forall negotiated,
            audio_ok env_midi_port_throws
              (requestedBufferSize (audio_bufferSize (_settings engine0))) negotiated ->
            _state (start_audio env_midi_port_throws em) = kStateRunning
            /\ _midiIn (start_audio env_midi_port_throws em) = None
            /\ _audio (start_audio env_midi_port_throws em) = Some (mkRtAudio true true)
            /\ _inputs (start_audio env_midi_port_throws em) = (Some block, Some block)
            /\ _outputs (start_audio env_midi_port_throws em) = (Some block, Some block)
            /\ _nframes (start_audio env_midi_port_throws em) = Int.to_uint negotiated.
Proof.
  assert (H : midi_throws env_midi_port_throws) by (right; reflexivity).
  split; [reflexivity|]. split; [exact H|].
  exact (midi_failure_not_fatal env_midi_port_throws engine0 eq_refl H).
Defined.

(** ** The callback, step by step *)

Lemma core_emit (ev : Event) (e : Engine) : core (emit ev e) = core e.
Proof. reflexivity. Qed.

Lemma core_set_midiIn (m : option RtMidiIn) (e : Engine) : core (set_midiIn m e) = core e.
Proof. reflexivity. Qed.

Lemma translate_core (frameCount : Z) (currentTime msgTime : Q) (midiBuf : list Z)
    (e e' : Engine) :
  translate frameCount currentTime msgTime midiBuf e = Done e' -> core e' = core e.
Proof.
  unfold translate.
  destruct (buf_read midiBuf 0) as [status|]; [|discriminate].
  destruct (buf_read midiBuf 1) as [data1|]; [|discriminate].
  destruct (buf_read midiBuf 2) as [data2|]; [|discriminate].
  cbn [obind].
  destruct (sampleOffset _ _ _) as [off|]; [|discriminate].
  repeat case_decide; intros [= <-]; reflexivity.
Qed.

Lemma midi_drain_core (frameCount : Z) (currentTime : Q) (q : list MidiMessage) :
  forall (e : Engine) (r : list MidiMessage * Engine),
    midi_drain frameCount currentTime q e = Done r -> core (snd r) = core e.
Proof.
  induction q as [|m q IH]; intros e r H; simpl in H.
  - injection H as <-. reflexivity.
  - destruct (msg_bytes m) as [|b bs] eqn:Eb.
    + injection H as <-. reflexivity.
    + destruct (translate frameCount currentTime (msg_time m) (b :: bs) e)
        as [e1|] eqn:Et; [|discriminate].
      cbn [obind] in H. rewrite (IH e1 r H). exact (translate_core _ _ _ _ _ _ Et).
Qed.

Lemma process_midi_core (frameCount : Z) (currentTime : Q) (e e' : Engine) :
  process_midi frameCount currentTime e = Done e' -> core e' = core e.
Proof.
  unfold process_midi. destruct (_midiIn e) as [[[] q]|].
  - cbn [midi_portOpen midi_queue].
    destruct (midi_drain frameCount currentTime q e) as [r|] eqn:Ed; [|discriminate].
    cbn [obind]. intros [= <-]. rewrite core_set_midiIn.
    exact (midi_drain_core _ _ _ _ _ Ed).
  - intros [= <-]. reflexivity.
  - intros [= <-]. reflexivity.
Qed.

Lemma core_parts (a b : Engine) :
  core a = core b ->
  _settings a = _settings b /\ _state a = _state b /\ _audio a = _audio b
  /\ _inputs a = _inputs b /\ _outputs a = _outputs b /\ _nframes a = _nframes b
  /\ _steadyTime a = _steadyTime b /\ _sampleRate a = _sampleRate b.
Proof.
  unfold core. intros H.
  split; [exact (f_equal (fun x => fst (fst (fst (fst (fst (fst (fst x))))))) H)|].
  split; [exact (f_equal (fun x => snd (fst (fst (fst (fst (fst (fst x))))))) H)|].
  split; [exact (f_equal (fun x => snd (fst (fst (fst (fst (fst x)))))) H)|].
  split; [exact (f_equal (fun x => snd (fst (fst (fst (fst x))))) H)|].
  split; [exact (f_equal (fun x => snd (fst (fst (fst x)))) H)|].
  split; [exact (f_equal (fun x => snd (fst (fst x))) H)|].
  split; [exact (f_equal (fun x => snd (fst x)) H) | exact (f_equal snd H)].
Qed.

Lemma callback_return_out (thiz thiz' : Engine) (out out' : buffer) (code : Z) :
  callback_return thiz out = Done (thiz', out', code) -> out' = out.
Proof.
  unfold callback_return. destruct (_state thiz); intros H; congruence.
Qed.

Lemma audioCallback_inv (plugin : dsp) (outputBuffer : buffer)
    (inputBuffer : option buffer) (frameCount : Z) (currentTime : Q)
    (thiz thiz' : Engine) (out : buffer) (code : Z) :
  audioCallback plugin outputBuffer inputBuffer frameCount currentTime thiz
    = Done (thiz', out, code) ->
  callback_trace plugin outputBuffer inputBuffer frameCount currentTime
                 thiz thiz' out code.
Proof.
  unfold audioCallback.
  destruct (_inputs thiz) as [[inL|] [inR|]] eqn:Ei; try discriminate.
  destruct (_outputs thiz) as [[outL|] [outR|]] eqn:Eo; try discriminate.
  unfold cassert. destruct (frameCount =? _nframes thiz) eqn:En; [|discriminate].
  apply Z.eqb_eq in En. unfold callback_body.
  destruct (copy_input inputBuffer (Z.to_nat frameCount) (inL, inR)) as [ins|] eqn:Ec;
    [|discriminate].
  cbn [obind]. cbv zeta.
  destruct (process_midi _ _ _) as [em|] eqn:Em; [|discriminate].
  cbn [obind].
  destruct (copy_output _ _ _ _) as [out1|] eqn:Eout; [|discriminate].
  cbn [obind]. intros H.
  pose proof (callback_return_out _ _ _ _ _ H) as ->.
  destruct (core_parts _ _ (process_midi_core _ _ _ _ Em)) as (_&_&_&_&_&_&T&_).
  cbn [_steadyTime emit set_inputs] in T.
  econstructor; try eassumption.
  rewrite <- T. exact H.
Qed.

(** ** C5: the return code of the callback *)

Lemma callback_return_state (thiz thiz' : Engine) (out out' : buffer) (code : Z) :
  callback_return thiz out = Done (thiz', out', code) ->
  (_state thiz = kStateRunning /\ code = 0 /\ thiz' = thiz)
  \/ (_state thiz = kStateStopping /\ code = 1 /\ thiz' = set_state kStateStopped thiz).
Proof.
  unfold callback_return. destruct (_state thiz); intros H; [discriminate| |].
  - left. injection H as <- _ <-. auto.
  - right. injection H as <- _ <-. auto.
Qed.

Lemma plugin_process_state (plugin : dsp) (inL inR outL outR : buffer) (e : Engine) :
  _state (plugin_process plugin inL inR outL outR e) = _state e.
Proof. reflexivity. Qed.

Lemma audioCallback_state (plugin : dsp) (outputBuffer : buffer)
    (inputBuffer : option buffer) (frameCount : Z) (currentTime : Q)
    (thiz thiz' : Engine) (out : buffer) (code : Z) :
  audioCallback plugin outputBuffer inputBuffer frameCount currentTime thiz
    = Done (thiz', out, code) ->
  (_state thiz = kStateRunning /\ code = 0 /\ _state thiz' = kStateRunning)
  \/ (_state thiz = kStateStopping /\ code = 1 /\ _state thiz' = kStateStopped).
Proof.
  intros H. destruct (audioCallback_inv _ _ _ _ _ _ _ _ _ H)
    as [inL inR outL outR ins em Hi Ho Hn Hc Hm Hout Hr].
  destruct (core_parts _ _ (process_midi_core _ _ _ _ Hm)) as (_ & S & _).
  cbn [_state emit set_inputs] in S.
  destruct (callback_return_state _ _ _ _ _ Hr) as [(A & B & C)|(A & B & C)];
    cbn [_state set_steadyTime] in A; rewrite plugin_process_state, S in A.
  - left. subst thiz'. cbn [_state set_steadyTime].
    rewrite plugin_process_state, S. auto.
  - right. subst thiz'. auto.
Qed.

Lemma audioCallback_stopped_faults (a : CallbackArgs) (e : Engine) :
  _state e = kStateStopped -> exists f, invoke a e = Fault f.
Proof.
  intros Hs. unfold invoke.
  destruct (audioCallback _ _ _ _ _ e) as [[[e' out] code]|f] eqn:E.
  - destruct (audioCallback_state _ _ _ _ _ _ _ _ _ E) as [(A & _)|(A & _)]; congruence.
  - exists f. reflexivity.
Qed.

Lemma callbacks_stopped (l : list CallbackArgs) (e : Engine) :
  _state e = kStateStopped -> callbacks l e = [].
Proof.
  intros Hs. destruct l as [|a l]; [reflexivity|]. simpl.
  destruct (audioCallback_stopped_faults a e Hs) as [f ->]. reflexivity.
Qed.

Lemma callbacks_stopping (l : list CallbackArgs) (e : Engine) :
  _state e = kStateStopping -> callbacks l e = [] \/ callbacks l e = [1].
Proof.
  intros Hs. destruct l as [|a l]; [left; reflexivity|]. simpl.
  destruct (invoke a e) as [[[e' out] code]|f] eqn:E; [|left; reflexivity].
  right. unfold invoke in E.
  destruct (audioCallback_state _ _ _ _ _ _ _ _ _ E) as [(A & _)|(_ & B & C)];
    [congruence|].
  cbn [fst snd]. rewrite (callbacks_stopped l e' C). subst code. reflexivity.
Qed.

Lemma stop_request_running (e : Engine) :
  _state e = kStateRunning ->
  _state (stop_request e) = kStateStopping /\ _audio (stop_request e) = _audio e.
Proof.
  intros Hs. destruct (stop_request_fields e) as (_ & S & _ & A & _).
  rewrite S, Hs. split; [reflexivity | exact A].
Qed.

(** [start()] right after [stop()], on devices that work: the engine is
    Running and the stream runs. *)
Lemma start_after_stop (env : StartEnv) (e : Engine) (negotiated : Z) :
  audio_ok env (requestedBufferSize (audio_bufferSize (_settings e))) negotiated ->
  start env (stop e) = Done (started env negotiated (start_midi env (stop e)))
  /\ _state (started env negotiated (start_midi env (stop e))) = kStateRunning
  /\ _audio (started env negotiated (start_midi env (stop e)))
     = Some (mkRtAudio true true).
Proof.
  intros Hok.
  destruct (stop_fields e) as (Sset & Sst & _).
  rewrite (start_stopped env (stop e) Sst).
  assert (Hok' : audio_ok env
            (requestedBufferSize (audio_bufferSize (_settings (start_midi env (stop e)))))
            negotiated).
  { rewrite (settings_start_midi env (stop e)), Sset. exact Hok. }
  rewrite (start_audio_ok env _ negotiated Hok').
  destruct (started_fields env negotiated (start_midi env (stop e)))
    as (_ & S & _ & A & _).
  split; [reflexivity|]. split; [exact S | exact A].
Qed.

(** C5, as amended: the return code of a callback that returns is decided
    by the state alone: Running gives 0 ("continue") and leaves the state,
    Stopping gives 1 ("stop stream") and sets Stopped, and in state Stopped
    the callback ends in a failed assert.  [stop()] on a Running engine sets
    Stopping and leaves the stream running until it stops and closes it: a
    callback that ends in that window returns the stop signal, at most once.
    When none does the signal is never returned: [stop()] releases the
    RtAudio object, so that no callback is delivered, and forces Stopped
    itself; after the next [start()] the stream runs again and every callback
    that returns gives 0. *)
Theorem callback_signal (e : Engine) :
  _state e = kStateRunning ->
  (forall a x x' out code,
     invoke a x = Done (x', out, code) ->
     (_state x = kStateRunning /\ code = 0 /\ _state x' = kStateRunning)
     \/ (_state x = kStateStopping /\ code = 1 /\ _state x' = kStateStopped))
  /\ (forall a x, _state x = kStateStopped -> exists f, invoke a x = Fault f)
  /\ _state (stop_request e) = kStateStopping
  /\ _audio (stop_request e) = _audio e
  /\ (forall l, callbacks l (stop_request e) = [] \/ callbacks l (stop_request e) = [1])
  /\ _state (stop e) = kStateStopped
  /\ _audio (stop e) = None
  /\ (forall env negotiated,
        audio_ok env (requestedBufferSize (audio_bufferSize (_settings e))) negotiated ->
        exists e2,
          start env (stop e) = Done e2
          /\ _state e2 = kStateRunning
          /\ stream_running e2
          /\ forall a x' out code, invoke a e2 = Done (x', out, code) -> code = 0).
Proof.
  intros Hs.
  destruct (stop_request_running e Hs) as [Hq Ha].
  destruct (stop_fields e) as (_ & Hp & _ & Hn & _).
  split. { intros a x x' out code H. exact (audioCallback_state _ _ _ _ _ _ _ _ _ H). }
  split. { intros a x H. exact (audioCallback_stopped_faults a x H). }
  split; [exact Hq|]. split; [exact Ha|].
  split. { intros l. exact (callbacks_stopping l _ Hq). }
  split; [exact Hp|]. split; [exact Hn|].
  intros env negotiated Hok.
  destruct (start_after_stop env e negotiated Hok) as (E & S & A).
  revert E S A. generalize (started env negotiated (start_midi env (stop e))).
  intros e2 E S A.
  exists e2. split; [exact E|]. split; [exact S|].
  split. { exists (mkRtAudio true true). split; [exact A | reflexivity]. }
  intros a x' out code H.
  destruct (audioCallback_state _ _ _ _ _ _ _ _ _ H) as [(_ & C & _)|(B & _)];
    [exact C|].
  rewrite S in B. discriminate B.
Qed.

Lemma engine_running_started :
  start (env_ok 4) engine0 = Done engine_running
  /\ _state engine_running = kStateRunning.
Proof. split; [reflexivity | vm_compute; reflexivity]. Qed.

Lemma callback_signal_witness :
  _state engine_running = kStateRunning
  /\ (callbacks [args0; args0] (stop_request engine_running) = []
      \/ callbacks [args0; args0] (stop_request engine_running) = [1])
  /\ _audio (stop engine_running) = None
  /\ exists e2,
       start (env_ok 4) (stop engine_running) = Done e2
       /\ _state e2 = kStateRunning
       /\ stream_running e2
       /\ forall a x' out code, invoke a e2 = Done (x', out, code) -> code = 0.
Proof.
  assert (H : _state engine_running = kStateRunning) by (vm_compute; reflexivity).
  assert (Hok : audio_ok (env_ok 4)
                  (requestedBufferSize (audio_bufferSize (_settings engine_running))) 4).
  { unfold audio_ok. repeat split; vm_compute; reflexivity. }
  destruct (callback_signal engine_running H) as (_ & _ & _ & _ & A & _ & B & C).
  split; [exact H|]. split; [exact (A [args0; args0])|]. split; [exact B|].
  exact (C (env_ok 4) 4 Hok).
Defined.

(** [stop()] is called on a Running engine whose callbacks were returning 0,
    and no callback ends while it runs: it stops and closes the stream
    itself and releases the RtAudio object, so the driver has no stream to
    call the callback on.  The engine is started again: the next callbacks
    return 0.  The stop signal has not been returned once. *)
Lemma stop_then_start_continues :
  start (env_ok 4) engine0 = Done engine_running
  /\ _state engine_running = kStateRunning
  /\ _audio engine_running = Some (mkRtAudio true true)
  /\ callbacks [args0; args0] engine_running = [0; 0]
  /\ _state (stop engine_running) = kStateStopped
  /\ _audio (stop engine_running) = None
  /\ start (env_ok 4) (stop engine_running) = Done engine_started_again
  /\ _state engine_started_again = kStateRunning
  /\ _audio engine_started_again = Some (mkRtAudio true true)
  /\ callbacks [args0; args0] engine_started_again = [0; 0].
Proof.
  split; [reflexivity|]. repeat split; vm_compute; reflexivity.
Qed.

(** Inside the window the first callback is the one that returns the stop
    signal. *)
Example callback_in_window :
  callbacks [args0; args0] (stop_request engine_running) = [1].
Proof. vm_compute. reflexivity. Qed.

(** ** C6: the sample counter *)

Lemma steadyTime_of_clock (a b : Engine) : clock a = clock b -> _steadyTime a = _steadyTime b.
Proof. intros H. destruct (clock_parts _ _ H) as (_ & T & _). exact T. Qed.

Lemma audioCallback_steadyTime (plugin : dsp) (outputBuffer : buffer)
    (inputBuffer : option buffer) (frameCount : Z) (currentTime : Q)
    (thiz thiz' : Engine) (out : buffer) (code : Z) :
  audioCallback plugin outputBuffer inputBuffer frameCount currentTime thiz
    = Done (thiz', out, code) ->
  _steadyTime thiz' = _steadyTime thiz + frameCount.
Proof.
  intros H. destruct (audioCallback_inv _ _ _ _ _ _ _ _ _ H)
    as [inL inR outL outR ins em Hi Ho Hn Hc Hm Hout Hr].
  destruct (callback_return_state _ _ _ _ _ Hr) as [(_ & _ & ->)|(_ & _ & ->)];
    reflexivity.
Qed.

Lemma unloadPlugin_fields (e : Engine) :
  _settings (unloadPlugin e) = _settings e /\ _state (unloadPlugin e) = _state e
  /\ _midiIn (unloadPlugin e) = _midiIn e /\ _audio (unloadPlugin e) = _audio e
  /\ _inputs (unloadPlugin e) = (None, None) /\ _outputs (unloadPlugin e) = (None, None)
  /\ _nframes (unloadPlugin e) = _nframes e
  /\ _steadyTime (unloadPlugin e) = _steadyTime e
  /\ _sampleRate (unloadPlugin e) = _sampleRate e.
Proof.
  destruct e as [sets st m a [[inL|] [inR|]] [[outL|] [outR|]] nf t sr lg];
    repeat split; reflexivity.
Qed.

Lemma core_midi_arrive (m : MidiMessage) (e : Engine) : core (midi_arrive m e) = core e.
Proof. unfold midi_arrive. destruct (_midiIn e) as [[[] q]|]; reflexivity. Qed.

Lemma core_loadPlugin (path : string) (plugin_index : Z) (loaded : bool) (e : Engine) :
  core (fst (loadPlugin path plugin_index loaded e)) = core e.
Proof. destruct loaded; reflexivity. Qed.

Lemma step_steadyTime (op : Op) (e e' : Engine) :
  step op e = Done e' -> _steadyTime e' = _steadyTime e + op_frames op.
Proof.
  destruct op as [env| |plugin out inb fc t|m|path idx loaded| |]; simpl; intros H.
  - unfold start in H. destruct (decide _); [|discriminate].
    injection H as <-. rewrite Z.add_0_r.
    apply steadyTime_of_clock. apply (clock_leaked_start env e).
  - injection H as <-. rewrite Z.add_0_r.
    destruct (stop_fields e) as (_&_&_&_&_&_&_&T&_). exact T.
  - destruct (audioCallback plugin out inb fc t e) as [[[e1 out1] code]|] eqn:E;
      [|discriminate].
    cbn [obind fst] in H. injection H as <-.
    exact (audioCallback_steadyTime _ _ _ _ _ _ _ _ _ E).
  - injection H as <-. rewrite Z.add_0_r.
    destruct (core_parts _ _ (core_midi_arrive m e)) as (_&_&_&_&_&_&T&_). exact T.
  - injection H as <-. rewrite Z.add_0_r.
    destruct (core_parts _ _ (core_loadPlugin path idx loaded e)) as (_&_&_&_&_&_&T&_).
    exact T.
  - injection H as <-. rewrite Z.add_0_r.
    destruct (unloadPlugin_fields e) as (_&_&_&_&_&_&_&T&_). exact T.
  - injection H as <-. rewrite Z.add_0_r. reflexivity.
Qed.

Lemma run_steadyTime (ops : list Op) :
  forall e e', run ops e = Done e' -> _steadyTime e' = _steadyTime e + total_frames ops.
Proof.
  induction ops as [|op ops IH]; intros e e' H; simpl in H |- *.
  - injection H as <-. lia.
  - destruct (step op e) as [e1|] eqn:E; [|discriminate].
    cbn [obind] in H. rewrite (IH _ _ H), (step_steadyTime _ _ _ E). lia.
Qed.

Lemma run_app (ops1 ops2 : list Op) (e : Engine) :
  run (ops1 ++ ops2) e = obind (run ops1 e) (run ops2).
Proof.
  revert e. induction ops1 as [|op ops1 IH]; intros e; simpl; [reflexivity|].
  destruct (step op e) as [e1|]; [apply IH | reflexivity].
Qed.

Lemma total_frames_uniform (F : Z) (ops : list Op) :
  frames_all F ops -> total_frames ops = Z.of_nat (callback_count ops) * F.
Proof.
  induction ops as [|op ops IH]; intros H; [reflexivity|].
  cbn [total_frames callback_count].
  rewrite IH by (intros o Ho; apply H; right; exact Ho).
  pose proof (H op (or_introl eq_refl)) as Hop.
  destruct op; cbn [is_callback op_frames] in *;
    try specialize (Hop eq_refl); rewrite Nat2Z.inj_add; lia.
Qed.

(** C6: every callback that returns adds exactly its frameCount to
    [_steadyTime] and nothing else writes it: not [start()], not [stop()],
    not any other method.  So after a run from construction in which N
    callbacks of F frames returned, it is N * F, whatever start/stop cycles
    lie between them, and along the run it never decreases. *)
Theorem steadyTime_accumulates (settings : Settings) (sampleRate nframes : Z)
    (ops : list Op) (F : Z) (e : Engine) :
  run ops (Engine_new settings sampleRate nframes) = Done e ->
  frames_all F ops ->
  0 <= F ->
  _steadyTime e = Z.of_nat (callback_count ops) * F
  /\ (forall op x x', step op x = Done x' -> _steadyTime x' = _steadyTime x + op_frames op)
  /\ (forall ops1 ops2 e1,
        ops = ops1 ++ ops2 ->
        run ops1 (Engine_new settings sampleRate nframes) = Done e1 ->
        _steadyTime e1 = Z.of_nat (callback_count ops1) * F
        /\ _steadyTime e1 <= _steadyTime e).
Proof.
  intros Hrun Hall HF.
  split.
  { rewrite (run_steadyTime _ _ _ Hrun), (total_frames_uniform F ops Hall).
    reflexivity. }
  split; [exact step_steadyTime|].
  intros ops1 ops2 e1 -> H1.
  assert (A1 : frames_all F ops1).
  { intros o Ho. apply Hall. apply in_or_app. left. exact Ho. }
  assert (A2 : frames_all F ops2).
  { intros o Ho. apply Hall. apply in_or_app. right. exact Ho. }
  rewrite run_app, H1 in Hrun. cbn [obind] in Hrun.
  rewrite (run_steadyTime _ _ _ Hrun), (run_steadyTime _ _ _ H1).
  rewrite (total_frames_uniform F ops1 A1), (total_frames_uniform F ops2 A2).
  split; [reflexivity|]. cbn [_steadyTime Engine_new]. nia.
Qed.

Lemma steadyTime_accumulates_witness :
  run cycles (Engine_new settings0 48000 0) = Done after_cycles
  /\ frames_all 4 cycles
  /\ 0 <= 4
  /\ _steadyTime after_cycles = Z.of_nat (callback_count cycles) * 4.
Proof.
  assert (H1 : run cycles (Engine_new settings0 48000 0) = Done after_cycles).
  { vm_compute. reflexivity. }
  assert (H2 : frames_all 4 cycles).
  { intros op Hin Hcb. unfold cycles in Hin. simpl in Hin.
    repeat (destruct Hin as [<-|Hin]; [solve [reflexivity | discriminate Hcb]|]).
    destruct Hin. }
  assert (H3 : 0 <= 4) by lia.
  split; [exact H1|]. split; [exact H2|]. split; [exact H3|].
  exact (proj1 (steadyTime_accumulates settings0 48000 0 cycles 4 after_cycles H1 H2 H3)).
Defined.

Example steadyTime_after_cycles : _steadyTime after_cycles = 12.
Proof. vm_compute. reflexivity. Qed.

(** ** The copy loops *)

Lemma buf_read_Done (l : list Z) (i : nat) (x : Z) :
  buf_read l i = Done x <-> l !! i = Some x.
Proof.
  unfold buf_read. destruct (l !! i); split; intros H; congruence.
Qed.

Lemma buf_write_Done (l l' : list Z) (i : nat) (x : Z) :
  buf_write l i x = Done l' <-> (i < length l)%nat /\ l' = <[i:=x]> l.
Proof.
  unfold buf_write. destruct (decide (i < length l)%nat); split.
  - intros [= <-]. auto.
  - intros [_ ->]. reflexivity.
  - discriminate.
  - intros [H _]. contradiction.
Qed.

(** Loop invariants: partial correctness. *)
Lemma for_loop_inv {St : Type} (body : nat -> St -> outcome St) (P : nat -> St -> Prop) :
  forall (count i : nat) (s s' : St),
    (forall j a b, (i <= j < i + count)%nat -> P j a -> body j a = Done b -> P (S j) b) ->
    P i s ->
    for_loop body i count s = Done s' ->
    P (i + count)%nat s'.
Proof.
  induction count as [|count IH]; intros i s s' Hstep Hi H; simpl in H.
  - injection H as <-. rewrite Nat.add_0_r. exact Hi.
  - destruct (body i s) as [s1|] eqn:E; [|discriminate].
    cbn [obind] in H. replace (i + S count)%nat with (S i + count)%nat by lia.
    apply (IH (S i) s1 s'); [|apply (Hstep i s s1); [lia | exact Hi | exact E] | exact H].
    intros j a b Hj. apply Hstep. lia.
Qed.


Lemma copy_input_body_Done (inb : buffer) (i : nat) (lr lr' : buffer * buffer) :
  copy_input_body inb i lr = Done lr' <->
  exists x y,
    inb !! (2 * i)%nat = Some x /\ inb !! (2 * i + 1)%nat = Some y
    /\ (i < length (fst lr))%nat /\ (i < length (snd lr))%nat
    /\ lr' = (<[i:=x]> (fst lr), <[i:=y]> (snd lr)).
Proof.
  unfold copy_input_body. split.
  - destruct (buf_read inb (2 * i)) as [x|] eqn:Ex; [|discriminate]. cbn [obind].
    destruct (buf_write (fst lr) i x) as [l|] eqn:El; [|discriminate]. cbn [obind].
    destruct (buf_read inb (2 * i + 1)) as [y|] eqn:Ey; [|discriminate]. cbn [obind].
    destruct (buf_write (snd lr) i y) as [r|] eqn:Er; [|discriminate]. cbn [obind].
    intros [= <-]. apply buf_read_Done in Ex, Ey.
    apply buf_write_Done in El, Er. destruct El as [Hl ->], Er as [Hr ->].
    exists x, y. auto.
  - intros (x & y & Ex & Ey & Hl & Hr & ->).
    apply buf_read_Done in Ex, Ey. rewrite Ex. cbn [obind].
    rewrite (proj2 (buf_write_Done (fst lr) _ i x) (conj Hl eq_refl)). cbn [obind].
    rewrite Ey. cbn [obind].
    rewrite (proj2 (buf_write_Done (snd lr) _ i y) (conj Hr eq_refl)). reflexivity.
Qed.

Lemma deinterleaved_step (inb L R : buffer) (j : nat) (lr lr' : buffer * buffer) :
  deinterleaved inb L R j lr ->
  copy_input_body inb j lr = Done lr' ->
  deinterleaved inb L R (S j) lr'.
Proof.
  intros (HL & HR & Hlo & Hhi) H.
  apply copy_input_body_Done in H. destruct H as (x & y & Ex & Ey & Hl & Hr & ->).
  unfold deinterleaved. cbn [fst snd]. rewrite !length_insert.
  split; [exact HL|]. split; [exact HR|]. split.
  - intros k Hk. destruct (decide (k = j)) as [->|Hne].
    + rewrite !list_lookup_insert_eq by assumption. rewrite Ex, Ey. auto.
    + rewrite !list_lookup_insert_ne by congruence. apply Hlo. lia.
  - intros k Hk. rewrite !list_lookup_insert_ne by lia. apply Hhi. lia.
Qed.

Lemma deinterleaved_start (inb L R : buffer) : deinterleaved inb L R 0 (L, R).
Proof.
  unfold deinterleaved. cbn [fst snd]. repeat split; try reflexivity; lia.
Qed.

Lemma copy_input_spec (inb L R : buffer) (n : nat) (lr : buffer * buffer) :
  copy_input (Some inb) n (L, R) = Done lr -> deinterleaved inb L R n lr.
Proof.
  unfold copy_input. intros H.
  apply (for_loop_inv (copy_input_body inb) (deinterleaved inb L R) n 0%nat (L, R) lr);
    [|apply deinterleaved_start|exact H].
  intros j a b _ Ha Hb. exact (deinterleaved_step _ _ _ _ _ _ Ha Hb).
Qed.


Lemma copy_output_body_Done (l r : buffer) (i : nat) (out out' : buffer) :
  copy_output_body l r i out = Done out' <->
  exists x y,
    l !! i = Some x /\ r !! i = Some y /\ (2 * i + 1 < length out)%nat
    /\ out' = <[(2 * i + 1)%nat:=y]> (<[(2 * i)%nat:=x]> out).
Proof.
  unfold copy_output_body. split.
  - destruct (buf_read l i) as [x|] eqn:Ex; [|discriminate]. cbn [obind].
    destruct (buf_write out (2 * i) x) as [o1|] eqn:E1; [|discriminate]. cbn [obind].
    destruct (buf_read r i) as [y|] eqn:Ey; [|discriminate]. cbn [obind].
    intros E2. apply buf_read_Done in Ex, Ey.
    apply buf_write_Done in E1, E2. destruct E1 as [H1 ->], E2 as [H2 ->].
    rewrite length_insert in H2. exists x, y. auto.
  - intros (x & y & Ex & Ey & Hlen & ->).
    apply buf_read_Done in Ex, Ey. rewrite Ex. cbn [obind].
    assert (H0 : (2 * i < length out)%nat) by lia.
    rewrite (proj2 (buf_write_Done out _ (2 * i) x) (conj H0 eq_refl)).
    cbn [obind]. rewrite Ey. cbn [obind].
    apply buf_write_Done. rewrite length_insert. auto.
Qed.

Lemma interleaved_step (l r out : buffer) (j : nat) (a b : buffer) :
  interleaved l r out j a ->
  copy_output_body l r j a = Done b ->
  interleaved l r out (S j) b.
Proof.
  intros (Hlen & Hlo & Hhi) H.
  apply copy_output_body_Done in H. destruct H as (x & y & Ex & Ey & Hb & ->).
  unfold interleaved. rewrite !length_insert.
  split; [exact Hlen|]. split.
  - intros k Hk. destruct (decide (k = j)) as [->|Hne].
    + split.
      * rewrite list_lookup_insert_ne by lia.
        rewrite list_lookup_insert_eq by lia. congruence.
      * rewrite list_lookup_insert_eq by (rewrite length_insert; lia). congruence.
    + rewrite !list_lookup_insert_ne by lia. apply Hlo. lia.
  - intros m Hm. rewrite !list_lookup_insert_ne by lia. apply Hhi. lia.
Qed.

Lemma interleaved_start (l r out : buffer) : interleaved l r out 0 out.
Proof. unfold interleaved. repeat split; try reflexivity; lia. Qed.

Lemma copy_output_spec (l r out out' : buffer) (n : nat) :
  copy_output l r n out = Done out' -> interleaved l r out n out'.
Proof.
  unfold copy_output. intros H.
  apply (for_loop_inv (copy_output_body l r) (interleaved l r out) n 0%nat out out');
    [|apply interleaved_start|exact H].
  intros j a b _ Ha Hb. exact (interleaved_step _ _ _ _ _ _ Ha Hb).
Qed.


Lemma length_write_block (new old : buffer) : length (write_block new old) = length old.
Proof.
  unfold write_block. rewrite length_app, length_take, length_drop. lia.
Qed.

(** ** C8: what a callback copies *)

Lemma process_midi_idle (frameCount : Z) (currentTime : Q) (e : Engine) :
  midi_pending e = [] -> exists e', process_midi frameCount currentTime e = Done e'.
Proof.
  unfold midi_pending, process_midi. destruct (_midiIn e) as [[[] q]|]; simpl.
  - intros ->. simpl. eexists. reflexivity.
  - intros _. eexists. reflexivity.
  - intros _. eexists. reflexivity.
Qed.

Lemma audioCallback_copied (plugin : dsp) (out : buffer) (inb : option buffer)
    (frameCount : Z) (currentTime : Q) (e e' : Engine) (out' : buffer) (code : Z) :
  audioCallback plugin out inb frameCount currentTime e = Done (e', out', code) ->
  exists inL inR outL outR inL' inR',
    _inputs e = (Some inL, Some inR)
    /\ _outputs e = (Some outL, Some outR)
    /\ _inputs e' = (Some inL', Some inR')
    /\ _outputs e'
       = (Some (write_block (fst (plugin inL' inR' outL outR)) outL),
          Some (write_block (snd (plugin inL' inR' outL outR)) outR))
    /\ copied inb (Z.to_nat frameCount) inL inR inL' inR'
         (write_block (fst (plugin inL' inR' outL outR)) outL)
         (write_block (snd (plugin inL' inR' outL outR)) outR) out out'.
Proof.
  intros H. destruct (audioCallback_inv _ _ _ _ _ _ _ _ _ H)
    as [inL inR outL outR [inL' inR'] em Hi Ho Hn Hc Hm Hout Hr].
  cbn [fst snd] in *.
  exists inL, inR, outL, outR, inL', inR'.
  destruct (core_parts _ _ (process_midi_core _ _ _ _ Hm)) as (_&_&_& I &_).
  cbn [_inputs emit set_inputs] in I.
  split; [exact Hi|]. split; [exact Ho|].
  assert (Hfields : _inputs e' = (Some inL', Some inR')
     /\ _outputs e'
        = (Some (write_block (fst (plugin inL' inR' outL outR)) outL),
           Some (write_block (snd (plugin inL' inR' outL outR)) outR))).
  { destruct (callback_return_state _ _ _ _ _ Hr) as [(_ & _ & ->)|(_ & _ & ->)];
      cbn [_inputs _outputs set_state set_steadyTime plugin_process set_outputs emit];
      rewrite I; split; reflexivity. }
  destruct Hfields as [F1 F2]. split; [exact F1|]. split; [exact F2|].
  destruct (copy_output_spec _ _ _ _ _ Hout) as (Q1 & Q2 & Q3).
  unfold copied. destruct inb as [b|].
  - destruct (copy_input_spec _ _ _ _ _ Hc) as (P1 & P2 & P3 & P4).
    cbn [fst snd] in *. repeat split; try assumption; try apply P3; try apply P4;
      try apply Q2; assumption.
  - simpl in Hc. injection Hc as <- <-. repeat split; try assumption; apply Q2; assumption.
Qed.

Lemma translate_total (frameCount : Z) (currentTime msgTime : Q) (midiBuf : list Z)
    (e : Engine) :
  (3 <= length midiBuf)%nat ->
  is_Some (sampleOffset frameCount (deltaMs currentTime msgTime) (inject_Z (_sampleRate e))) ->
  exists e', translate frameCount currentTime msgTime midiBuf e = Done e'.
Proof.
  intros Hlen [off Hoff]. unfold translate.
  destruct midiBuf as [|b0 [|b1 [|b2 rest]]]; simpl in Hlen; try lia.
  cbn [buf_read lookup list_lookup obind]. rewrite Hoff.
  repeat case_decide; eexists; reflexivity.
Qed.





Lemma length_block : Z.of_nat (length block) = 8192.
Proof. vm_compute. reflexivity. Qed.


(** Four frames through a pass-through plugin: the interleaved input comes
    back as the interleaved output. *)
Example callback_roundtrip :
  returned_buffer
    (audioCallback plugin_thru (replicate 8 0) (Some [1; 2; 3; 4; 5; 6; 7; 8]) 4 0
                   engine_running)
  = Some [1; 2; 3; 4; 5; 6; 7; 8].
Proof. vm_compute. reflexivity. Qed.

(** ** C7: the sample buffers while the engine is not stopped *)

Lemma audio_dichotomy (env : StartEnv) (bufferSize : Z) :
  audio_throws env bufferSize \/ exists negotiated, audio_ok env bufferSize negotiated.
Proof.
  unfold audio_throws, audio_ok.
  destruct (env_audioNew env) as [[]|]; [|auto].
  destruct (env_openStream env bufferSize) as [n|]; [|auto].
  destruct (env_setPorts env) as [[]|]; [|auto].
  destruct (env_activate env) as [[]|]; [|auto 6].
  destruct (env_startStream env) as [[]|]; [|auto 6].
  right. exists n. auto.
Qed.

Lemma has_blocks_of_fields (e : Engine) :
  _inputs e = (Some block, Some block) -> _outputs e = (Some block, Some block) ->
  has_blocks e.
Proof.
  intros I O. exists block, block, block, block.
  pose proof length_block. auto 10.
Qed.

Lemma has_blocks_start_before_open (e : Engine) : has_blocks (start_before_open e).
Proof.
  destruct (start_before_open_fields e) as (_&_&_&_& I & O &_).
  exact (has_blocks_of_fields _ I O).
Qed.

Lemma start_audio_buffers_inv (env : StartEnv) (e : Engine) :
  buffers_inv (start_audio env e).
Proof.
  destruct (audio_dichotomy env (requestedBufferSize (audio_bufferSize (_settings e))))
    as [Ht|[n Hok]].
  - destruct (start_audio_throws env e Ht) as [e1 ->]. intros H.
    destruct (stop_fields e1) as (_ & S & _). congruence.
  - rewrite (start_audio_ok env e n Hok). intros _.
    destruct (started_fields env n e) as (_&_&_&_& I & O &_).
    exact (has_blocks_of_fields _ I O).
Qed.

Lemma has_blocks_core (a b : Engine) : core a = core b -> has_blocks b -> has_blocks a.
Proof.
  intros H (inL & inR & outL & outR & I & O & L).
  destruct (core_parts _ _ H) as (_&_&_& I' & O' &_).
  exists inL, inR, outL, outR. rewrite I', O'. auto.
Qed.

Lemma buffers_inv_core (a b : Engine) : core a = core b -> buffers_inv b -> buffers_inv a.
Proof.
  intros H Hb Hs. destruct (core_parts _ _ H) as (_& S &_).
  apply (has_blocks_core a b H). apply Hb. congruence.
Qed.

Lemma audioCallback_buffers_inv (plugin : dsp) (out : buffer) (inb : option buffer)
    (frameCount : Z) (currentTime : Q) (e e' : Engine) (out' : buffer) (code : Z) :
  buffers_inv e ->
  audioCallback plugin out inb frameCount currentTime e = Done (e', out', code) ->
  has_blocks e'.
Proof.
  intros Hinv H.
  assert (Hs : _state e <> kStateStopped).
  { destruct (audioCallback_state _ _ _ _ _ _ _ _ _ H) as [(A&_)|(A&_)]; congruence. }
  destruct (Hinv Hs) as (inL & inR & outL & outR & I & O & L1 & L2 & L3 & L4).
  destruct (audioCallback_copied _ _ _ _ _ _ _ _ _ H)
    as (inL0 & inR0 & outL0 & outR0 & inL' & inR' & Hi & Ho & F1 & F2 & C).
  rewrite I in Hi. rewrite O in Ho. injection Hi as <- <-. injection Ho as <- <-.
  destruct C as (_ & _ & _ & _ & C1 & C2).
  eexists _, _, _, _. split; [exact F1|]. split; [exact F2|].
  rewrite !length_write_block, C1, C2. auto.
Qed.

Lemma owned_core (a b : Engine) : core a = core b -> owned a = owned b.
Proof.
  intros H. destruct (core_parts _ _ H) as (_&_&_& I & O &_).
  unfold owned. rewrite I, O. reflexivity.
Qed.

Lemma step_buffers_inv (op : Op) (e e' : Engine) :
  is_unload op = false -> buffers_inv e -> step op e = Done e' -> buffers_inv e'.
Proof.
  destruct op as [env| |plugin out inb fc t|m|path idx loaded| |]; simpl;
    intros Hu Hinv H; try discriminate Hu.
  - unfold start in H. destruct (decide _); [|discriminate].
    injection H as <-. apply start_audio_buffers_inv.
  - injection H as <-. intros Hs. destruct (stop_fields e) as (_ & S & _). congruence.
  - destruct (audioCallback plugin out inb fc t e) as [[[e1 out1] code]|] eqn:E;
      [|discriminate].
    cbn [obind fst] in H. injection H as <-. intros _.
    exact (audioCallback_buffers_inv _ _ _ _ _ _ _ _ _ Hinv E).
  - injection H as <-. exact (buffers_inv_core _ _ (core_midi_arrive m e) Hinv).
  - injection H as <-.
    exact (buffers_inv_core _ _ (core_loadPlugin path idx loaded e) Hinv).
  - injection H as <-. exact (buffers_inv_core _ _ (core_emit HostIdle e) Hinv).
Qed.

Lemma run_buffers_inv (ops : list Op) :
  forall e e',
    (forall op, In op ops -> is_unload op = false) ->
    buffers_inv e -> run ops e = Done e' -> buffers_inv e'.
Proof.
  induction ops as [|op ops IH]; intros e e' Hu Hinv H; simpl in H.
  - injection H as <-. exact Hinv.
  - destruct (step op e) as [e1|] eqn:E; [|discriminate]. cbn [obind] in H.
    apply (IH e1 e'); [intros o Ho; apply Hu; right; exact Ho | | exact H].
    apply (step_buffers_inv op e e1); [apply Hu; left; reflexivity | exact Hinv | exact E].
Qed.

Lemma step_owned (op : Op) (e e' : Engine) :
  frees op = false -> step op e = Done e' -> owned e' = owned e.
Proof.
  destruct op as [env| |plugin out inb fc t|m|path idx loaded| |]; simpl;
    intros Hf H; try discriminate Hf.
  - destruct (audioCallback plugin out inb fc t e) as [[[e1 out1] code]|] eqn:E;
      [|discriminate].
    cbn [obind fst] in H. injection H as <-.
    destruct (audioCallback_copied _ _ _ _ _ _ _ _ _ E)
      as (inL0 & inR0 & outL0 & outR0 & inL' & inR' & Hi & Ho & F1 & F2 & C).
    unfold owned. rewrite Hi, Ho, F1, F2. reflexivity.
  - injection H as <-. exact (owned_core _ _ (core_midi_arrive m e)).
  - injection H as <-. exact (owned_core _ _ (core_loadPlugin path idx loaded e)).
  - injection H as <-. reflexivity.
Qed.

(** *** Allocation that can fail *)

Lemma allocateBuffers_from_all (alloc : nat -> bool) (bufferSize : Z) (e : Engine) :
  all_blocks alloc -> allocateBuffers_from alloc bufferSize e = allocateBuffers bufferSize e.
Proof.
  intros (A0 & A1 & A2 & A3). unfold allocateBuffers_from, allocateBuffers.
  rewrite A0, A1, A2, A3. reflexivity.
Qed.

Lemma seq_pure (f : Engine -> Engine) (b : stmt) (e : Engine) :
  (pure f ;;; b) e = b (f e).
Proof. reflexivity. Qed.

Lemma start_audio_from_all (alloc : nat -> bool) (env : StartEnv) (e : Engine) :
  all_blocks alloc -> start_audio_from alloc env e = start_audio env e.
Proof.
  intros H.
  unfold start_audio_from, start_audio, try_catch, start_audio_body_from,
    start_audio_body, start_audio_steps_from, start_audio_steps.
  cbv zeta. rewrite !seq_pure, (allocateBuffers_from_all alloc _ e H). reflexivity.
Qed.

Lemma start_from_all (alloc : nat -> bool) (env : StartEnv) (e : Engine) :
  all_blocks alloc -> start_from alloc env e = start env e.
Proof.
  intros H. unfold start_from, start.
  rewrite (start_audio_from_all alloc env _ H). reflexivity.
Qed.

Lemma run_from_all (ops : list HeapOp) :
  forall e,
    (forall op, In op ops -> allocated op) ->
    run_from ops e = run (List.map forget ops) e.
Proof.
  induction ops as [|op ops IH]; intros e H; [reflexivity|].
  cbn [run_from run List.map].
  assert (E : step_from op e = step (forget op) e).
  { destruct op as [alloc env|op]; [|reflexivity].
    apply start_from_all. exact (H _ (or_introl eq_refl)). }
  rewrite E. destruct (step (forget op) e) as [e1|]; [|reflexivity].
  cbn [obind]. apply IH. intros o Ho. apply H. right. exact Ho.
Qed.

Lemma allocateBuffers_from_fields (alloc : nat -> bool) (bufferSize : Z) (e : Engine) :
  _settings (allocateBuffers_from alloc bufferSize e) = _settings e
  /\ _state (allocateBuffers_from alloc bufferSize e) = _state e
  /\ _midiIn (allocateBuffers_from alloc bufferSize e) = _midiIn e
  /\ _audio (allocateBuffers_from alloc bufferSize e) = _audio e
  /\ _inputs (allocateBuffers_from alloc bufferSize e) = stored_inputs alloc bufferSize
  /\ _outputs (allocateBuffers_from alloc bufferSize e) = stored_outputs alloc bufferSize
  /\ _nframes (allocateBuffers_from alloc bufferSize e) = _nframes e
  /\ _steadyTime (allocateBuffers_from alloc bufferSize e) = _steadyTime e
  /\ _sampleRate (allocateBuffers_from alloc bufferSize e) = _sampleRate e.
Proof.
  unfold allocateBuffers_from, stored_inputs, stored_outputs.
  destruct (freeBuffers_fields e) as (F1 & F2 & F3 & F4 & F5 & F6 & F7 & F8 & F9).
  revert F1 F2 F3 F4 F5 F6 F7 F8 F9.
  generalize (freeBuffers e). intros y.
  destruct y as [sets st m a i o nf t sr lg].
  cbn [_settings _state _midiIn _audio _inputs _outputs _nframes _steadyTime _sampleRate].
  intros <- <- <- <- -> -> <- <- <-.
  destruct (alloc 0%nat), (alloc 1%nat), (alloc 2%nat), (alloc 3%nat);
    repeat split; reflexivity.
Qed.

Lemma stored_all (alloc : nat -> bool) :
  all_blocks alloc ->
  stored_inputs alloc (32 * 1024) = (Some block, Some block)
  /\ stored_outputs alloc (32 * 1024) = (Some block, Some block).
Proof.
  intros (A0 & A1 & A2 & A3). unfold stored_inputs, stored_outputs.
  rewrite A0, A1, A2, A3. split; reflexivity.
Qed.

Lemma start_audio_body_from_ok (alloc : nat -> bool) (env : StartEnv) (e : Engine) :
  env_audioNew env = Ok tt ->
  start_audio_body_from alloc env e
  = openStream env (_index (audio_deviceReference (_settings e)))
      (audio_sampleRate (_settings e))
      (requestedBufferSize (audio_bufferSize (_settings e)))
      (start_after_open env (audio_sampleRate (_settings e)))
      (start_before_open_from alloc e).
Proof.
  intros H.
  unfold start_audio_body_from, start_audio_steps_from, seq, pure, make_unique_RtAudio.
  rewrite H. reflexivity.
Qed.

Lemma start_audio_body_from_throw (alloc : nat -> bool) (env : StartEnv) (e : Engine) :
  env_audioNew env = Throw ->
  start_audio_body_from alloc env e
  = Thrown (emit (AudioNew (_api (audio_deviceReference (_settings e))))
              (audio_reset (allocateBuffers_from alloc (32 * 1024) e))).
Proof.
  intros H.
  unfold start_audio_body_from, start_audio_steps_from, seq, pure, make_unique_RtAudio.
  rewrite H. reflexivity.
Qed.

Lemma start_before_open_from_fields (alloc : nat -> bool) (e : Engine) :
  _settings (start_before_open_from alloc e) = _settings e
  /\ _state (start_before_open_from alloc e) = _state e
  /\ _midiIn (start_before_open_from alloc e) = _midiIn e
  /\ _audio (start_before_open_from alloc e) = Some (mkRtAudio false false)
  /\ _inputs (start_before_open_from alloc e) = stored_inputs alloc (32 * 1024)
  /\ _outputs (start_before_open_from alloc e) = stored_outputs alloc (32 * 1024)
  /\ _nframes (start_before_open_from alloc e) = _nframes e
  /\ _steadyTime (start_before_open_from alloc e) = _steadyTime e
  /\ _sampleRate (start_before_open_from alloc e) = _sampleRate e.
Proof.
  unfold start_before_open_from.
  pose proof (allocateBuffers_from_fields alloc (32 * 1024) e)
    as (A1 & A2 & A3 & A4 & A5 & A6 & A7 & A8 & A9).
  revert A1 A2 A3 A4 A5 A6 A7 A8 A9.
  generalize (stored_inputs alloc (32 * 1024)) (stored_outputs alloc (32 * 1024)).
  generalize (allocateBuffers_from alloc (32 * 1024) e).
  intros y si so A1 A2 A3 A4 A5 A6 A7 A8 A9.
  pose proof (audio_reset_fields y) as (R1 & R2 & R3 & R4 & R5 & R6 & R7 & R8 & R9).
  revert R1 R2 R3 R4 R5 R6 R7 R8 R9.
  generalize (audio_reset y). intros x R1 R2 R3 R4 R5 R6 R7 R8 R9.
  generalize (AudioNew (_api (audio_deviceReference (_settings e)))). intros ev.
  cbn [_settings _state _midiIn _audio _inputs _outputs _nframes _steadyTime
       _sampleRate set_audio emit].
  rewrite R1, R2, R3, R5, R6, R7, R8, R9, A1, A2, A3, A5, A6, A7, A8, A9.
  repeat split; reflexivity.
Qed.

Lemma start_audio_from_ok (alloc : nat -> bool) (env : StartEnv) (e : Engine)
    (negotiated : Z) :
  audio_ok env (requestedBufferSize (audio_bufferSize (_settings e))) negotiated ->
  start_audio_from alloc env e = started_from alloc env negotiated e.
Proof.
  intros (Ha & Ho & Hp & Hc & Hs).
  unfold start_audio_from, try_catch. rewrite (start_audio_body_from_ok alloc env e Ha).
  unfold openStream. rewrite Ho. unfold started_from. cbv zeta.
  generalize (start_before_open_from alloc e). intros x.
  unfold start_after_open, seq, pure, call, startStream. rewrite Hp, Hc, Hs.
  reflexivity.
Qed.

Lemma started_from_fields (alloc : nat -> bool) (env : StartEnv) (negotiated : Z)
    (e : Engine) :
  _settings (started_from alloc env negotiated e) = _settings e
  /\ _state (started_from alloc env negotiated e) = kStateRunning
  /\ _midiIn (started_from alloc env negotiated e) = _midiIn e
  /\ _audio (started_from alloc env negotiated e) = Some (mkRtAudio true true)
  /\ _inputs (started_from alloc env negotiated e) = stored_inputs alloc (32 * 1024)
  /\ _outputs (started_from alloc env negotiated e) = stored_outputs alloc (32 * 1024)
  /\ _nframes (started_from alloc env negotiated e) = Int.to_uint negotiated
  /\ _steadyTime (started_from alloc env negotiated e) = _steadyTime e
  /\ _sampleRate (started_from alloc env negotiated e) = _sampleRate e.
Proof.
  pose proof (start_before_open_from_fields alloc e)
    as (A1 & A2 & A3 & A4 & A5 & A6 & A7 & A8 & A9).
  unfold started_from. cbv zeta.
  revert A1 A2 A3 A4 A5 A6 A7 A8 A9.
  generalize (stored_inputs alloc (32 * 1024)) (stored_outputs alloc (32 * 1024)).
  generalize (start_before_open_from alloc e). intros x si so A1 A2 A3 A4 A5 A6 A7 A8 A9.
  cbn [_settings _state _midiIn _audio _inputs _outputs _nframes _steadyTime
       _sampleRate set_audio set_state set_nframes emit].
  repeat split; assumption.
Qed.

(** *** The state between two calls, and inside stop() *)

Lemma state_of_core (a b : Engine) : core a = core b -> _state a = _state b.
Proof. intros H. destruct (core_parts _ _ H) as (_ & S & _). exact S. Qed.

(** Between two calls the state is never Stopping. *)
Lemma step_settled (op : Op) (e e' : Engine) :
  _state e <> kStateStopping -> step op e = Done e' -> _state e' <> kStateStopping.
Proof.
  destruct op as [env| |plugin out inb fc t|m|path idx loaded| |]; simpl; intros Hs H.
  - unfold start in H. destruct (decide _); [|discriminate].
    injection H as <-. generalize (start_midi env e). intros x.
    destruct (audio_dichotomy env (requestedBufferSize (audio_bufferSize (_settings x))))
      as [Ht|[n Hok]].
    + destruct (start_audio_throws env x Ht) as [e1 ->].
      destruct (stop_fields e1) as (_ & S & _). rewrite S. discriminate.
    + rewrite (start_audio_ok env x n Hok).
      destruct (started_fields env n x) as (_ & S & _). rewrite S. discriminate.
  - injection H as <-. destruct (stop_fields e) as (_ & S & _). rewrite S. discriminate.
  - destruct (audioCallback plugin out inb fc t e) as [[[e1 out1] code]|] eqn:E;
      [|discriminate].
    cbn [obind fst] in H. injection H as <-.
    destruct (audioCallback_state _ _ _ _ _ _ _ _ _ E) as [(_ & _ & S)|(_ & _ & S)];
      rewrite S; discriminate.
  - injection H as <-. rewrite (state_of_core _ _ (core_midi_arrive m e)). exact Hs.
  - injection H as <-.
    rewrite (state_of_core _ _ (core_loadPlugin path idx loaded e)). exact Hs.
  - injection H as <-. destruct (unloadPlugin_fields e) as (_ & S & _).
    rewrite S. exact Hs.
  - injection H as <-. exact Hs.
Qed.

Lemma run_settled (ops : list Op) :
  forall e e',
    _state e <> kStateStopping -> run ops e = Done e' -> _state e' <> kStateStopping.
Proof.
  induction ops as [|op ops IH]; intros e e' Hs H; simpl in H.
  - injection H as <-. exact Hs.
  - destruct (step op e) as [e1|] eqn:E; [|discriminate]. cbn [obind] in H.
    exact (IH e1 e' (step_settled op e e1 Hs E) H).
Qed.

Lemma stop_before_last_fields (e : Engine) :
  _state e = kStateRunning ->
  stop e = set_state kStateStopped (stop_before_last e)
  /\ _state (stop_before_last e) = kStateStopping
  /\ buffers_null (stop_before_last e).
Proof.
  intros Hs. unfold stop_before_last. split; [reflexivity|].
  destruct (stop_request_running e Hs) as [Q _].
  destruct (stop_audio_fields (stop_request e)) as (_ & A2 & _).
  destruct (stop_midi_fields (stop_audio (stop_request e))) as (_ & M2 & _).
  destruct (freeBuffers_fields (stop_midi (stop_audio (stop_request e))))
    as (_ & F2 & _ & _ & F5 & F6 & _).
  split; [rewrite F2, M2, A2; exact Q | split; assumption].
Qed.

Lemma in_forget (ops : list HeapOp) (P : Op -> Prop) :
  (forall op, In op ops -> P (forget op)) ->
  forall op, In op (List.map forget ops) -> P op.
Proof.
  intros H op Hin. apply in_map_iff in Hin. destruct Hin as (o & <- & Ho).
  exact (H o Ho).
Qed.

Lemma step_from_owned (op : HeapOp) (e e' : Engine) :
  frees_from op = false -> step_from op e = Done e' -> owned e' = owned e.
Proof.
  destruct op as [alloc env|op]; simpl; intros Hf H; [discriminate Hf|].
  exact (step_owned op e e' Hf H).
Qed.

(** C7, as amended: after any run of [start()], [stop()], callbacks, MIDI
    deliveries, [loadPlugin()] and idle ticks from construction in which every
    [calloc] of [start()] returned a block, an engine found in a state other
    than Stopped between two of these calls is Running and holds four non-null
    blocks of exactly 8192 samples (32 KiB), whatever block size the driver
    negotiated: they cover a callback of frameCount frames only if
    frameCount <= 8192.  [start()] reaches [openStream] with the four results
    of [calloc] stored, and it does not test them: with devices that work it
    ends Running with a null pointer wherever a [calloc] returned one.  Only
    [start()], [stop()] and [unloadPlugin()] free or replace a block.  Inside
    [stop()] on a Running engine the state is still Stopping when the four
    pointers are already null; its last statement sets Stopped. *)
Theorem buffers_while_not_stopped (settings : Settings) (sampleRate nframes : Z)
    (ops : list HeapOp) (e : Engine) :
  run_from ops (Engine_new settings sampleRate nframes) = Done e ->
  (forall op, In op ops -> is_unload_from op = false) ->
  (forall op, In op ops -> allocated op) ->
  _state e <> kStateStopped ->
  (_state e = kStateRunning /\ has_blocks e)
  /\ (forall alloc env x,
        env_audioNew env = Ok tt ->
        start_audio_body_from alloc env x
        = openStream env (_index (audio_deviceReference (_settings x)))
            (audio_sampleRate (_settings x))
            (requestedBufferSize (audio_bufferSize (_settings x)))
            (start_after_open env (audio_sampleRate (_settings x)))
            (start_before_open_from alloc x)
        /\ _inputs (start_before_open_from alloc x) = stored_inputs alloc (32 * 1024)
        /\ _outputs (start_before_open_from alloc x) = stored_outputs alloc (32 * 1024))
  /\ (forall alloc env x negotiated,
        audio_ok env (requestedBufferSize (audio_bufferSize (_settings x))) negotiated ->
        _state (start_audio_from alloc env x) = kStateRunning
        /\ _inputs (start_audio_from alloc env x) = stored_inputs alloc (32 * 1024)
        /\ _outputs (start_audio_from alloc env x) = stored_outputs alloc (32 * 1024))
  /\ (forall op x x',
        frees_from op = false -> step_from op x = Done x' -> owned x' = owned x)
  /\ (forall x,
        _state x = kStateRunning ->
        stop x = set_state kStateStopped (stop_before_last x)
        /\ _state (stop_before_last x) = kStateStopping
        /\ buffers_null (stop_before_last x)).
Proof.
  intros Hrun Hu Ha Hs.
  rewrite (run_from_all ops _ Ha) in Hrun.
  split.
  { split.
    - assert (Hn : _state e <> kStateStopping).
      { apply (run_settled (List.map forget ops)
                 (Engine_new settings sampleRate nframes) e); [discriminate | exact Hrun]. }
      destruct (_state e); [exfalso; apply Hs; reflexivity | reflexivity
                           | exfalso; apply Hn; reflexivity].
    - apply (run_buffers_inv (List.map forget ops)
                 (Engine_new settings sampleRate nframes) e);
        [|intros H; exfalso; apply H; reflexivity|exact Hrun|exact Hs].
      apply (in_forget ops (fun op => is_unload op = false)).
      intros [alloc env|op] Hin; [reflexivity | exact (Hu _ Hin)]. }
  split.
  { intros alloc env x Hnew. split; [exact (start_audio_body_from_ok alloc env x Hnew)|].
    destruct (start_before_open_from_fields alloc x) as (_&_&_&_& I & O &_).
    split; assumption. }
  split.
  { intros alloc env x negotiated Hok.
    rewrite (start_audio_from_ok alloc env x negotiated Hok).
    destruct (started_from_fields alloc env negotiated x) as (_ & S & _ & _ & I & O & _).
    split; [exact S|]. split; assumption. }
  split; [exact step_from_owned | exact stop_before_last_fields].
Qed.

Lemma buffers_while_not_stopped_witness :
  run_from start_stop_start (Engine_new settings0 48000 0) = Done after_start_stop_start
  /\ _state after_start_stop_start = kStateRunning
  /\ has_blocks after_start_stop_start.
Proof.
  assert (H1 : run_from start_stop_start (Engine_new settings0 48000 0)
               = Done after_start_stop_start) by (vm_compute; reflexivity).
  assert (H2 : forall op, In op start_stop_start -> is_unload_from op = false).
  { intros op Hin. unfold start_stop_start in Hin. simpl in Hin.
    repeat (destruct Hin as [<-|Hin]; [reflexivity|]). destruct Hin. }
  assert (H3 : forall op, In op start_stop_start -> allocated op).
  { intros op Hin. unfold start_stop_start in Hin. simpl in Hin.
    repeat (destruct Hin as [<-|Hin]; [simpl; unfold all_blocks; auto|]). destruct Hin. }
  assert (H4 : _state after_start_stop_start <> kStateStopped).
  { vm_compute. discriminate. }
  split; [exact H1|].
  exact (proj1 (buffers_while_not_stopped settings0 48000 0 start_stop_start
                  after_start_stop_start H1 H2 H3 H4)).
Defined.

(** The second [calloc] of a [start()] returns a null pointer: the engine
    ends Running with that pointer null, and the callback fails its assert
    on the buffers. *)
Example failed_calloc_is_not_tested :
  start_from alloc_second_fails (env_ok 4) engine0 = Done engine_short
  /\ _state engine_short = kStateRunning
  /\ _inputs engine_short = (Some block, None)
  /\ _outputs engine_short = (Some block, Some block)
  /\ invoke args0 engine_short = Fault (AssertFailed "buffer != nullptr").
Proof.
  split; [reflexivity|]. split; [vm_compute; reflexivity|].
  split; [vm_compute; reflexivity|]. split; vm_compute; reflexivity.
Qed.

Lemma copy_output_room (l r out out' : buffer) (n : nat) :
  copy_output l r n out = Done out' -> (n <= length l)%nat.
Proof.
  unfold copy_output. intros H.
  apply (for_loop_inv (copy_output_body l r) (fun j _ => (j <= length l)%nat)
           n 0%nat out out'); [|lia|exact H].
  intros j a b _ _ Hb. apply copy_output_body_Done in Hb.
  destruct Hb as (x & y & Ex & _). apply lookup_lt_Some in Ex. lia.
Qed.

(** A callback that returns has stayed inside the left output block. *)
Lemma audioCallback_room (plugin : dsp) (out : buffer) (inb : option buffer)
    (frameCount : Z) (currentTime : Q) (e e' : Engine) (out' : buffer) (code : Z) :
  audioCallback plugin out inb frameCount currentTime e = Done (e', out', code) ->
  frameCount = _nframes e
  /\ exists outL outR,
       _outputs e = (Some outL, Some outR) /\ (Z.to_nat frameCount <= length outL)%nat.
Proof.
  intros H. destruct (audioCallback_inv _ _ _ _ _ _ _ _ _ H)
    as [inL inR outL outR ins em Hi Ho Hn Hc Hm Hout Hr].
  split; [exact Hn|]. exists outL, outR. split; [exact Ho|].
  apply copy_output_room in Hout. rewrite length_write_block in Hout. exact Hout.
Qed.

(** The driver negotiates 16384 frames: the engine is Running, a callback
    must be given frameCount = 16384, and the four blocks hold 8192 samples
    each; no callback returns: it fails the assert on frameCount or runs past
    the end of a block. *)
Lemma blocks_shorter_than_frameCount :
  start (env_ok 16384) engine0 = Done engine_big
  /\ _state engine_big = kStateRunning
  /\ _nframes engine_big = 16384
  /\ _inputs engine_big = (Some block, Some block)
  /\ _outputs engine_big = (Some block, Some block)
  /\ Z.of_nat (length block) = 8192
  /\ ~ (16384 <= Z.of_nat (length block))
  /\ forall a, exists f, invoke a engine_big = Fault f.
Proof.
  assert (Hn : _nframes engine_big = 16384) by (vm_compute; reflexivity).
  assert (Ho : _outputs engine_big = (Some block, Some block)) by (vm_compute; reflexivity).
  split; [reflexivity|].
  split; [vm_compute; reflexivity|].
  split; [exact Hn|].
  split; [vm_compute; reflexivity|].
  split; [exact Ho|].
  split; [exact length_block|].
  split; [rewrite length_block; lia|].
  intros a. unfold invoke.
  destruct (audioCallback _ _ _ _ _ engine_big) as [[[e' out'] code]|f] eqn:E;
    [|exists f; reflexivity].
  exfalso. destruct (audioCallback_room _ _ _ _ _ _ _ _ _ E) as (Hf & outL & outR & Ho' & Hlen).
  rewrite Ho in Ho'. injection Ho' as <- <-.
  rewrite Hf, Hn in Hlen. pose proof length_block. lia.
Qed.

(** [unloadPlugin()] frees the blocks whatever the state is. *)
Example unloadPlugin_while_running :
  _state (unloadPlugin engine_running) = kStateRunning
  /\ _inputs (unloadPlugin engine_running) = (None, None)
  /\ _outputs (unloadPlugin engine_running) = (None, None).
Proof. repeat split; vm_compute; reflexivity. Qed.

(** ** C10: the bytes the translator reads *)

(** C10: for a non-empty drained message the translator reads
    [midiBuf[1]] and [midiBuf[2]] before it looks at the event type: whatever
    the status byte is, the reads are out of bounds exactly when the message
    has fewer than 3 bytes, and such a message at the head of the queue makes
    the draining, with no event dispatched, run out of bounds. *)
Theorem translate_reads_three_bytes (frameCount : Z) (currentTime : Q)
    (m : MidiMessage) (q : list MidiMessage) (e : Engine) :
  msg_bytes m <> [] ->
  (translate frameCount currentTime (msg_time m) (msg_bytes m) e = Fault OutOfBounds
   <-> (length (msg_bytes m) < 3)%nat)
  /\ ((length (msg_bytes m) < 3)%nat ->
      midi_drain frameCount currentTime (m :: q) e = Fault OutOfBounds).
Proof.
  intros Hne.
  assert (A : translate frameCount currentTime (msg_time m) (msg_bytes m) e
              = Fault OutOfBounds <-> (length (msg_bytes m) < 3)%nat).
  { unfold translate.
    destruct (msg_bytes m) as [|b0 [|b1 [|b2 rest]]]; [congruence| | |].
    - cbn. split; [lia | reflexivity].
    - cbn. split; [lia | reflexivity].
    - cbn [buf_read lookup list_lookup obind length]. split; [|lia].
      destruct (sampleOffset _ _ _); [|discriminate].
      repeat case_decide; discriminate. }
  split; [exact A|].
  intros Hlen. cbn [midi_drain].
  destruct (msg_bytes m) as [|b bs] eqn:Eb; [congruence|].
  rewrite (proj2 A Hlen). reflexivity.
Qed.

Lemma translate_reads_three_bytes_witness :
  msg_bytes program_change <> []
  /\ (translate 256 0 (msg_time program_change) (msg_bytes program_change)
        (running_engine 256 48000 [])
      = Fault OutOfBounds
      <-> (length (msg_bytes program_change) < 3)%nat)
  /\ ((length (msg_bytes program_change) < 3)%nat ->
      midi_drain 256 0 [program_change] (running_engine 256 48000 [])
      = Fault OutOfBounds).
Proof.
  assert (H : msg_bytes program_change <> []) by (simpl; discriminate).
  split; [exact H|].
  exact (translate_reads_three_bytes 256 0 program_change []
           (running_engine 256 48000 []) H).
Defined.

(** Either short message, queued on the open port, stops the callback. *)
Example short_messages_fault :
  process_midi 256 0 (running_engine 256 48000 [program_change]) = Fault OutOfBounds
  /\ process_midi 256 0 (running_engine 256 48000 [timing_clock]) = Fault OutOfBounds
  /\ invoke (mkCallbackArgs plugin_thru (replicate 512 0) None 256 0)
            (running_engine 256 48000 [timing_clock]) = Fault OutOfBounds.
Proof. repeat split; vm_compute; reflexivity. Qed.

(** * Further properties of the code *)

(** ** The status byte and the pitch-bend value *)

Lemma land_ones_8 (x : Z) : 0 <= x < 256 -> Int.to_uint8 x = x.
Proof.
  intros H. unfold Int.to_uint8. change 255 with (Z.ones 8).
  rewrite Z.land_ones by lia. apply Z.mod_small. exact H.
Qed.

Lemma status_decode (type channel : Z) :
  0 <= type < 16 -> 0 <= channel < 16 ->
  Int.to_uint8 (Z.shiftr (16 * type + channel) 4) = type
  /\ Int.to_uint8 (Z.land (16 * type + channel) 0xf) = channel.
Proof.
  intros Ht Hc. split.
  - rewrite Z.shiftr_div_pow2 by lia. change (2 ^ 4) with 16.
    replace ((16 * type + channel) / 16) with type
      by (apply (Z.div_unique _ 16 type channel); lia).
    apply land_ones_8. lia.
  - change 0xf with (Z.ones 4). rewrite Z.land_ones by lia. change (2 ^ 4) with 16.
    replace ((16 * type + channel) mod 16) with channel
      by (apply (Z.mod_unique _ 16 type channel); lia).
    apply land_ones_8. lia.
Qed.

Lemma pitch_bend_value (data1 data2 : Z) :
  0 <= data1 < 128 -> 0 <= data2 < 128 ->
  Z.lor (Z.shiftl data2 7) data1 = 128 * data2 + data1.
Proof.
  intros H1 H2.
  assert (D : Z.land (Z.shiftl data2 7) data1 = 0).
  { apply Z.bits_inj'. intros n Hn. rewrite Z.land_spec, Z.bits_0.
    destruct (Z.lt_ge_cases n 7) as [Hlt|Hge].
    - rewrite Z.shiftl_spec by lia. rewrite Z.testbit_neg_r by lia. reflexivity.
    - assert (Hb : Z.testbit data1 n = false).
      { destruct (Z.eq_dec data1 0) as [->|Hnz]; [apply Z.bits_0|].
        apply Z.bits_above_log2; [lia|].
        apply Z.log2_lt_pow2; [lia|].
        apply Z.lt_le_trans with (2 ^ 7); [lia|].
        apply Z.pow_le_mono_r; lia. }
      rewrite Hb. apply andb_false_r. }
  rewrite <- Z.lxor_lor by exact D.
  rewrite <- Z.add_nocarry_lxor by exact D.
  rewrite Z.shiftl_mul_pow2 by lia. lia.
Qed.

Lemma translate_decoded (frameCount : Z) (currentTime msgTime : Q)
    (type channel data1 data2 : Z) (rest : list Z) (e : Engine) (off : Z) :
  0 <= type < 16 -> 0 <= channel < 16 ->
  sampleOffset frameCount (deltaMs currentTime msgTime) (inject_Z (_sampleRate e))
    = Some off ->
  translate frameCount currentTime msgTime
            ((16 * type + channel) :: data1 :: data2 :: rest) e
  = if decide (type = MIDI_STATUS_NOTE_ON) then
      Done (emit (HostNoteOn off channel data1 data2) e)
    else if decide (type = MIDI_STATUS_NOTE_OFF) then
      Done (emit (HostNoteOff off channel data1 data2) e)
    else if decide (type = MIDI_STATUS_CC) then
      Done (emit (HostCC off channel data1 data2) e)
    else if decide (type = MIDI_STATUS_NOTE_AT) then
      Done (emit (HostNoteAt off channel data1 data2) (emit (Cerr "Note AT") e))
    else if decide (type = MIDI_STATUS_CHANNEL_AT) then
      Done (emit (Cerr "Channel after touch") e)
    else if decide (type = MIDI_STATUS_PITCH_BEND) then
      Done (emit (HostPitchBend off channel (Z.lor (Z.shiftl data2 7) data1)) e)
    else
      Done (emit (Cerr "unknown event type") e).
Proof.
  intros Ht Hc Hoff. unfold translate.
  cbn [buf_read lookup list_lookup obind]. cbv zeta.
  destruct (status_decode type channel Ht Hc) as [-> ->].
  rewrite Hoff. reflexivity.
Qed.

(** X1: a message of at least three bytes whose status byte is
    16 * type + channel is forwarded to the plugin host with that channel and
    its two data bytes, unchecked, by the entry point of its type: note-on
    (9), note-off (8), control change (11), note aftertouch (10, after a
    line on standard error); further bytes are ignored. *)
Theorem translate_forwards (frameCount : Z) (currentTime msgTime : Q)
    (channel data1 data2 : Z) (rest : list Z) (e : Engine) (off : Z) :
  0 <= channel < 16 ->
  sampleOffset frameCount (deltaMs currentTime msgTime) (inject_Z (_sampleRate e))
    = Some off ->
  translate frameCount currentTime msgTime (0x90 + channel :: data1 :: data2 :: rest) e
    = Done (emit (HostNoteOn off channel data1 data2) e)
  /\ translate frameCount currentTime msgTime (0x80 + channel :: data1 :: data2 :: rest) e
     = Done (emit (HostNoteOff off channel data1 data2) e)
  /\ translate frameCount currentTime msgTime (0xB0 + channel :: data1 :: data2 :: rest) e
     = Done (emit (HostCC off channel data1 data2) e)
  /\ translate frameCount currentTime msgTime (0xA0 + channel :: data1 :: data2 :: rest) e
     = Done (emit (HostNoteAt off channel data1 data2) (emit (Cerr "Note AT") e)).
Proof.
  intros Hc Hoff.
  change 0x90 with (16 * 9). change 0x80 with (16 * 8).
  change 0xB0 with (16 * 11). change 0xA0 with (16 * 10).
  rewrite !(translate_decoded _ _ _ _ _ _ _ _ _ off) by (assumption || lia).
  repeat split; reflexivity.
Qed.

Lemma translate_forwards_witness :
  0 <= 1 < 16
  /\ sampleOffset 256 (deltaMs 10 10) (inject_Z (_sampleRate (running_engine 256 48000 [])))
     = Some 256
  /\ translate 256 10 10 (0x90 + 1 :: 60 :: 100 :: []) (running_engine 256 48000 [])
     = Done (emit (HostNoteOn 256 1 60 100) (running_engine 256 48000 [])).
Proof.
  assert (H1 : 0 <= 1 < 16) by lia.
  assert (H2 : sampleOffset 256 (deltaMs 10 10)
                 (inject_Z (_sampleRate (running_engine 256 48000 []))) = Some 256)
    by (vm_compute; reflexivity).
  split; [exact H1|]. split; [exact H2|].
  exact (proj1 (translate_forwards 256 10 10 1 60 100 [] (running_engine 256 48000 [])
                  256 H1 H2)).
Defined.

(** X2: a pitch-bend message (status 0xE0 + channel) with 7-bit data bytes
    reaches the plugin host with the 14-bit value 128 * data2 + data1, in
    [0, 16383], from which both data bytes can be read back. *)
Theorem translate_pitch_bend (frameCount : Z) (currentTime msgTime : Q)
    (channel data1 data2 : Z) (rest : list Z) (e : Engine) (off : Z) :
  0 <= channel < 16 -> 0 <= data1 < 128 -> 0 <= data2 < 128 ->
  sampleOffset frameCount (deltaMs currentTime msgTime) (inject_Z (_sampleRate e))
    = Some off ->
  translate frameCount currentTime msgTime (0xE0 + channel :: data1 :: data2 :: rest) e
    = Done (emit (HostPitchBend off channel (128 * data2 + data1)) e)
  /\ 0 <= 128 * data2 + data1 <= 0x3FFF
  /\ (128 * data2 + data1) mod 128 = data1
  /\ (128 * data2 + data1) / 128 = data2.
Proof.
  intros Hc H1 H2 Hoff. change 0xE0 with (16 * 14).
  rewrite (translate_decoded _ _ _ _ _ _ _ _ _ off) by (assumption || lia).
  rewrite (pitch_bend_value data1 data2 H1 H2).
  split; [reflexivity|]. split; [lia|]. split.
  - symmetry. apply (Z.mod_unique _ 128 data2 data1); lia.
  - symmetry. apply (Z.div_unique _ 128 data2 data1); lia.
Qed.

Lemma translate_pitch_bend_witness :
  translate 256 10 10 (0xE0 + 2 :: 0x7F :: 0x7F :: []) (running_engine 256 48000 [])
    = Done (emit (HostPitchBend 256 2 (128 * 0x7F + 0x7F)) (running_engine 256 48000 []))
  /\ 128 * 0x7F + 0x7F = 0x3FFF.
Proof.
  assert (Hc : 0 <= 2 < 16) by lia.
  assert (Hd : 0 <= 0x7F < 128) by lia.
  assert (Ho : sampleOffset 256 (deltaMs 10 10)
                 (inject_Z (_sampleRate (running_engine 256 48000 []))) = Some 256)
    by (vm_compute; reflexivity).
  split; [|reflexivity].
  exact (proj1 (translate_pitch_bend 256 10 10 2 0x7F 0x7F [] (running_engine 256 48000 [])
                  256 Hc Hd Hd Ho)).
Defined.

Lemma host_calls_app (l1 l2 : list Event) :
  host_calls (l1 ++ l2) = host_calls l1 ++ host_calls l2.
Proof. unfold host_calls. apply List.filter_app. Qed.

Lemma host_calls_emit (ev : Event) (e : Engine) :
  host_calls (_log (emit ev e))
  = host_calls (_log e) ++ (if is_host_call ev then [ev] else []).
Proof.
  cbn [_log emit]. rewrite host_calls_app. unfold host_calls at 2. simpl.
  destruct (is_host_call ev); reflexivity.
Qed.

(** X3: a message of at least three bytes whose event type is none of
    note-off, note-on, note aftertouch, control change and pitch bend
    (channel aftertouch, program change, system messages, data bytes in
    status position) never reaches the plugin host: the translator writes
    one line on standard error and changes nothing else. *)
Theorem translate_drops_other_types (frameCount : Z) (currentTime msgTime : Q)
    (type channel data1 data2 : Z) (rest : list Z) (e : Engine) (off : Z) :
  0 <= type < 16 -> 0 <= channel < 16 ->
  type <> 8 -> type <> 9 -> type <> 10 -> type <> 11 -> type <> 14 ->
  sampleOffset frameCount (deltaMs currentTime msgTime) (inject_Z (_sampleRate e))
    = Some off ->
  exists e' line,
    translate frameCount currentTime msgTime
              (16 * type + channel :: data1 :: data2 :: rest) e = Done e'
    /\ e' = emit (Cerr line) e
    /\ host_calls (_log e') = host_calls (_log e).
Proof.
  intros Ht Hc N8 N9 N10 N11 N14 Hoff.
  rewrite (translate_decoded _ _ _ _ _ _ _ _ _ off Ht Hc Hoff).
  unfold MIDI_STATUS_NOTE_ON, MIDI_STATUS_NOTE_OFF, MIDI_STATUS_CC,
    MIDI_STATUS_NOTE_AT, MIDI_STATUS_CHANNEL_AT, MIDI_STATUS_PITCH_BEND.
  repeat case_decide; try congruence;
    (eexists; eexists; split; [reflexivity|]; split; [reflexivity|];
     rewrite host_calls_emit; apply app_nil_r).
Qed.

Lemma translate_drops_other_types_witness :
  exists e' line,
    translate 256 10 10 (16 * 13 + 3 :: 64 :: 0 :: []) (running_engine 256 48000 [])
      = Done e'
    /\ e' = emit (Cerr line) (running_engine 256 48000 [])
    /\ host_calls (_log e') = host_calls (_log (running_engine 256 48000 [])).
Proof.
  apply (translate_drops_other_types 256 10 10 13 3 64 0 [] (running_engine 256 48000 [])
           256); try lia.
  vm_compute. reflexivity.
Defined.

(** ** Draining the MIDI queue *)

Lemma translate_logged (frameCount : Z) (currentTime msgTime : Q) (midiBuf : list Z)
    (e e' : Engine) :
  translate frameCount currentTime msgTime midiBuf e = Done e' -> midi_logged 1 e e'.
Proof.
  unfold translate.
  destruct (buf_read midiBuf 0) as [status|]; [|discriminate].
  destruct (buf_read midiBuf 1) as [data1|]; [|discriminate].
  destruct (buf_read midiBuf 2) as [data2|]; [|discriminate].
  cbn [obind].
  destruct (sampleOffset _ _ _) as [off|]; [|discriminate].
  repeat case_decide; intros [= <-]; unfold midi_logged; cbn [_log emit];
    rewrite <- ?app_assoc; eexists; (split; [reflexivity|]);
    (split; [repeat constructor | simpl; lia]).
Qed.

Lemma midi_logged_trans (n m : nat) (a b c : Engine) :
  midi_logged n a b -> midi_logged m b c -> midi_logged (n + m) a c.
Proof.
  intros (l1 & E1 & F1 & H1) (l2 & E2 & F2 & H2). exists (l1 ++ l2).
  split; [rewrite E2, E1, app_assoc; reflexivity|].
  split; [apply Forall_app; auto|].
  rewrite host_calls_app, length_app. lia.
Qed.

Lemma midi_logged_refl (e : Engine) : midi_logged 0 e e.
Proof.
  exists []. rewrite app_nil_r. split; [reflexivity|]. split; [constructor | simpl; lia].
Qed.

Lemma midi_logged_weaken (n m : nat) (a b : Engine) :
  (n <= m)%nat -> midi_logged n a b -> midi_logged m a b.
Proof. intros H (l & E & F & L). exists l. split; [|split]; auto. lia. Qed.

Lemma midi_drain_logged (frameCount : Z) (currentTime : Q) (q : list MidiMessage) :
  forall (e : Engine) (r : list MidiMessage * Engine),
    midi_drain frameCount currentTime q e = Done r ->
    midi_logged (length q) e (snd r).
Proof.
  induction q as [|m q IH]; intros e r H; simpl in H.
  - injection H as <-. apply midi_logged_refl.
  - destruct (msg_bytes m) as [|b bs] eqn:Eb.
    + injection H as <-. apply (midi_logged_weaken 0); [lia | apply midi_logged_refl].
    + destruct (translate frameCount currentTime (msg_time m) (b :: bs) e)
        as [e1|] eqn:Et; [|discriminate].
      cbn [obind] in H.
      exact (midi_logged_trans 1 (length q) e e1 (snd r)
               (translate_logged _ _ _ _ _ _ Et) (IH e1 r H)).
Qed.

Lemma midi_drain_all (frameCount : Z) (currentTime : Q) (q : list MidiMessage) :
  forall e,
    Forall (midi_dispatchable frameCount currentTime (_sampleRate e)) q ->
    exists e', midi_drain frameCount currentTime q e = Done ([], e').
Proof.
  induction q as [|m q IH]; intros e Hq; simpl.
  - eexists. reflexivity.
  - inversion Hq as [|m' q' [Hlen Hoff] Hq']; subst.
    destruct (msg_bytes m) as [|b bs] eqn:Eb; [simpl in Hlen; lia|].
    destruct (translate_total frameCount currentTime (msg_time m) (b :: bs) e Hlen Hoff)
      as [e1 E1].
    rewrite E1. cbn [obind]. apply IH.
    destruct (core_parts _ _ (translate_core _ _ _ _ _ _ E1)) as (_&_&_&_&_&_&_&S).
    rewrite S. exact Hq'.
Qed.

(** X4: when every queued message has at least three bytes and a sample
    offset that fits, one callback's draining empties the queue of the open
    port: it returns, leaves the port open with nothing pending, changes no
    other member of the engine, and adds to the log only translator events,
    at most one call on the plugin host per message. *)
Theorem process_midi_drains (frameCount : Z) (currentTime : Q)
    (q : list MidiMessage) (e : Engine) :
  Forall (midi_dispatchable frameCount currentTime (_sampleRate e)) q ->
  exists e',
    process_midi frameCount currentTime (with_queue q e) = Done e'
    /\ _midiIn e' = Some (mkRtMidiIn true [])
    /\ midi_pending e' = []
    /\ core e' = core e
    /\ midi_logged (length q) e e'.
Proof.
  intros Hq. unfold process_midi, with_queue.
  cbn [_midiIn set_midiIn midi_portOpen midi_queue].
  destruct (midi_drain_all frameCount currentTime q
              (set_midiIn (Some (mkRtMidiIn true q)) e) Hq) as [e1 E1].
  rewrite E1. cbn [obind fst snd]. eexists. split; [reflexivity|].
  split; [reflexivity|]. split; [reflexivity|].
  pose proof (midi_drain_core _ _ _ _ _ E1) as C.
  pose proof (midi_drain_logged _ _ _ _ _ E1) as L. cbn [snd] in C, L.
  split; [rewrite core_set_midiIn, C; reflexivity|].
  destruct L as (l & El & Fl & Hl). exists l. auto.
Qed.

Lemma process_midi_drains_witness :
  exists e',
    process_midi 256 10
      (with_queue [mkMidiMessage 10 [0x91; 60; 100]; mkMidiMessage 10 [0x81; 60; 0]]
                  (running_engine 256 48000 [])) = Done e'
    /\ _midiIn e' = Some (mkRtMidiIn true [])
    /\ midi_pending e' = []
    /\ core e' = core (running_engine 256 48000 [])
    /\ midi_logged 2 (running_engine 256 48000 []) e'.
Proof.
  apply (process_midi_drains 256 10
           [mkMidiMessage 10 [0x91; 60; 100]; mkMidiMessage 10 [0x81; 60; 0]]
           (running_engine 256 48000 [])).
  repeat constructor; simpl; try lia; vm_compute; eexists; reflexivity.
Defined.

(** ** The log of a callback and the heap *)

Lemma process_midi_logged (frameCount : Z) (currentTime : Q) (e e' : Engine) :
  process_midi frameCount currentTime e = Done e' ->
  midi_logged (length (midi_pending e)) e e'.
Proof.
  unfold process_midi, midi_pending. destruct (_midiIn e) as [[[] q]|].
  - cbn [midi_portOpen midi_queue].
    destruct (midi_drain frameCount currentTime q e) as [r|] eqn:Ed; [|discriminate].
    cbn [obind]. intros [= <-].
    destruct (midi_drain_logged _ _ _ _ _ Ed) as (l & El & Fl & Hl).
    exists l. cbn [_log set_midiIn]. auto.
  - intros [= <-]. apply midi_logged_refl.
  - intros [= <-]. apply midi_logged_refl.
Qed.

Lemma audioCallback_log (plugin : dsp) (out : buffer) (inb : option buffer)
    (frameCount : Z) (currentTime : Q) (e e' : Engine) (out' : buffer) (code : Z) :
  audioCallback plugin out inb frameCount currentTime e = Done (e', out', code) ->
  exists l,
    _log e' = _log e ++ [HostProcessBegin frameCount] ++ l ++ [HostProcess]
    /\ Forall (fun ev => is_midi_event ev = true) l
    /\ (length (host_calls l) <= length (midi_pending e))%nat.
Proof.
  intros H. destruct (audioCallback_inv _ _ _ _ _ _ _ _ _ H)
    as [inL inR outL outR ins em Hi Ho Hn Hc Hm Hout Hr].
  destruct (process_midi_logged _ _ _ _ Hm) as (l & El & Fl & Hl).
  exists l. split; [|split; [exact Fl | exact Hl]].
  cbn [_log emit set_inputs] in El.
  assert (E : _log e' = _log em ++ [HostProcess]).
  { destruct (callback_return_state _ _ _ _ _ Hr) as [(_ & _ & ->)|(_ & _ & ->)];
      reflexivity. }
  rewrite E, El, <- !app_assoc. reflexivity.
Qed.

Lemma live_blocks_midi_events (l : list Event) :
  Forall (fun ev => is_midi_event ev = true) l -> live_blocks l = 0.
Proof.
  induction 1 as [|ev l Hev _ IH]; [reflexivity|].
  change (live_blocks (ev :: l)) with (heap_delta ev + live_blocks l).
  rewrite IH. destruct ev; simpl in Hev; try discriminate; reflexivity.
Qed.

Lemma leaked_of (a b : Engine) :
  live_blocks (_log a) = live_blocks (_log b) -> owned a = owned b -> leaked a = leaked b.
Proof. unfold leaked. intros -> ->. reflexivity. Qed.

Lemma leaked_unloadPlugin (e : Engine) : leaked (unloadPlugin e) = leaked e.
Proof.
  destruct e as [sets st m a [[inL|] [inR|]] [[outL|] [outR|]] nf t sr lg];
    unfold leaked, owned, unloadPlugin; simpl;
    rewrite ?live_blocks_app; simpl; lia.
Qed.

Lemma leaked_emit (ev : Event) (e : Engine) :
  heap_delta ev = 0 -> leaked (emit ev e) = leaked e.
Proof.
  intros H. apply leaked_of; [|reflexivity].
  rewrite live_blocks_emit, H. lia.
Qed.

Lemma step_leaked (op : Op) (e e' : Engine) :
  step op e = Done e' -> leaked e' = leaked e.
Proof.
  destruct op as [env| |plugin out inb fc t|m|path idx loaded| |]; simpl; intros H.
  - unfold start in H. destruct (decide _); [|discriminate].
    injection H as <-. apply (clock_leaked_start env e).
  - injection H as <-. destruct (kept_parts _ _ (kept_stop e)) as (_ & _ & L). exact L.
  - destruct (audioCallback plugin out inb fc t e) as [[[e1 out1] code]|] eqn:E;
      [|discriminate].
    cbn [obind fst] in H. injection H as <-.
    apply leaked_of.
    + destruct (audioCallback_log _ _ _ _ _ _ _ _ _ E) as (l & El & Fl & _).
      rewrite El, !live_blocks_app, (live_blocks_midi_events l Fl). simpl. lia.
    + apply (step_owned (OpCallback plugin out inb fc t) e e1 eq_refl).
      simpl. rewrite E. reflexivity.
  - injection H as <-. apply leaked_of; [|exact (owned_core _ _ (core_midi_arrive m e))].
    unfold midi_arrive. destruct (_midiIn e) as [[[] q]|]; reflexivity.
  - injection H as <-. destruct loaded; cbn [loadPlugin fst];
      rewrite ?leaked_emit by reflexivity; reflexivity.
  - injection H as <-. apply leaked_unloadPlugin.
  - injection H as <-. apply leaked_emit. reflexivity.
Qed.

Lemma run_leaked (ops : list Op) :
  forall e e', run ops e = Done e' -> leaked e' = leaked e.
Proof.
  induction ops as [|op ops IH]; intros e e' H; simpl in H.
  - injection H as <-. reflexivity.
  - destruct (step op e) as [e1|] eqn:E; [|discriminate]. cbn [obind] in H.
    rewrite (IH _ _ H). exact (step_leaked _ _ _ E).
Qed.

Lemma owned_range (e : Engine) : 0 <= owned e <= 4.
Proof.
  unfold owned, owns.
  destruct (_inputs e) as [[?|] [?|]], (_outputs e) as [[?|] [?|]]; simpl; lia.
Qed.

Lemma unload_stop_fields (e : Engine) :
  idle_stopped (unloadPlugin (stop e)) /\ leaked (unloadPlugin (stop e)) = leaked e.
Proof.
  pose proof (stop_fields e) as (_ & S & M & A & _).
  pose proof (unloadPlugin_fields (stop e)) as (_ & S' & M' & A' & I' & O' & _).
  split.
  - unfold idle_stopped, buffers_null. rewrite S', M', A', I', O', S, M, A. auto.
  - rewrite leaked_unloadPlugin.
    destruct (kept_parts _ _ (kept_stop e)) as (_ & _ & L). exact L.
Qed.

Lemma idle_stopped_emit (ev : Event) (e : Engine) :
  idle_stopped e -> idle_stopped (emit ev e).
Proof. intros H. exact H. Qed.

Lemma destroy_shape (c1 c2 : Event) (e : Engine) :
  heap_delta c1 = 0 -> heap_delta c2 = 0 ->
  idle_stopped (emit c2 (unloadPlugin (stop (emit c1 e))))
  /\ leaked (emit c2 (unloadPlugin (stop (emit c1 e)))) = leaked e.
Proof.
  intros H1 H2. destruct (unload_stop_fields (emit c1 e)) as [I L].
  split; [apply idle_stopped_emit; exact I|].
  rewrite (leaked_emit c2 _ H2), L. exact (leaked_emit c1 e H1).
Qed.

Lemma Engine_destroy_fields (e : Engine) :
  idle_stopped (Engine_destroy e) /\ leaked (Engine_destroy e) = leaked e.
Proof.
  exact (destroy_shape (Cerr "     ####### STOPING ENGINE #########")
           (Cerr "     ####### ENGINE STOPPED #########") e eq_refl eq_refl).
Qed.

(** X5: along any run from construction no block is leaked: the blocks
    that [calloc] returned and [free] has not released are exactly the ones
    the engine holds a pointer to, at most four; and the destructor, from
    whatever state the run has reached, leaves a stopped engine with no
    device, no buffer and no live block. *)
Theorem heap_balanced (settings : Settings) (sampleRate nframes : Z)
    (ops : list Op) (e : Engine) :
  run ops (Engine_new settings sampleRate nframes) = Done e ->
  live_blocks (_log e) = owned e
  /\ 0 <= live_blocks (_log e) <= 4
  /\ idle_stopped (Engine_destroy e)
  /\ live_blocks (_log (Engine_destroy e)) = 0.
Proof.
  intros Hrun.
  pose proof (run_leaked _ _ _ Hrun) as L.
  change (leaked (Engine_new settings sampleRate nframes)) with 0 in L.
  destruct (Engine_destroy_fields e) as [I D].
  pose proof (idle_owned _ I) as O.
  pose proof (owned_range e) as R.
  revert I D O. generalize (Engine_destroy e). intros x I D O.
  unfold leaked in L, D.
  split; [lia|]. split; [lia|]. split; [exact I | lia].
Qed.

Lemma heap_balanced_witness :
  run cycles (Engine_new settings0 48000 0) = Done after_cycles
  /\ live_blocks (_log after_cycles) = owned after_cycles
  /\ live_blocks (_log (Engine_destroy after_cycles)) = 0.
Proof.
  assert (H : run cycles (Engine_new settings0 48000 0) = Done after_cycles)
    by (vm_compute; reflexivity).
  destruct (heap_balanced settings0 48000 0 cycles after_cycles H) as (A & _ & _ & B).
  split; [exact H|]. split; [exact A | exact B].
Defined.

(** ** The calls of stop(), allocateBuffers() and start(), in order *)

Lemma log_emit (ev : Event) (e : Engine) : _log (emit ev e) = _log e ++ [ev].
Proof. reflexivity. Qed.

Lemma log_stop_request (e : Engine) : _log (stop_request e) = _log e ++ [HostDeactivate].
Proof. unfold stop_request. destruct (decide _); reflexivity. Qed.

Lemma log_stop_audio (e : Engine) :
  _log (stop_audio e) = _log e ++ stop_audio_events (_audio e).
Proof.
  destruct e as [sets st m [[[] arun]|] i o nf t sr lg]; simpl;
    rewrite <- ?app_assoc, ?app_nil_r; reflexivity.
Qed.

Lemma log_stop_midi (e : Engine) :
  _log (stop_midi e) = _log e ++ stop_midi_events (_midiIn e).
Proof.
  destruct e as [sets st [[[] q]|] a i o nf t sr lg]; simpl;
    rewrite <- ?app_assoc, ?app_nil_r; reflexivity.
Qed.

Lemma log_freeBuffers (e : Engine) : _log (freeBuffers e) = _log e ++ free_events e.
Proof.
  destruct e as [sets st m a [[inL|] [inR|]] [[outL|] [outR|]] nf t sr lg];
    unfold free_events, owned, freeBuffers; simpl;
    rewrite <- ?app_assoc, ?app_nil_r; reflexivity.
Qed.

Lemma owned_fields (a b : Engine) :
  _inputs a = _inputs b -> _outputs a = _outputs b -> owned a = owned b.
Proof. unfold owned. intros -> ->. reflexivity. Qed.

(** X6: [stop()] makes its calls in this order, whatever the state:
    [deactivate()] on the plugin host first; then, if an RtAudio object
    exists, [stopStream] and [closeStream] when the stream is open and the
    release of the object; then the same for the MIDI port; and only then one
    [free] per non-null buffer pointer.  No block is freed while the stream
    is open. *)
Theorem stop_order (e : Engine) :
  _log (stop e)
  = _log e ++ [HostDeactivate] ++ stop_audio_events (_audio e)
      ++ stop_midi_events (_midiIn e) ++ free_events e.
Proof.
  unfold stop, stop_release. cbn [_log set_state].
  rewrite log_freeBuffers, log_stop_midi, log_stop_audio, log_stop_request.
  destruct (stop_request_fields e) as (_ & _ & M1 & A1 & I1 & O1 & _).
  destruct (stop_audio_fields (stop_request e)) as (_ & _ & M2 & _ & I2 & O2 & _).
  destruct (stop_midi_fields (stop_audio (stop_request e))) as (_ & _ & _ & _ & I3 & O3 & _).
  rewrite A1, M2, M1.
  unfold free_events.
  rewrite (owned_fields (stop_midi (stop_audio (stop_request e))) e)
    by congruence.
  rewrite <- !app_assoc. reflexivity.
Qed.

Lemma log_allocateBuffers (bufferSize : Z) (e : Engine) :
  _log (allocateBuffers bufferSize e)
  = _log e ++ free_events e
      ++ [Calloc bufferSize; Calloc bufferSize; Calloc bufferSize; Calloc bufferSize].
Proof.
  unfold allocateBuffers. cbn [_log emit set_inputs set_outputs].
  rewrite log_freeBuffers, <- !app_assoc. reflexivity.
Qed.

Lemma log_allocateBuffers_from (alloc : nat -> bool) (bufferSize : Z) (e : Engine) :
  _log (allocateBuffers_from alloc bufferSize e)
  = _log e ++ free_events e ++ calloc_events alloc bufferSize.
Proof.
  unfold allocateBuffers_from, calloc_events.
  pose proof (log_freeBuffers e) as L. revert L.
  generalize (free_events e). generalize (freeBuffers e). intros y fr L.
  destruct y as [sets st m a i o nf t sr lg]. cbn [_log] in L. subst lg.
  destruct (alloc 0%nat), (alloc 1%nat), (alloc 2%nat), (alloc 3%nat);
    cbn [calloc_from emit_calloc emit set_inputs set_outputs _log _inputs _outputs
         _settings _state _midiIn _audio _nframes _steadyTime _sampleRate fst snd];
    rewrite <- ?app_assoc; cbn [app]; rewrite ?app_nil_r; reflexivity.
Qed.

Lemma kept_allocateBuffers_from (alloc : nat -> bool) (bufferSize : Z) (e : Engine) :
  kept (allocateBuffers_from alloc bufferSize e) = kept e.
Proof.
  rewrite <- (kept_freeBuffers e). unfold allocateBuffers_from.
  pose proof (freeBuffers_fields e) as (_ & _ & _ & _ & I & O & _).
  destruct (freeBuffers e) as [sets st m a i o nf t sr lg].
  simpl in I, O. subst i o.
  destruct (alloc 0%nat), (alloc 1%nat), (alloc 2%nat), (alloc 3%nat);
    unfold kept, clock, leaked, owned, requested_sizes; simpl;
    rewrite ?live_blocks_app, ?omap_app; simpl; rewrite ?app_nil_r;
    first [reflexivity | f_equal; lia].
Qed.

Lemma owned_stored (alloc : nat -> bool) (bufferSize : Z) (e : Engine) :
  _inputs e = stored_inputs alloc bufferSize ->
  _outputs e = stored_outputs alloc bufferSize ->
  owned e = Z.of_nat (length (calloc_events alloc bufferSize)).
Proof.
  unfold owned, stored_inputs, stored_outputs, calloc_events. intros -> ->.
  destruct (alloc 0%nat), (alloc 1%nat), (alloc 2%nat), (alloc 3%nat); reflexivity.
Qed.

(** X7: [allocateBuffers(bufferSize)] first frees every block the engine
    owns and then stores the results of four calls of [calloc] without
    testing them: each pointer is what its call returned, null when the call
    failed.  The engine then owns exactly the blocks that were handed out, so
    that however many of the calls fail no block is left without an owner;
    state and devices are untouched. *)
Theorem allocateBuffers_stores_untested (alloc : nat -> bool) (bufferSize : Z)
    (e : Engine) :
  _inputs (allocateBuffers_from alloc bufferSize e) = stored_inputs alloc bufferSize
  /\ _outputs (allocateBuffers_from alloc bufferSize e) = stored_outputs alloc bufferSize
  /\ _log (allocateBuffers_from alloc bufferSize e)
     = _log e ++ free_events e ++ calloc_events alloc bufferSize
  /\ owned (allocateBuffers_from alloc bufferSize e)
     = Z.of_nat (length (calloc_events alloc bufferSize))
  /\ leaked (allocateBuffers_from alloc bufferSize e) = leaked e
  /\ _state (allocateBuffers_from alloc bufferSize e) = _state e
  /\ _audio (allocateBuffers_from alloc bufferSize e) = _audio e
  /\ _midiIn (allocateBuffers_from alloc bufferSize e) = _midiIn e.
Proof.
  destruct (allocateBuffers_from_fields alloc bufferSize e)
    as (_ & S & M & A & I & O & _).
  split; [exact I|]. split; [exact O|].
  split; [apply log_allocateBuffers_from|].
  split; [exact (owned_stored alloc bufferSize _ I O)|].
  split.
  { destruct (kept_parts _ _ (kept_allocateBuffers_from alloc bufferSize e))
      as (_ & _ & L). exact L. }
  split; [exact S|]. split; [exact A | exact M].
Qed.

(** On a running engine, with the second of the four calls failing. *)
Example allocateBuffers_second_fails :
  _inputs (allocateBuffers_from alloc_second_fails (32 * 1024) engine_running)
  = (Some block, None)
  /\ _outputs (allocateBuffers_from alloc_second_fails (32 * 1024) engine_running)
     = (Some block, Some block)
  /\ _log (allocateBuffers_from alloc_second_fails (32 * 1024) engine_running)
     = _log engine_running ++ [Free; Free; Free; Free]
         ++ [Calloc (32 * 1024); Calloc (32 * 1024); Calloc (32 * 1024)].
Proof.
  split; [vm_compute; reflexivity|]. split; vm_compute; reflexivity.
Qed.

Lemma audio_reset_none (e : Engine) : _audio e = None -> audio_reset e = e.
Proof. unfold audio_reset. intros ->. reflexivity. Qed.

Lemma log_start_midi_ok (env : StartEnv) (e : Engine) :
  _midiIn e = None -> env_midiNew env = Ok tt -> env_midiOpenPort env = Ok tt ->
  _log (start_midi env e)
  = _log e ++ [MidiNew (_api (midi_deviceReference (_settings e)));
               MidiOpenPort (_index (midi_deviceReference (_settings e)));
               MidiIgnoreTypes].
Proof.
  intros Hm Hn Ho.
  unfold start_midi, try_catch, start_midi_body, start_midi_steps,
    seq, pure, make_unique_RtMidiIn, if_midiIn, midi_openPort, midi_reset.
  rewrite Hm, Hn, Ho. cbn [_midiIn set_midiIn emit _log].
  rewrite <- !app_assoc. reflexivity.
Qed.

Lemma log_start_before_open (e : Engine) :
  _audio e = None -> buffers_null e ->
  _log (start_before_open e)
  = _log e ++ [Calloc (32 * 1024); Calloc (32 * 1024); Calloc (32 * 1024);
               Calloc (32 * 1024); AudioNew (_api (audio_deviceReference (_settings e)))].
Proof.
  intros A (I & O). unfold start_before_open.
  destruct (allocateBuffers_fields (32 * 1024) e) as (_ & _ & _ & A' & _).
  rewrite audio_reset_none by congruence.
  cbn [_log set_audio emit]. rewrite log_allocateBuffers.
  unfold free_events, owned. rewrite I, O. cbn [owns fst snd Z.add Z.to_nat replicate].
  rewrite <- !app_assoc. reflexivity.
Qed.

Lemma log_started (env : StartEnv) (negotiated : Z) (e : Engine) :
  _log (started env negotiated e)
  = _log (start_before_open e)
      ++ [AudioOpenStream (_index (audio_deviceReference (_settings e)))
                          (audio_sampleRate (_settings e))
                          (requestedBufferSize (audio_bufferSize (_settings e)));
          HostSetPorts 2 2;
          HostActivate (audio_sampleRate (_settings e)) (Int.to_uint negotiated);
          AudioStartStream].
Proof.
  unfold started. cbv zeta. generalize (start_before_open e). intros x.
  cbn [_log set_audio set_state set_nframes emit].
  rewrite <- !app_assoc. reflexivity.
Qed.

(** X8: on an engine at rest, with a MIDI port and an audio device that
    work, [start()] ends Running with the port open, the stream open and
    running and [_nframes] the size the driver negotiated, and it has made
    exactly these calls in this order: the MIDI port is opened, the four
    32 KiB blocks are allocated, the stream is opened, and the plugin host
    is given the ports and activated with the negotiated size (not the
    requested one) before the stream is started. *)
Theorem start_protocol (env : StartEnv) (e : Engine) (negotiated : Z) :
  idle_stopped e ->
  env_midiNew env = Ok tt ->
  env_midiOpenPort env = Ok tt ->
  audio_ok env (requestedBufferSize (audio_bufferSize (_settings e))) negotiated ->
  exists e',
    start env e = Done e'
    /\ _state e' = kStateRunning
    /\ _midiIn e' = Some (mkRtMidiIn true [])
    /\ _audio e' = Some (mkRtAudio true true)
    /\ _nframes e' = Int.to_uint negotiated
    /\ _log e' = _log e ++ start_calls (_settings e) (Int.to_uint negotiated).
Proof.
  intros Hidle Hn Ho Hok.
  pose proof Hidle as (Hs & _ & Hm & _).
  rewrite (start_stopped env e Hs).
  pose proof (settings_start_midi env e) as Hset.
  rewrite <- Hset in Hok.
  exists (start_audio env (start_midi env e)). split; [reflexivity|].
  rewrite (start_audio_ok env _ negotiated Hok).
  destruct (started_fields env negotiated (start_midi env e))
    as (_ & S & M & A & _ & _ & N & _).
  split; [exact S|].
  split; [rewrite M; exact (midiIn_start_midi_ok env e Hn Ho)|].
  split; [exact A|]. split; [exact N|].
  destruct Hidle as (_ & A0 & _ & I0 & O0).
  destruct (core_parts _ _ (core_start_midi env e)) as (_ & _ & A' & I' & O' & _).
  rewrite log_started, log_start_before_open;
    [|congruence|split; congruence].
  rewrite (log_start_midi_ok env e Hm Hn Ho), Hset.
  unfold start_calls. rewrite <- !app_assoc. reflexivity.
Qed.

Lemma start_protocol_witness :
  idle_stopped engine0
  /\ audio_ok (env_ok 64) (requestedBufferSize (audio_bufferSize (_settings engine0))) 64
  /\ exists e',
       start (env_ok 64) engine0 = Done e'
       /\ _state e' = kStateRunning
       /\ _midiIn e' = Some (mkRtMidiIn true [])
       /\ _audio e' = Some (mkRtAudio true true)
       /\ _nframes e' = Int.to_uint 64
       /\ _log e' = _log engine0 ++ start_calls (_settings engine0) (Int.to_uint 64).
Proof.
  assert (H1 : idle_stopped engine0).
  { unfold idle_stopped, buffers_null. simpl. auto. }
  assert (H2 : audio_ok (env_ok 64)
                 (requestedBufferSize (audio_bufferSize (_settings engine0))) 64).
  { unfold audio_ok. simpl. auto. }
  split; [exact H1|]. split; [exact H2|].
  exact (start_protocol (env_ok 64) engine0 64 H1 eq_refl eq_refl H2).
Defined.

(** ** What a callback does to the engine and to the log *)

Lemma audioCallback_frame (plugin : dsp) (out : buffer) (inb : option buffer)
    (frameCount : Z) (currentTime : Q) (e e' : Engine) (out' : buffer) (code : Z) :
  audioCallback plugin out inb frameCount currentTime e = Done (e', out', code) ->
  _settings e' = _settings e /\ _audio e' = _audio e /\ _nframes e' = _nframes e
  /\ _sampleRate e' = _sampleRate e.
Proof.
  intros H. destruct (audioCallback_inv _ _ _ _ _ _ _ _ _ H)
    as [inL inR outL outR ins em Hi Ho Hn Hc Hm Hout Hr].
  destruct (core_parts _ _ (process_midi_core _ _ _ _ Hm)) as (S & _ & A & _ & _ & N & _ & R).
  cbn [_settings _audio _nframes _sampleRate emit set_inputs] in S, A, N, R.
  destruct (callback_return_state _ _ _ _ _ Hr) as [(_ & _ & ->)|(_ & _ & ->)];
    cbn [_settings _audio _nframes _sampleRate set_state set_steadyTime plugin_process
         set_outputs emit];
    auto.
Qed.

(** X9: a callback that returns has called the plugin host in this order:
    [processBegin(frameCount)], then only per-event calls (and lines on
    standard error) of the translator, at most one call per message that was
    pending, then [process()], once.  It has not allocated or freed a block,
    and it has left the settings, the RtAudio object, the negotiated frame
    count and the sample rate alone. *)
Theorem callback_protocol (plugin : dsp) (out : buffer) (inb : option buffer)
    (frameCount : Z) (currentTime : Q) (e e' : Engine) (out' : buffer) (code : Z) :
  audioCallback plugin out inb frameCount currentTime e = Done (e', out', code) ->
  (exists l,
     _log e' = _log e ++ [HostProcessBegin frameCount] ++ l ++ [HostProcess]
     /\ Forall (fun ev => is_midi_event ev = true) l
     /\ (length (host_calls l) <= length (midi_pending e))%nat)
  /\ live_blocks (_log e') = live_blocks (_log e)
  /\ owned e' = owned e
  /\ _settings e' = _settings e /\ _audio e' = _audio e /\ _nframes e' = _nframes e
  /\ _sampleRate e' = _sampleRate e.
Proof.
  intros H.
  pose proof (audioCallback_log _ _ _ _ _ _ _ _ _ H) as L.
  split; [exact L|].
  split.
  { destruct L as (l & El & Fl & _).
    rewrite El, !live_blocks_app, (live_blocks_midi_events l Fl). simpl. lia. }
  split.
  { apply (step_owned (OpCallback plugin out inb frameCount currentTime) e e' eq_refl).
    simpl. rewrite H. reflexivity. }
  exact (audioCallback_frame _ _ _ _ _ _ _ _ _ H).
Qed.

Lemma callback_protocol_witness :
  invoke args0 engine_running = Done after_callback0
  /\ _log (fst (fst after_callback0))
     = _log engine_running ++ [HostProcessBegin 4; HostProcess]
  /\ live_blocks (_log (fst (fst after_callback0))) = live_blocks (_log engine_running).
Proof.
  assert (H : invoke args0 engine_running = Done after_callback0)
    by (vm_compute; reflexivity).
  split; [exact H|]. split; [vm_compute; reflexivity|].
  assert (H' : audioCallback (cb_plugin args0) (cb_outputBuffer args0)
                 (cb_inputBuffer args0) (cb_frameCount args0) (cb_currentTime args0)
                 engine_running
               = Done (fst (fst after_callback0), snd (fst after_callback0),
                       snd after_callback0)).
  { vm_compute. reflexivity. }
  exact (proj1 (proj2 (callback_protocol _ _ _ _ _ _ _ _ _ H'))).
Defined.

(** ** Edge cases of the requested buffer size and of the sample offset *)

Lemma requestedBufferSize_negative (r : Z) :
  Int.int_min <= r < 0 -> requestedBufferSize r = 2 ^ 32 + r.
Proof.
  intros H. unfold requestedBufferSize, Int.to_int, Int.to_uint, Int.int_min in *.
  rewrite (Z.mod_small (r + 2 ^ 31)) by lia.
  replace (r + 2 ^ 31 - 2 ^ 31) with r by lia.
  rewrite Z.min_r by lia.
  symmetry. apply (Z.mod_unique r (2 ^ 32) (-1) (2 ^ 32 + r)); lia.
Qed.

(** X10: a negative buffer size in the settings is not clamped: the
    minimum with 32, taken on [int], is the negative value itself, and its
    conversion to [unsigned int] makes [start()] ask the driver for
    2^32 + value frames, more than 2^31. *)
Theorem start_requests_wrapped_size (env : StartEnv) (e : Engine) :
  _state e = kStateStopped ->
  env_audioNew env = Ok tt ->
  Int.int_min <= audio_bufferSize (_settings e) < 0 ->
  exists e',
    start env e = Done e'
    /\ requested_sizes (_log e')
       = requested_sizes (_log e) ++ [2 ^ 32 + audio_bufferSize (_settings e)]
    /\ 2 ^ 31 <= 2 ^ 32 + audio_bufferSize (_settings e).
Proof.
  intros Hs Ha Hr. rewrite (start_stopped env e Hs).
  eexists. split; [reflexivity|].
  pose proof (kept_start_audio env (start_midi env e)) as K.
  rewrite Ha in K.
  pose proof (f_equal (fun x => snd (fst x)) K) as Ks. cbv beta in Ks.
  unfold kept in Ks. cbn [fst snd] in Ks.
  destruct (kept_parts _ _ (kept_start_midi env e)) as (Mc & Ms & _).
  destruct (clock_parts _ _ Mc) as (Mset & _).
  rewrite Ks, Ms, Mset, requestedBufferSize_negative by exact Hr.
  split; [reflexivity|]. unfold Int.int_min in Hr. lia.
Qed.

Lemma start_requests_wrapped_size_witness :
  Int.int_min <= audio_bufferSize (_settings engine_negative) < 0
  /\ exists e',
       start (env_ok 64) engine_negative = Done e'
       /\ requested_sizes (_log e')
          = requested_sizes (_log engine_negative)
              ++ [2 ^ 32 + audio_bufferSize (_settings engine_negative)]
       /\ 2 ^ 31 <= 2 ^ 32 + audio_bufferSize (_settings engine_negative).
Proof.
  assert (H : Int.int_min <= audio_bufferSize (_settings engine_negative) < 0).
  { unfold Int.int_min. simpl. lia. }
  split; [exact H|].
  exact (start_requests_wrapped_size (env_ok 64) engine_negative eq_refl eq_refl H).
Defined.

Lemma deltaSample_nonpos (dMs sr : Q) :
  (dMs <= 0)%Q -> (0 <= sr)%Q -> (deltaSample dMs sr <= 0)%Q.
Proof.
  intros Hd Hs.
  assert (H : (0 <= deltaSample (- dMs) sr)%Q).
  { apply deltaSample_nonneg; [|exact Hs].
    apply (Qopp_le_compat dMs 0%Q) in Hd. exact Hd. }
  assert (E : (deltaSample (- dMs) sr == - deltaSample dMs sr)%Q).
  { unfold deltaSample. field. }
  rewrite E in H. apply (Qopp_le_compat 0%Q) in H.
  rewrite Qopp_involutive in H. exact H.
Qed.

(** X11: a message whose time stamp is not before the callback's current
    time (deltaMs <= 0) is never clamped and never lands inside the block:
    its sample offset is at least frameCount. *)
Theorem sampleOffset_future (frameCount : Z) (dMs sr : Q) :
  1 <= frameCount ->
  (dMs <= 0)%Q ->
  (0 <= sr)%Q ->
  (inject_Z frameCount - deltaSample dMs sr <= inject_Z Int.int_max)%Q ->
  exists off,
    sampleOffset frameCount dMs sr = Some off
    /\ frameCount <= off.
Proof.
  intros Hfc Hd Hs Hmax.
  pose proof (deltaSample_nonpos dMs sr Hd Hs) as Hds.
  assert (Hq : (inject_Z frameCount <= inject_Z frameCount - deltaSample dMs sr)%Q).
  { rewrite <- (Qplus_0_r (inject_Z frameCount)) at 1.
    apply Qplus_le_compat; [apply Qle_refl|].
    apply (Qopp_le_compat _ 0%Q) in Hds. exact Hds. }
  assert (H0 : (0 <= inject_Z frameCount - deltaSample dMs sr)%Q).
  { apply Qle_trans with (inject_Z frameCount); [|exact Hq].
    change 0%Q with (inject_Z 0). rewrite <- Zle_Qle. lia. }
  assert (Hlo : frameCount <= Int.Qtrunc (inject_Z frameCount - deltaSample dMs sr)).
  { rewrite Qtrunc_nonneg by exact H0. rewrite <- (Qfloor_Z frameCount) at 1.
    apply Qfloor_resp_le. exact Hq. }
  assert (Hhi : Int.Qtrunc (inject_Z frameCount - deltaSample dMs sr) <= Int.int_max).
  { rewrite Qtrunc_nonneg by exact H0. rewrite <- (Qfloor_Z Int.int_max).
    apply Qfloor_resp_le. exact Hmax. }
  exists (Int.Qtrunc (inject_Z frameCount - deltaSample dMs sr)).
  split; [|exact Hlo].
  unfold sampleOffset, clampDeltaSample.
  destruct (Qle_bool (inject_Z frameCount) (deltaSample dMs sr)) eqn:E.
  { apply Qle_bool_iff in E. exfalso.
    assert (H1 : (inject_Z frameCount <= 0)%Q) by (apply Qle_trans with (deltaSample dMs sr); assumption).
    change 0%Q with (inject_Z 0) in H1. rewrite <- Zle_Qle in H1. lia. }
  apply double_to_int32_in_range. unfold Int.int_min in *. split; [lia | exact Hhi].
Qed.

Lemma sampleOffset_future_witness :
  exists off,
    sampleOffset 256 (deltaMs 10 11) 48000 = Some off
    /\ 256 <= off.
Proof.
  apply (sampleOffset_future 256 (deltaMs 10 11) 48000).
  - lia.
  - vm_compute. discriminate.
  - vm_compute. discriminate.
  - vm_compute. discriminate.
Defined.

Example sampleOffset_future_example : sampleOffset 256 (deltaMs 10 11) 48000 = Some 304.
Proof. vm_compute. reflexivity. Qed.

(** A time stamp 5/3 ms ahead, on the machine's numbers and on exact ones:
    rounding moves the offset by one, and both are past the block. *)
Example sampleOffset_future_double :
  Double.sampleOffset 256 (Double.of_Z 0) stamp_ahead (Double.of_Z 48000) = Some 336
  /\ sampleOffset 256 (deltaMs 0 (7505999378950826 # 4503599627370496)) 48000 = Some 335.
Proof. split; vm_compute; reflexivity. Qed.




(** Inside the last sample before the clamp, on exact numbers: just under a
    block old gives offset 0, a block old or more gives offset 1. *)
Example sampleOffset_order_broken_by_clamp :
  sampleOffset 256 (5333 # 1000) 48000 = Some 0
  /\ sampleOffset 256 (6 # 1) 48000 = Some 1.
Proof. split; vm_compute; reflexivity. Qed.

(** The same on the machine's numbers: a message 16/3 ms old is exactly one
    block old and is clamped to offset 1, one of 5.33 ms gets offset 0. *)
Example sampleOffset_order_broken_on_double :
  Double.sampleOffset 256 age_block (Double.of_Z 0) (Double.of_Z 48000) = Some 1
  /\ Double.sampleOffset 256 age_under_block (Double.of_Z 0) (Double.of_Z 48000) = Some 0.
Proof. split; vm_compute; reflexivity. Qed.

(** ** stop() followed by start() *)

Lemma kept_start_before_open_from (alloc : nat -> bool) (e : Engine) :
  kept (start_before_open_from alloc e) = kept e.
Proof.
  unfold start_before_open_from. rewrite kept_set_audio.
  rewrite kept_emit by reflexivity.
  rewrite kept_audio_reset. apply kept_allocateBuffers_from.
Qed.

Lemma kept_start_audio_from (alloc : nat -> bool) (env : StartEnv) (e : Engine) :
  kept (start_audio_from alloc env e)
  = match env_audioNew env with
    | Ok _ => (clock e,
               requested_sizes (_log e)
                 ++ [requestedBufferSize (audio_bufferSize (_settings e))],
               leaked e)
    | Throw => kept e
    end.
Proof.
  unfold start_audio_from, try_catch. rewrite (kept_try_end stop _ kept_stop).
  destruct (env_audioNew env) as [[]|] eqn:E.
  - rewrite (start_audio_body_from_ok alloc env e E).
    rewrite kept_openStream by (intros n; apply keeps_start_after_open).
    destruct (kept_parts _ _ (kept_start_before_open_from alloc e)) as (Kc & Ks & Kl).
    rewrite Kc, Ks, Kl. reflexivity.
  - rewrite (start_audio_body_from_throw alloc env e E). unfold after.
    rewrite kept_emit by reflexivity.
    rewrite kept_audio_reset. apply kept_allocateBuffers_from.
Qed.

Lemma clock_leaked_start_from (alloc : nat -> bool) (env : StartEnv) (e : Engine) :
  clock (start_audio_from alloc env (start_midi env e)) = clock e
  /\ leaked (start_audio_from alloc env (start_midi env e)) = leaked e.
Proof.
  pose proof (kept_start_audio_from alloc env (start_midi env e)) as K.
  destruct (kept_parts _ _ (kept_start_midi env e)) as (Mc & _ & Ml).
  rewrite <- Mc, <- Ml.
  destruct (env_audioNew env).
  - split; [exact (f_equal (fun x => fst (fst x)) K) | exact (f_equal snd K)].
  - destruct (kept_parts _ _ K) as (Kc & _ & Kl). split; assumption.
Qed.

(** X13: [start()] right after [stop()] never trips the assert on the
    state, whatever the engine was doing before; with a working audio device
    the engine is Running again with its stream running and the newly
    negotiated frame count, its four buffer pointers are the untested results
    of four new calls of [calloc] (null where a call failed), and the sample
    counter, the settings and the blocks without an owner are what they were
    before the [stop()]. *)
Theorem restart (alloc : nat -> bool) (env : StartEnv) (e : Engine) (negotiated : Z) :
  audio_ok env (requestedBufferSize (audio_bufferSize (_settings e))) negotiated ->
  exists e',
    start_from alloc env (stop e) = Done e'
    /\ _state e' = kStateRunning
    /\ _audio e' = Some (mkRtAudio true true)
    /\ _inputs e' = stored_inputs alloc (32 * 1024)
    /\ _outputs e' = stored_outputs alloc (32 * 1024)
    /\ _nframes e' = Int.to_uint negotiated
    /\ clock e' = clock e
    /\ leaked e' = leaked e.
Proof.
  intros Hok.
  destruct (stop_fields e) as (Sset & Sst & _).
  unfold start_from. destruct (decide (_state (stop e) = kStateStopped)) as [_|N];
    [|exfalso; exact (N Sst)].
  exists (start_audio_from alloc env (start_midi env (stop e))). split; [reflexivity|].
  destruct (clock_leaked_start_from alloc env (stop e)) as [C L].
  destruct (kept_parts _ _ (kept_stop e)) as (C' & _ & L').
  assert (Hok' : audio_ok env
            (requestedBufferSize (audio_bufferSize (_settings (start_midi env (stop e)))))
            negotiated).
  { rewrite (settings_start_midi env (stop e)), Sset. exact Hok. }
  pose proof (start_audio_from_ok alloc env _ negotiated Hok') as E.
  destruct (started_from_fields alloc env negotiated (start_midi env (stop e)))
    as (_ & S & _ & A & I & O & N & _).
  rewrite <- E in S, A, I, O, N.
  split; [exact S|]. split; [exact A|]. split; [exact I|]. split; [exact O|].
  split; [exact N|].
  split; [rewrite C; exact C' | rewrite L; exact L'].
Qed.

Lemma restart_witness :
  audio_ok (env_ok 64)
    (requestedBufferSize (audio_bufferSize (_settings engine_running))) 64
  /\ exists e',
       start_from alloc_second_fails (env_ok 64) (stop engine_running) = Done e'
       /\ _state e' = kStateRunning
       /\ _audio e' = Some (mkRtAudio true true)
       /\ _inputs e' = stored_inputs alloc_second_fails (32 * 1024)
       /\ _outputs e' = stored_outputs alloc_second_fails (32 * 1024)
       /\ _nframes e' = Int.to_uint 64
       /\ clock e' = clock engine_running
       /\ leaked e' = leaked engine_running.
Proof.
  assert (H : audio_ok (env_ok 64)
                (requestedBufferSize (audio_bufferSize (_settings engine_running))) 64).
  { unfold audio_ok. repeat split; vm_compute; reflexivity. }
  split; [exact H|]. exact (restart alloc_second_fails (env_ok 64) engine_running 64 H).
Defined.

(** ** unloadPlugin() and the callback *)

(** X14: [unloadPlugin()] frees every block the engine owns and nulls the
    four pointers without looking at the state, which it leaves as it is: on
    the engine it returns, Running or not, every callback fails the first
    assert, until a [start()] allocates blocks again. *)
Theorem unloadPlugin_then_callback (e : Engine) (a : CallbackArgs) :
  _state (unloadPlugin e) = _state e
  /\ buffers_null (unloadPlugin e)
  /\ _log (unloadPlugin e) = _log e ++ [HostUnload] ++ free_events e
  /\ invoke a (unloadPlugin e) = Fault (AssertFailed "buffer != nullptr").
Proof.
  destruct (unloadPlugin_fields e) as (_ & S & _ & _ & I & O & _).
  split; [exact S|]. split; [split; assumption|]. split.
  - destruct e as [sets st m au [[inL|] [inR|]] [[outL|] [outR|]] nf t sr lg];
      unfold free_events, owned, unloadPlugin; simpl;
      rewrite <- ?app_assoc, ?app_nil_r; reflexivity.
  - unfold invoke, audioCallback. rewrite I. reflexivity.
Qed.

(** ** De-interleaving and interleaving *)

(** X15: the two copy loops are inverse to each other on a block: when
    [n] frames of an interleaved buffer are de-interleaved into two channels
    and these channels are interleaved again, the first 2 * n samples of the
    result are those of the original buffer, and the samples after them are
    untouched. *)
Theorem interleave_deinterleave (b L R out : list Z) (n : nat)
    (lr : list Z * list Z) (out' : list Z) :
  copy_input (Some b) n (L, R) = Done lr ->
  copy_output (fst lr) (snd lr) n out = Done out' ->
  (forall j, (j < 2 * n)%nat -> out' !! j = b !! j)
  /\ (forall j, (2 * n <= j)%nat -> out' !! j = out !! j)
  /\ length out' = length out.
Proof.
  intros Hin Hout.
  destruct (copy_input_spec _ _ _ _ _ Hin) as (_ & _ & P & _).
  destruct (copy_output_spec _ _ _ _ _ Hout) as (Q1 & Q2 & Q3).
  split; [|split; [exact Q3 | exact Q1]].
  intros j Hj.
  destruct (Nat.Even_or_Odd j) as [[k ->]|[k ->]].
  - destruct (Q2 k) as [A _]; [lia|]. destruct (P k) as [B _]; [lia|]. congruence.
  - destruct (Q2 k) as [_ A]; [lia|]. destruct (P k) as [_ B]; [lia|]. congruence.
Qed.

Lemma interleave_deinterleave_witness :
  exists lr out',
    copy_input (Some [1; 2; 3; 4; 5; 6]) 2 ([0; 0; 0], [0; 0; 0]) = Done lr
    /\ copy_output (fst lr) (snd lr) 2 [9; 9; 9; 9; 9; 9] = Done out'
    /\ (forall j, (j < 2 * 2)%nat -> out' !! j = [1; 2; 3; 4; 5; 6] !! j)
    /\ (forall j, (2 * 2 <= j)%nat -> out' !! j = [9; 9; 9; 9; 9; 9] !! j).
Proof.
  exists ([1; 3; 0], [2; 4; 0]), [1; 2; 3; 4; 9; 9].
  assert (H1 : copy_input (Some [1; 2; 3; 4; 5; 6]) 2 ([0; 0; 0], [0; 0; 0])
               = Done ([1; 3; 0], [2; 4; 0])) by reflexivity.
  assert (H2 : copy_output (fst ([1; 3; 0], [2; 4; 0])) (snd ([1; 3; 0], [2; 4; 0])) 2
                 [9; 9; 9; 9; 9; 9] = Done [1; 2; 3; 4; 9; 9]) by reflexivity.
  split; [exact H1|]. split; [exact H2|].
  destruct (interleave_deinterleave _ _ _ _ _ _ _ H1 H2) as (A & B & _).
  split; [exact A | exact B].
Defined.
